(** * Logion client: LOC lifecycle, reconciliation and aggregation

    A shallow embedding of the parts of the logion client that decide the
    behaviour of the LOC state objects, of the on-chain / off-chain
    reconciler, of the multi-source aggregator and of the terms and token
    validators, together with the theorems about them.

    Asynchronous methods are modelled in direct style: an [await] is a
    sequencing point, a rejected promise is a thrown error.  Calls to the
    backend and to the ledger go through an explicit [World] holding the
    scripted outcome of each call, the log of the calls issued so far and
    the records the backend stores. *)

From Stdlib Require Import ZArith Ascii String List Permutation Lia Bool.
From stdpp Require Import base option list strings pretty gmap.
Import ListNotations.
Local Open Scope string_scope.
Local Open Scope list_scope.

(** ** JavaScript values shared by all components *)

Module Js.

(** Errors that the client throws or lets through. *)
Inductive JsError : Type :=
  | Error (message : string)          (* new Error(message) *)
  | TypeError (message : string)      (* property access on undefined/null *)
  | HttpError (status : Z)            (* a non-2xx answer, as axios rejects it *)
  | SubmissionError (message : string)(* a failed signAndSend *)
  | StaleStateError                   (* use of a discarded state object *)
  | BackendError (cause : JsError).   (* newBackendError(e) *)

(** A call either returns or throws. *)
Inductive result (A : Type) : Type :=
  | Ok (a : A)
  | Throw (e : JsError).
Arguments Ok {A} a.
Arguments Throw {A} e.

Definition bind {A B} (r : result A) (k : A -> result B) : result B :=
  match r with
  | Ok a => k a
  | Throw e => Throw e
  end.

(** [try { r } catch(e) { throw newBackendError(e) }] *)
Definition orBackendError {A} (r : result A) : result A :=
  match r with
  | Ok a => Ok a
  | Throw e => Throw (BackendError e)
  end.

(** [Array.prototype.map] with a callback that may throw. *)
Fixpoint mapM {A B} (f : A -> result B) (l : list A) : result (list B) :=
  match l with
  | [] => Ok []
  | a :: l' =>
      match f a with
      | Ok b => bind (mapM f l') (fun bs => Ok (b :: bs))
      | Throw e => Throw e
      end
  end.

(** Truthiness of a string ([""] is falsy). *)
Definition truthyString (s : string) : bool :=
  negb (String.eqb s "").

(** Truthiness of an optional string ([undefined] and [""] are falsy). *)
Definition truthyOptString (s : option string) : bool :=
  match s with
  | Some s => truthyString s
  | None => false
  end.

(** Truthiness of a bigint ([0n] is falsy). *)
Definition truthyBigint (n : Z) : bool := negb (n =? 0)%Z.

Definition truthyOptBigint (n : option Z) : bool :=
  match n with
  | Some n => truthyBigint n
  | None => false
  end.

End Js.

Notation "'let*' x ':=' r 'in' k" := (Js.bind r (fun x => k))
  (at level 10, x name, r at level 100, k at level 200).

(** ** license/LogionClassification.ts *)

Module LogionClassification.
Import Js.

(** The ten codes of the type [LogionTransferredRightCode].  At run time
    the rights are strings; a string outside the type, which [fromDetails]
    does not filter out and the validator does not look at, is not
    represented. *)
Inductive LogionTransferredRightCode : Type :=
  | PER_PRIV | PER_PUB | COM_NOMOD | COM_MOD | EX | NOEX | WW | REG | NOTIME | TIME.

Global Instance code_eq_dec : EqDecision LogionTransferredRightCode.
Proof. solve_decision. Defined.

Definition codeName (c : LogionTransferredRightCode) : string :=
  match c with
  | PER_PRIV => "PER-PRIV" | PER_PUB => "PER-PUB"
  | COM_NOMOD => "COM-NOMOD" | COM_MOD => "COM-MOD"
  | EX => "EX" | NOEX => "NOEX"
  | WW => "WW" | REG => "REG"
  | NOTIME => "NOTIME" | TIME => "TIME"
  end.

Record LogionLicenseParameters : Type := {
  transferredRights : list LogionTransferredRightCode;
  regionalLimit : option (list string);
  expiration : option string;
}.

Definition Condition : Type := LogionLicenseParameters -> bool.

(** [Array.prototype.includes] on the transferred rights. *)
Definition includes (l : list LogionTransferredRightCode)
         (c : LogionTransferredRightCode) : bool :=
  existsb (fun c' => bool_decide (c' = c)) l.

Record Validator : Type := {
  parameters : LogionLicenseParameters;
  errors : list string;
}.

Definition newValidator (p : LogionLicenseParameters) : Validator :=
  {| parameters := p; errors := [] |}.

Definition push (v : Validator) (message : string) : Validator :=
  {| parameters := parameters v; errors := errors v ++ [message] |}.

Definition validOrThrow (v : Validator) : result unit :=
  if (0 <? length (errors v))%nat
  then Throw (Error (String.concat "; " (errors v)))
  else Ok tt.

Definition mutuallyExclusive (code1 code2 : LogionTransferredRightCode)
         (v : Validator) : Validator :=
  if includes (transferredRights (parameters v)) code1
     && includes (transferredRights (parameters v)) code2
  then push v ("Transferred rights are mutually exclusive: "
               +:+ codeName code1 +:+ " and " +:+ codeName code2)
  else v.

Definition codePresentForCondition (code : LogionTransferredRightCode)
         (condition : Condition) (message : string) (v : Validator) : Validator :=
  let v1 :=
    if negb (includes (transferredRights (parameters v)) code)
       && condition (parameters v)
    then push v message else v in
  if includes (transferredRights (parameters v1)) code
     && negb (condition (parameters v1))
  then push v1 message else v1.

Section WithLuxon.
(** [DateTime.fromISO(date).isValid] of the luxon library. *)
Variable fromISO_isValid : string -> bool.

Definition validIsoDate (date : option string) (v : Validator) : Validator :=
  match date with
  | Some d =>
      if truthyString d
      then if negb (fromISO_isValid d) then push v "Invalid date" else v
      else v
  | None => v
  end.

Definition expirationSet : Condition := fun params =>
  match expiration params with
  | Some e => (0 <? String.length e)%nat
  | None => false
  end.

Definition regionalLimitSet : Condition := fun params =>
  match regionalLimit params with
  | Some l => (0 <? length l)%nat
  | None => false
  end.

Definition TIME_message : string :=
  "Transferred right TIME must be set if and only if expiration is set".
Definition REG_message : string :=
  "Transferred right REG must be set if and only if a regional limit is set".

Definition checkValidity (p : LogionLicenseParameters) : result unit :=
  validOrThrow
    (validIsoDate (expiration p)
    (codePresentForCondition REG regionalLimitSet REG_message
    (codePresentForCondition TIME expirationSet TIME_message
    (mutuallyExclusive TIME NOTIME
    (mutuallyExclusive REG WW
    (mutuallyExclusive EX NOEX
    (mutuallyExclusive COM_NOMOD COM_MOD
    (mutuallyExclusive PER_PRIV PER_PUB
    (newValidator p))))))))).

(** The constructed element: its reference LOC and its parameters. *)
Record t : Type := {
  tcLocId : string;
  params : LogionLicenseParameters;
}.

(** [new LogionClassification(licenseLocId, parameters, checkValidity)] *)
Definition new (licenseLocId : string) (p : LogionLicenseParameters)
           (check : bool) : result t :=
  let this := {| tcLocId := licenseLocId; params := p |} in
  if check
  then let* _ := checkValidity p in Ok this
  else Ok this.

(** *** The rules as the specification words them *)

Inductive Rule : Type :=
  | Exclusive (code1 code2 : LogionTransferredRightCode)
  | TimeIffExpiration
  | RegIffRegionalLimit
  | ExpirationIsIsoDate.

Definition rules : list Rule :=
  [ Exclusive PER_PRIV PER_PUB; Exclusive COM_NOMOD COM_MOD;
    Exclusive EX NOEX; Exclusive REG WW; Exclusive TIME NOTIME;
    TimeIffExpiration; RegIffRegionalLimit; ExpirationIsIsoDate ].

(** An expiration date is set when it is given and not empty; a regional
    limit is set when the list is given and not empty. *)
Definition expiration_is_set (p : LogionLicenseParameters) : Prop :=
  exists e, expiration p = Some e /\ e <> "".

Definition regional_limit_non_empty (p : LogionLicenseParameters) : Prop :=
  exists l, regionalLimit p = Some l /\ l <> [].

Definition respects (p : LogionLicenseParameters) (r : Rule) : Prop :=
  match r with
  | Exclusive c1 c2 =>
      ~ (In c1 (transferredRights p) /\ In c2 (transferredRights p))
  | TimeIffExpiration =>
      In TIME (transferredRights p) <-> expiration_is_set p
  | RegIffRegionalLimit =>
      In REG (transferredRights p) <-> regional_limit_non_empty p
  | ExpirationIsIsoDate =>
      forall e, expiration p = Some e -> e <> "" -> fromISO_isValid e = true
  end.

Definition ruleMessage (r : Rule) : string :=
  match r with
  | Exclusive c1 c2 =>
      "Transferred rights are mutually exclusive: "
        +:+ codeName c1 +:+ " and " +:+ codeName c2
  | TimeIffExpiration => TIME_message
  | RegIffRegionalLimit => REG_message
  | ExpirationIsIsoDate => "Invalid date"
  end.

(** Boolean reading of [respects], used to run the rules. *)
Definition respectsb (p : LogionLicenseParameters) (r : Rule) : bool :=
  match r with
  | Exclusive c1 c2 =>
      negb (includes (transferredRights p) c1 && includes (transferredRights p) c2)
  | TimeIffExpiration =>
      Bool.eqb (includes (transferredRights p) TIME) (expirationSet p)
  | RegIffRegionalLimit =>
      Bool.eqb (includes (transferredRights p) REG) (regionalLimitSet p)
  | ExpirationIsIsoDate =>
      match expiration p with
      | Some e => if truthyString e then fromISO_isValid e else true
      | None => true
      end
  end.

(** The messages of the violated rules among [rs], in the order of [rs]. *)
Inductive reports (p : LogionLicenseParameters) : list Rule -> list string -> Prop :=
| reports_nil : reports p [] []
| reports_respected r rs ms :
    respects p r -> reports p rs ms -> reports p (r :: rs) ms
| reports_violated r rs ms :
    ~ respects p r -> reports p rs ms ->
    reports p (r :: rs) (ruleMessage r :: ms).

Definition violationMessages (p : LogionLicenseParameters) (rs : list Rule) : list string :=
  flat_map (fun r => if respectsb p r then [] else [ruleMessage r]) rs.

End WithLuxon.

End LogionClassification.

(** ** Token.ts *)

Module Token.
Import Js.

Record ItemTokenWithRestrictedType : Type := {
  type : string;   (* a [TokenType]; the type is erased at run time *)
  id : string;
  issuance : Z;
}.

Record TokenValidationResult : Type := {
  valid : bool;
  error : option string;
}.

(** The value [JSON.parse] produces. *)
#[local] Unset Elimination Schemes.
Inductive Json : Type :=
| JNull
| JBool (b : bool)
| JNumber (n : Z)
| JString (s : string)
| JArray (items : list Json)
| JObject (fields : list (string * Json)).
#[local] Set Elimination Schemes.

(** [String.prototype.startsWith] and [String.prototype.includes]. *)
Definition startsWith (s prefix : string) : bool := String.prefix prefix s.

Fixpoint includes (s sub : string) : bool :=
  String.prefix sub s ||
  match s with
  | EmptyString => false
  | String _ s' => includes s' sub
  end.

(** [value[key]]: a property read throws on [null], finds nothing on the
    other primitives and on arrays, and looks the key up in an object. *)
Definition getField (value : Json) (key : string) : result (option Json) :=
  match value with
  | JNull => Throw (TypeError ("Cannot read properties of null (reading '" +:+ key +:+ "')"))
  | JObject fields => Ok (snd <$> List.find (fun kv => String.eqb (fst kv) key) fields)
  | _ => Ok None
  end.

(** [!value] *)
Definition falsy (value : option Json) : bool :=
  match value with
  | None | Some JNull | Some (JBool false) => true
  | Some (JNumber n) => (n =? 0)%Z
  | Some (JString s) => negb (truthyString s)
  | _ => false
  end.

(** [typeof value === "string"] *)
Definition isString (value : option Json) : bool :=
  match value with
  | Some (JString _) => true
  | _ => false
  end.

Definition isErcNft (type : string) : bool :=
  includes type "erc721" || includes type "erc1155".

Definition ETHEREUM_ADDRESS_LENGTH_IN_BITS : Z := 20 * 8.

Definition isDigit (c : ascii) : bool :=
  let n := nat_of_ascii c in (48 <=? n)%nat && (n <=? 57)%nat.
Definition isUpper (c : ascii) : bool :=
  let n := nat_of_ascii c in (65 <=? n)%nat && (n <=? 90)%nat.
Definition isLower (c : ascii) : bool :=
  let n := nat_of_ascii c in (97 <=? n)%nat && (n <=? 122)%nat.
Definition isLowerHex (c : ascii) : bool :=
  let n := nat_of_ascii c in isDigit c || ((97 <=? n)%nat && (n <=? 102)%nat).
Definition isDash (c : ascii) : bool := (nat_of_ascii c =? 45)%nat.
Definition isUnderscore (c : ascii) : bool := (nat_of_ascii c =? 95)%nat.

(** [/^[0-9a-zA-Z\-_]+$/.test(tokenId)] *)
Definition isSingularKusamaId (tokenId : string) : bool :=
  let cs := list_ascii_of_string tokenId in
  negb (Nat.eqb (length cs) 0)
  && forallb (fun c => isDigit c || isLower c || isUpper c || isDash c || isUnderscore c) cs.

(** The longest prefix of characters satisfying [p], and the rest. *)
Fixpoint span (p : ascii -> bool) (cs : list ascii) : list ascii * list ascii :=
  match cs with
  | c :: cs' =>
      if p c then let '(a, b) := span p cs' in (c :: a, b) else ([], cs)
  | [] => ([], [])
  end.

(** [/^[0-9A-Z]+-[0-9a-f]{6}(-[0-9a-f]+)?$/.test(tokenId)] *)
Definition isMultiversxESDTId (tokenId : string) : bool :=
  let '(ticker, rest) := span (fun c => isDigit c || isUpper c)
                              (list_ascii_of_string tokenId) in
  negb (Nat.eqb (length ticker) 0) &&
  match rest with
  | dash :: rest' =>
      isDash dash &&
      forallb isLowerHex (firstn 6 rest') && Nat.eqb (length (firstn 6 rest')) 6 &&
      match skipn 6 rest' with
      | [] => true
      | dash' :: nonce =>
          isDash dash' && negb (Nat.eqb (length nonce) 0) && forallb isLowerHex nonce
      end
  | [] => false
  end.

Section WithLibraries.
(** [JSON.parse]; [None] when it throws a [SyntaxError]. *)
Variable JSON_parse : string -> option Json.
(** [isHex(value, bitLength)] of [@polkadot/util]. *)
Variable isHex : string -> Z -> bool.
(** [AnyAccountId.isValidBech32Address(value, prefix)]. *)
Variable isValidBech32Address : string -> string -> bool.
(** Whether [api.createType('AccountId', value)] returns rather than throws. *)
Variable createType_AccountId : string -> bool.

(** [Queries.isValidAccountId] *)
Definition isValidAccountId (accountId : option string) : bool :=
  match accountId with
  | None => false
  | Some accountId =>
      if String.eqb accountId "" then false else createType_AccountId accountId
  end.

Definition invalid (message : string) : TokenValidationResult :=
  {| valid := false; error := Some message |}.

Definition validateErcToken (itemToken : ItemTokenWithRestrictedType)
  : result (TokenValidationResult * option Json) :=
  match JSON_parse (id itemToken) with
  | None => Ok (invalid "token ID is not a valid JSON object", None)
  | Some idObject =>
      let* contract := getField idObject "contract" in
      if falsy contract
      then Ok (invalid "token ID is missing the 'contract' field", None)
      else if negb (isString contract)
      then Ok (invalid "token ID's 'contract' field is not a string", None)
      else Ok ({| valid := true; error := None |}, Some idObject)
  end.

Definition validateToken (itemToken : ItemTokenWithRestrictedType)
  : result TokenValidationResult :=
  if isErcNft (type itemToken) then
    let* r := validateErcToken itemToken in
    let '(result, idObject) := r in
    if valid result then
      match idObject with
      | Some idObject =>
          let* id := getField idObject "id" in
          if falsy id then Ok (invalid "token ID is missing the 'id' field")
          else if negb (isString id)
          then Ok (invalid "token ID's 'id' field is not a string")
          else Ok {| valid := true; error := None |}
      | None => Throw (TypeError "Cannot read properties of undefined (reading 'id')")
      end
    else Ok result
  else if includes (type itemToken) "erc20" then
    let* r := validateErcToken itemToken in Ok (fst r)
  else if String.eqb (type itemToken) "owner" then
    if isHex (id itemToken) ETHEREUM_ADDRESS_LENGTH_IN_BITS
       || isValidBech32Address (id itemToken) "erd1"
       || isValidAccountId (Some (id itemToken))
    then Ok {| valid := true; error := None |}
    else Ok (invalid "token ID must be a valid Ethereum, Polkadot or MultiversX address")
  else if String.eqb (type itemToken) "singular_kusama" then
    if isSingularKusamaId (id itemToken)
    then Ok {| valid := true; error := None |}
    else Ok (invalid "token ID must be a valid Singular Kusama ID")
  else if startsWith (type itemToken) "multiversx" then
    if isMultiversxESDTId (id itemToken)
    then Ok {| valid := true; error := None |}
    else Ok (invalid "token ID must be a valid MultiversX ESDT ID")
  else Ok (invalid ("unsupported token type '" +:+ type itemToken +:+ "'")).

(** A template literal prints [undefined] for a missing value. *)
Definition interpolate (value : option string) : string :=
  match value with
  | Some s => s
  | None => "undefined"
  end.

(** [AuthenticatedLocClient.validTokenOrThrow] *)
Definition validTokenOrThrow (itemToken : ItemTokenWithRestrictedType) : result unit :=
  let* result := validateToken itemToken in
  if negb (valid result) then
    if truthyOptString (error result)
    then Throw (Error "Given token definition is invalid")
    else Throw (Error ("Given token definition is invalid: " +:+ interpolate (error result)))
  else if (issuance itemToken <? 1)%Z
  then Throw (Error "Token must have an issuance >= 1")
  else Ok tt.

End WithLibraries.

End Token.

(** ** Hash.ts *)

Module Hash.
Import Js.

(** A hash, written as its hexadecimal string ([Hash.toHex]). *)
Definition Hash : Type := string.

(** Modelled from the spec: the class [HashString] of [Hash.ts], whose
    source is not available.  It pairs a chain-side hash with the readable
    value the backend holds for it, when there is one. *)
Record HashString : Type := {
  hash : Hash;
  value : option string;
}.

(** Modelled from the spec: the class [HashOrContent] of [Hash.ts], whose
    source is not available.  "Every file-like payload carries a content hash
    and size that are either supplied directly or computed lazily from raw
    content on first use (finalize); once computed, the hash/size pair is
    immutable for that object's lifetime." *)
Record HashOrContent : Type := {
  _hash : option Hash;
  _content : option string;
  _size : option Z;
  finalized : bool;
}.

Section WithDigest.
(** The digest of a content, [Hash.of]. *)
Variable hashOf : string -> Hash.

(** Modelled from the spec: a payload whose hash is "supplied directly". *)
Definition fromHash (h : Hash) : HashOrContent :=
  {| _hash := Some h; _content := None; _size := None; finalized := true |}.

(** Modelled from the spec: a payload given by its raw content. *)
Definition fromContent (content : string) : HashOrContent :=
  {| _hash := None; _content := Some content; _size := None; finalized := false |}.

(** Modelled from the spec: the [hasContent] getter of [HashOrContent]. *)
Definition hasContent (h : HashOrContent) : bool :=
  match _content h with Some _ => true | None => false end.

(** Modelled from the spec: [HashOrContent.finalize] of [Hash.ts]; hash and
    size are "computed lazily from raw content on first use", and only
    then. *)
Definition finalize (h : HashOrContent) : HashOrContent :=
  if finalized h then h
  else match _content h with
       | Some content =>
           {| _hash := Some (hashOf content);
              _content := Some content;
              _size := Some (Z.of_nat (String.length content));
              finalized := true |}
       | None => h
       end.

(** Modelled from the spec: the [contentHash] getter of [HashOrContent]. *)
Definition contentHash (h : HashOrContent) : result Hash :=
  match _hash h with
  | Some hash => if finalized h then Ok hash else Throw (Error "Call finalize() first")
  | None => Throw (Error "Call finalize() first")
  end.

(** Modelled from the spec: the [size] getter of [HashOrContent]. *)
Definition size (h : HashOrContent) : result Z :=
  match _size h with
  | Some size => if finalized h then Ok size else Throw (Error "Call finalize() first")
  | None => Throw (Error "Call finalize() first")
  end.

End WithDigest.

End Hash.

(** ** LocClient.ts: file payloads *)

Module ItemFileWithContent.
Import Js.

Record t : Type := {
  _name : string;
  _contentType : string;           (* [MimeType.mimeType] *)
  _size : option Z;
  _hashOrContent : Hash.HashOrContent;
}.

Section WithDigest.
Variable hashOf : string -> Hash.Hash.

(** [new ItemFileWithContent({ name, contentType, size, hashOrContent })] *)
Definition new (name contentType : string) (size : option Z)
           (hashOrContent : Hash.HashOrContent) : result t :=
  if negb (truthyOptBigint size) && negb (Hash.hasContent hashOrContent)
  then Throw (Error "File size must be provided if no content is")
  else Ok {| _name := name; _contentType := contentType; _size := size;
             _hashOrContent := hashOrContent |}.

Definition sizeMismatch (given contentSize : Z) : JsError :=
  Error ("Given size does not match content: got " +:+ pretty given
           +:+ ", should be " +:+ pretty contentSize).

(** [finalize()] mutates the object: the outcome comes with the object as
    it is left, also when the call throws. *)
Definition finalize (this : t) : result unit * t :=
  let this1 := {| _name := _name this; _contentType := _contentType this;
                  _size := _size this;
                  _hashOrContent := Hash.finalize hashOf (_hashOrContent this) |} in
  if Hash.hasContent (_hashOrContent this1) then
    match Hash.size (_hashOrContent this1) with
    | Throw e => (Throw e, this1)
    | Ok contentSize =>
        if negb (truthyOptBigint (_size this1)) then
          (Ok tt, {| _name := _name this1; _contentType := _contentType this1;
                     _size := Some contentSize;
                     _hashOrContent := _hashOrContent this1 |})
        else
          match _size this1 with
          | Some given =>
              if negb (given =? contentSize)%Z
              then (Throw (sizeMismatch given contentSize), this1)
              else (Ok tt, this1)
          | None => (Ok tt, this1)
          end
    end
  else (Ok tt, this1).

Definition name (this : t) : string := _name this.
Definition contentType (this : t) : string := _contentType this.
Definition hashOrContent (this : t) : Hash.HashOrContent := _hashOrContent this.

(** The [size] getter. *)
Definition size (this : t) : result Z :=
  match _size this with
  | Some s => if truthyBigint s then Ok s else Throw (Error "Call finalize() first")
  | None => Throw (Error "Call finalize() first")
  end.

End WithDigest.

End ItemFileWithContent.

(** ** The ledger side: records of [@logion/node-api] *)

Module NodeApi.
Import Hash.

Module ItemFile.
Record t : Type := { name : Hash; contentType : Hash; size : Z; hash : Hash }.
End ItemFile.

Module ItemToken.
Record t : Type := { type : Hash; id : Hash; issuance : Z }.
End ItemToken.

Module TermsAndConditionsElement.
Record t : Type := { tcType : Hash; tcLocId : string; details : Hash }.
End TermsAndConditionsElement.

Module CollectionItem.
Record t : Type := {
  id : Hash;
  description : Hash;
  files : list ItemFile.t;
  token : option ItemToken.t;
  restrictedDelivery : bool;
  termsAndConditions : list TermsAndConditionsElement.t;
}.
End CollectionItem.

(** The [size] of a record file is a decimal string on this side; it is
    kept as the number it writes. *)
Module TypesTokensRecordFile.
Record t : Type := { name : Hash; contentType : Hash; size : Z; hash : Hash }.
End TypesTokensRecordFile.

Module TypesTokensRecord.
Record t : Type := {
  description : Hash;
  files : list TypesTokensRecordFile.t;
  submitter : string;
}.
End TypesTokensRecord.

Module ValidAccountId.
Record t : Type := { address : string; type : string }.
End ValidAccountId.

Module VerifiedIssuerType.
Record t : Type := { address : string; identityLocId : string }.
End VerifiedIssuerType.

(** What a [LocBatch] answers: issuers by legal officer address, and the
    issuers selected for each LOC, by the decimal form of the LOC id. *)
Module LocBatch.
Record t : Type := {
  getAvailableVerifiedIssuers : gmap string (list VerifiedIssuerType.t);
  getLocsVerifiedIssuers : gmap string (list VerifiedIssuerType.t);
}.
End LocBatch.

(** The extrinsics the client builds. *)
Inductive Submittable : Type :=
| addCollectionItem (locId : string) (itemId : Hash) (description : Hash)
    (files : list ItemFile.t) (token : option ItemToken.t)
    (restrictedDelivery : bool)
    (termsAndConditions : list TermsAndConditionsElement.t)
| addTokensRecord (locId : string) (recordId : Hash) (description : Hash)
    (files : list TypesTokensRecordFile.t).

End NodeApi.

(** ** The backend side and the merged views: interfaces of [LocClient.ts] *)

Module Types.
Import Hash.

Module OffchainTermsAndConditionsElement.
Record t : Type := { type : string; details : string }.
End OffchainTermsAndConditionsElement.

Module MergedTermsAndConditionsElement.
Record t : Type := { type : HashString; tcLocId : string; details : HashString }.
End MergedTermsAndConditionsElement.

(** An element as [addCollectionItem] receives it: [LogionClassification],
    [CreativeCommons] and [SpecificLicense] seen through their common
    interface. *)
Module TermsAndConditionsElement.
Record t : Type := { type : string; tcLocId : string; details : string }.
End TermsAndConditionsElement.

Module OffchainCollectionItemFile.
Record t : Type := {
  hash : string;
  name : option string;
  contentType : option string;
  uploaded : option bool;
}.
End OffchainCollectionItemFile.

Module OffchainCollectionItemToken.
Record t : Type := { type : option string; id : option string }.
End OffchainCollectionItemToken.

Module OffchainCollectionItem.
Record t : Type := {
  collectionLocId : string;
  itemId : string;
  addedOn : string;
  description : option string;
  files : list OffchainCollectionItemFile.t;
  termsAndConditions : list OffchainTermsAndConditionsElement.t;
  token : option OffchainCollectionItemToken.t;
}.
End OffchainCollectionItem.

Module CreateOffchainCollectionItem.
Record t : Type := {
  itemId : string;
  description : string;
  files : list OffchainCollectionItemFile.t;
  termsAndConditions : list OffchainTermsAndConditionsElement.t;
  token : option OffchainCollectionItemToken.t;
}.
End CreateOffchainCollectionItem.

Module OffchainTokensRecordFile.
Record t : Type := {
  hash : string;
  name : option string;
  contentType : option string;
  uploaded : option bool;
}.
End OffchainTokensRecordFile.

Module OffchainTokensRecord.
Record t : Type := {
  collectionLocId : string;
  recordId : string;
  description : string;
  addedOn : string;
  files : list OffchainTokensRecordFile.t;
}.
End OffchainTokensRecord.

Module CreateOffchainTokensRecord.
Record t : Type := {
  recordId : string;
  description : string;
  files : list OffchainTokensRecordFile.t;
}.
End CreateOffchainTokensRecord.

Module UploadableItemFile.
Record t : Type := {
  name : HashString;
  contentType : HashString;
  size : Z;
  hash : Hash;
  uploaded : bool;
}.
End UploadableItemFile.

Module ClientToken.
Record t : Type := { type : HashString; id : HashString; issuance : Z }.
End ClientToken.

Module UploadableCollectionItem.
Record t : Type := {
  id : Hash;
  description : HashString;
  addedOn : string;
  files : list UploadableItemFile.t;
  token : option ClientToken.t;
  restrictedDelivery : bool;
  termsAndConditions : list MergedTermsAndConditionsElement.t;
}.
End UploadableCollectionItem.

Module ClientTokensRecord.
Record t : Type := {
  id : Hash;
  description : HashString;
  addedOn : string;
  files : list UploadableItemFile.t;
  issuer : string;
}.
End ClientTokensRecord.

Inductive LocType : Type := Transaction | Collection | Identity.

Inductive LocRequestStatus : Type :=
| DRAFT | REVIEW_PENDING | REVIEW_REJECTED | REVIEW_ACCEPTED | OPEN | CLOSED.

Module SupportedAccountId.
Record t : Type := { type : string; address : string }.
End SupportedAccountId.

Module UserIdentity.
Record t : Type := {
  firstName : string;
  lastName : string;
  email : string;
  phoneNumber : string;
}.
End UserIdentity.

Module VerifiedIssuerIdentity.
Record t : Type := {
  address : string;
  identity : UserIdentity.t;
  identityLocId : string;
  selected : option bool;
}.
End VerifiedIssuerIdentity.

Module VerifiedIssuer.
Record t : Type := {
  firstName : string;
  lastName : string;
  identityLocId : string;
  address : string;
  selected : option bool;
}.
End VerifiedIssuer.

Module LocVerifiedIssuers.
Record t : Type := {
  verifiedIssuer : bool;
  issuers : list VerifiedIssuer.t;
}.
End LocVerifiedIssuers.

(** The fields of a [LocRequest] that the issuer query reads. *)
Module LocRequest.
Record t : Type := {
  ownerAddress : string;
  requesterAddress : option SupportedAccountId.t;
  locType : LocType;
  id : string;
  status : LocRequestStatus;
  selectedIssuers : list VerifiedIssuerIdentity.t;
}.
End LocRequest.

Definition EMPTY_LOC_ISSUERS : LocVerifiedIssuers.t :=
  {| LocVerifiedIssuers.verifiedIssuer := false;
     LocVerifiedIssuers.issuers := [] |}.

End Types.

(** ** The two sources: ledger storage and legal officer backend

    Both are external collaborators.  The ledger holds what accepted
    extrinsics wrote; the backend holds what its REST interface was asked to
    create and not asked to delete.  [rejects] scripts which calls they
    refuse, and with what error; [calls] records the writes issued so far,
    oldest first. *)

Module World.
Import Js Hash NodeApi Types.

Inductive Call : Type :=
| GetCollectionItem (locId itemId : string)
| GetCollectionItems (locId : string)
| GetTokensRecord (locId recordId : string)
| PostCollectionItem (locId : string) (item : CreateOffchainCollectionItem.t)
| DeleteCollectionItem (locId itemId : string)
| PostCollectionItemFile (locId itemId hash fileName : string)
| PostTokensRecord (locId : string) (record : CreateOffchainTokensRecord.t)
| DeleteTokensRecord (locId recordId : string)
| PostTokensRecordFile (locId recordId hash fileName : string)
| SignAndSend (signerId : string) (submittable : Submittable).

Record t : Type := {
  collectionItems : list (string * CollectionItem.t);
  tokensRecords : list (string * (Hash * TypesTokensRecord.t));
  offchainItems : list OffchainCollectionItem.t;
  offchainRecords : list OffchainTokensRecord.t;
  clock : string;
  rejects : Call -> option JsError;
  calls : list Call;
}.

Definition isItem (locId itemId : string) (item : OffchainCollectionItem.t) : bool :=
  String.eqb (OffchainCollectionItem.collectionLocId item) locId
  && String.eqb (OffchainCollectionItem.itemId item) itemId.

Definition isRecord (locId recordId : string) (record : OffchainTokensRecord.t) : bool :=
  String.eqb (OffchainTokensRecord.collectionLocId record) locId
  && String.eqb (OffchainTokensRecord.recordId record) recordId.

(** *** Ledger queries *)

Definition queries_getCollectionItem (w : t) (locId : string) (itemId : Hash)
  : option CollectionItem.t :=
  snd <$> List.find (fun e => String.eqb (fst e) locId
                              && String.eqb (CollectionItem.id (snd e)) itemId)
                    (collectionItems w).

Definition queries_getCollectionItems (w : t) (locId : string)
  : list CollectionItem.t :=
  snd <$> List.filter (fun e => String.eqb (fst e) locId) (collectionItems w).


(** *** Backend reads: a refused call rejects with the scripted error, a
    missing record with a 404 *)

Definition get_collection_item (w : t) (locId itemId : string)
  : result OffchainCollectionItem.t :=
  match rejects w (GetCollectionItem locId itemId) with
  | Some e => Throw e
  | None =>
      match List.find (isItem locId itemId) (offchainItems w) with
      | Some item => Ok item
      | None => Throw (HttpError 404)
      end
  end.

Definition get_collection_items (w : t) (locId : string)
  : result (list OffchainCollectionItem.t) :=
  match rejects w (GetCollectionItems locId) with
  | Some e => Throw e
  | None =>
      Ok (List.filter
            (fun item => String.eqb (OffchainCollectionItem.collectionLocId item) locId)
            (offchainItems w))
  end.


(** *** Writes *)

Definition markItemFileUploaded (hash : string) (f : OffchainCollectionItemFile.t)
  : OffchainCollectionItemFile.t :=
  if String.eqb (OffchainCollectionItemFile.hash f) hash
  then {| OffchainCollectionItemFile.hash := OffchainCollectionItemFile.hash f;
          OffchainCollectionItemFile.name := OffchainCollectionItemFile.name f;
          OffchainCollectionItemFile.contentType := OffchainCollectionItemFile.contentType f;
          OffchainCollectionItemFile.uploaded := Some true |}
  else f.

Definition markRecordFileUploaded (hash : string) (f : OffchainTokensRecordFile.t)
  : OffchainTokensRecordFile.t :=
  if String.eqb (OffchainTokensRecordFile.hash f) hash
  then {| OffchainTokensRecordFile.hash := OffchainTokensRecordFile.hash f;
          OffchainTokensRecordFile.name := OffchainTokensRecordFile.name f;
          OffchainTokensRecordFile.contentType := OffchainTokensRecordFile.contentType f;
          OffchainTokensRecordFile.uploaded := Some true |}
  else f.

Definition withStores (w : t)
           (items : list (string * CollectionItem.t))
           (records : list (string * (Hash * TypesTokensRecord.t)))
           (offItems : list OffchainCollectionItem.t)
           (offRecords : list OffchainTokensRecord.t) : t :=
  {| collectionItems := items; tokensRecords := records;
     offchainItems := offItems; offchainRecords := offRecords;
     clock := clock w; rejects := rejects w; calls := calls w |}.

(** What an accepted call leaves behind. *)
Definition effect (c : Call) (w : t) : t :=
  match c with
  | PostCollectionItem locId item =>
      withStores w (collectionItems w) (tokensRecords w)
        (offchainItems w ++
           [ {| OffchainCollectionItem.collectionLocId := locId;
                OffchainCollectionItem.itemId := CreateOffchainCollectionItem.itemId item;
                OffchainCollectionItem.addedOn := clock w;
                OffchainCollectionItem.description :=
                  Some (CreateOffchainCollectionItem.description item);
                OffchainCollectionItem.files := CreateOffchainCollectionItem.files item;
                OffchainCollectionItem.termsAndConditions :=
                  CreateOffchainCollectionItem.termsAndConditions item;
                OffchainCollectionItem.token := CreateOffchainCollectionItem.token item |} ])
        (offchainRecords w)
  | DeleteCollectionItem locId itemId =>
      withStores w (collectionItems w) (tokensRecords w)
        (List.filter (fun item => negb (isItem locId itemId item)) (offchainItems w))
        (offchainRecords w)
  | PostCollectionItemFile locId itemId hash _ =>
      withStores w (collectionItems w) (tokensRecords w)
        ((fun item =>
            if isItem locId itemId item
            then {| OffchainCollectionItem.collectionLocId :=
                      OffchainCollectionItem.collectionLocId item;
                    OffchainCollectionItem.itemId := OffchainCollectionItem.itemId item;
                    OffchainCollectionItem.addedOn := OffchainCollectionItem.addedOn item;
                    OffchainCollectionItem.description :=
                      OffchainCollectionItem.description item;
                    OffchainCollectionItem.files :=
                      markItemFileUploaded hash <$> OffchainCollectionItem.files item;
                    OffchainCollectionItem.termsAndConditions :=
                      OffchainCollectionItem.termsAndConditions item;
                    OffchainCollectionItem.token := OffchainCollectionItem.token item |}
            else item) <$> offchainItems w)
        (offchainRecords w)
  | PostTokensRecord locId record =>
      withStores w (collectionItems w) (tokensRecords w) (offchainItems w)
        (offchainRecords w ++
           [ {| OffchainTokensRecord.collectionLocId := locId;
                OffchainTokensRecord.recordId := CreateOffchainTokensRecord.recordId record;
                OffchainTokensRecord.description :=
                  CreateOffchainTokensRecord.description record;
                OffchainTokensRecord.addedOn := clock w;
                OffchainTokensRecord.files := CreateOffchainTokensRecord.files record |} ])
  | DeleteTokensRecord locId recordId =>
      withStores w (collectionItems w) (tokensRecords w) (offchainItems w)
        (List.filter (fun record => negb (isRecord locId recordId record))
                     (offchainRecords w))
  | PostTokensRecordFile locId recordId hash _ =>
      withStores w (collectionItems w) (tokensRecords w) (offchainItems w)
        ((fun record =>
            if isRecord locId recordId record
            then {| OffchainTokensRecord.collectionLocId :=
                      OffchainTokensRecord.collectionLocId record;
                    OffchainTokensRecord.recordId := OffchainTokensRecord.recordId record;
                    OffchainTokensRecord.description :=
                      OffchainTokensRecord.description record;
                    OffchainTokensRecord.addedOn := OffchainTokensRecord.addedOn record;
                    OffchainTokensRecord.files :=
                      markRecordFileUploaded hash <$> OffchainTokensRecord.files record |}
            else record) <$> offchainRecords w)
  | SignAndSend _ (addCollectionItem locId itemId description files token
                                     restrictedDelivery termsAndConditions) =>
      withStores w
        (collectionItems w ++
           [ (locId,
              {| CollectionItem.id := itemId;
                 CollectionItem.description := description;
                 CollectionItem.files := files;
                 CollectionItem.token := token;
                 CollectionItem.restrictedDelivery := restrictedDelivery;
                 CollectionItem.termsAndConditions := termsAndConditions |}) ])
        (tokensRecords w) (offchainItems w) (offchainRecords w)
  | SignAndSend signerId (addTokensRecord locId recordId description files) =>
      withStores w (collectionItems w)
        (tokensRecords w ++
           [ (locId, (recordId,
              {| TypesTokensRecord.description := description;
                 TypesTokensRecord.files := files;
                 TypesTokensRecord.submitter := signerId |})) ])
        (offchainItems w) (offchainRecords w)
  | GetCollectionItem _ _ | GetCollectionItems _ | GetTokensRecord _ _ => w
  end.

Definition logged (c : Call) (w : t) : t :=
  {| collectionItems := collectionItems w; tokensRecords := tokensRecords w;
     offchainItems := offchainItems w; offchainRecords := offchainRecords w;
     clock := clock w; rejects := rejects w; calls := calls w ++ [c] |}.

(** Computations that issue calls: a result and the world they leave. *)
Definition M (A : Type) : Type := t -> result A * t.

Definition ret {A} (a : A) : M A := fun w => (Ok a, w).
Definition throw {A} (e : JsError) : M A := fun w => (Throw e, w).
Definition lift {A} (r : result A) : M A := fun w => (r, w).

Definition mbind {A B} (m : M A) (k : A -> M B) : M B := fun w =>
  match m w with
  | (Ok a, w') => k a w'
  | (Throw e, w') => (Throw e, w')
  end.

(** [try { m } catch(e) { handler(e) }] *)
Definition tryCatch {A} (m : M A) (handler : JsError -> M A) : M A := fun w =>
  match m w with
  | (Ok a, w') => (Ok a, w')
  | (Throw e, w') => handler e w'
  end.

(** The call is issued, then answered. *)
Definition perform (c : Call) : M unit := fun w =>
  match rejects w c with
  | Some e => (Throw e, logged c w)
  | None => (Ok tt, effect c (logged c w))
  end.

End World.

Notation "'do*' x '<-' m ';' k" := (World.mbind m (fun x => k))
  (at level 10, x name, m at level 100, k at level 200).

(** ** Plain objects used as maps

    [const map: Record<string, T> = {}] is a plain object: besides the
    entries stored in it, reading [map[key]] finds what the object
    inherits, and storing under the key [__proto__] replaces the object it
    inherits from instead of adding an entry. *)

Module PlainObject.

(** The names of the members of [Object.prototype]. *)
Definition prototypeMembers : list string :=
  [ "constructor"; "__defineGetter__"; "__defineSetter__"; "hasOwnProperty";
    "__lookupGetter__"; "__lookupSetter__"; "isPrototypeOf"; "propertyIsEnumerable";
    "toString"; "valueOf"; "__proto__"; "toLocaleString" ].

(** What [map[key]] evaluates to: an entry that was stored, a value of
    another kind found along the prototype chain (a function of
    [Object.prototype], [Object.prototype] itself, or the value of a
    property of the entry stored under [__proto__]), or [undefined]. *)
Inductive Read (T : Type) : Type :=
| Entry (entry : T)
| Foreign
| Undefined.
Arguments Entry {T} _.
Arguments Foreign {T}.
Arguments Undefined {T}.

(** The own properties of the object, and the entry that took the place of
    its prototype, if one did. *)
Record t (T : Type) : Type := {
  own : gmap string T;
  proto : option T;
}.
Arguments own {T} _.
Arguments proto {T} _.

(** [{}] *)
Definition empty {T} : t T := {| own := ∅; proto := None |}.

(** [map[key] = entry] *)
Definition assign {T} (map : t T) (key : string) (entry : T) : t T :=
  if String.eqb key "__proto__"
  then {| own := own map; proto := Some entry |}
  else {| own := <[key := entry]> (own map); proto := proto map |}.

Definition isMember (key : string) (names : list string) : bool :=
  existsb (String.eqb key) names.

(** [map[key]], given the names of the properties of an entry that hold a
    value. *)
Definition read {T} (properties : T -> list string) (map : t T) (key : string) : Read T :=
  if String.eqb key "__proto__" then
    match proto map with
    | Some entry => Entry entry
    | None => Foreign
    end
  else
    match own map !! key with
    | Some entry => Entry entry
    | None =>
        if match proto map with
           | Some entry => isMember key (properties entry)
           | None => false
           end
           || isMember key prototypeMembers
        then Foreign
        else Undefined
    end.

End PlainObject.

(** ** LocClient.ts: queries *)

Module LocClient.
Import Js Hash NodeApi Types.

Section WithLicenses.
(** [newTermsAndConditions] of the license module. *)
Variable newTermsAndConditions :
  list NodeApi.TermsAndConditionsElement.t ->
  list OffchainTermsAndConditionsElement.t ->
  list MergedTermsAndConditionsElement.t.

(** A [Record<string, T>] filled by a loop of assignments, starting from
    [{}]. *)
Definition toRecord {T} (key : T -> string) (l : list T) : PlainObject.t T :=
  foldl (fun map x => PlainObject.assign map (key x) x) PlainObject.empty l.

(** The properties of an on-chain item and of a backend item that hold a
    value. *)
Definition onchainProperties (item : CollectionItem.t) : list string :=
  [ "id"; "description"; "files"; "restrictedDelivery"; "termsAndConditions" ]
    ++ match CollectionItem.token item with Some _ => [ "token" ] | None => [] end.

Definition offchainProperties (item : OffchainCollectionItem.t) : list string :=
  [ "collectionLocId"; "itemId"; "addedOn"; "files"; "termsAndConditions" ]
    ++ match OffchainCollectionItem.description item with
       | Some _ => [ "description" ]
       | None => []
       end
    ++ match OffchainCollectionItem.token item with Some _ => [ "token" ] | None => [] end.

Definition READING_ID : string := "Cannot read properties of undefined (reading 'id')".
Definition READING_MAP : string := "Cannot read properties of undefined (reading 'map')".

Definition findItemFile (offchainItem : OffchainCollectionItem.t) (hash : Hash)
  : option OffchainCollectionItemFile.t :=
  List.find (fun offchainFile => String.eqb (OffchainCollectionItemFile.hash offchainFile) hash)
            (OffchainCollectionItem.files offchainItem).

Definition mergeItemFile (offchainItem : OffchainCollectionItem.t) (file : ItemFile.t)
  : UploadableItemFile.t :=
  {| UploadableItemFile.hash := ItemFile.hash file;
     UploadableItemFile.size := ItemFile.size file;
     UploadableItemFile.name :=
       {| hash := ItemFile.name file;
          value := findItemFile offchainItem (ItemFile.hash file)
                     ≫= OffchainCollectionItemFile.name |};
     UploadableItemFile.contentType :=
       {| hash := ItemFile.contentType file;
          value := findItemFile offchainItem (ItemFile.hash file)
                     ≫= OffchainCollectionItemFile.contentType |};
     UploadableItemFile.uploaded :=
       default false (findItemFile offchainItem (ItemFile.hash file)
                        ≫= OffchainCollectionItemFile.uploaded) |}.

(** [mergeItems(onchainItem, offchainItem)].  The on-chain item is what
    was read from a map: when it is [undefined], reading its [id] throws;
    when it is a value of another kind, its [id], [description] and [files]
    are [undefined] and calling [files.map] throws. *)
Definition mergeItems (onchainItem : PlainObject.Read CollectionItem.t)
           (offchainItem : OffchainCollectionItem.t)
  : result UploadableCollectionItem.t :=
  match onchainItem with
  | PlainObject.Undefined => Throw (TypeError READING_ID)
  | PlainObject.Foreign => Throw (TypeError READING_MAP)
  | PlainObject.Entry onchainItem =>
      Ok {| UploadableCollectionItem.id := CollectionItem.id onchainItem;
            UploadableCollectionItem.description :=
              {| hash := CollectionItem.description onchainItem;
                 value := OffchainCollectionItem.description offchainItem |};
            UploadableCollectionItem.addedOn := OffchainCollectionItem.addedOn offchainItem;
            UploadableCollectionItem.files :=
              mergeItemFile offchainItem <$> CollectionItem.files onchainItem;
            UploadableCollectionItem.token :=
              (fun token =>
                 {| ClientToken.type :=
                      {| hash := ItemToken.type token;
                         value := OffchainCollectionItem.token offchainItem
                                    ≫= OffchainCollectionItemToken.type |};
                    ClientToken.id :=
                      {| hash := ItemToken.id token;
                         value := OffchainCollectionItem.token offchainItem
                                    ≫= OffchainCollectionItemToken.id |};
                    ClientToken.issuance := ItemToken.issuance token |})
                <$> CollectionItem.token onchainItem;
            UploadableCollectionItem.restrictedDelivery :=
              CollectionItem.restrictedDelivery onchainItem;
            UploadableCollectionItem.termsAndConditions :=
              newTermsAndConditions (CollectionItem.termsAndConditions onchainItem)
                                    (OffchainCollectionItem.termsAndConditions offchainItem) |}
  end.

Definition getOffchainItem (w : World.t) (locId : string) (itemId : Hash)
  : result OffchainCollectionItem.t :=
  World.get_collection_item w locId itemId.

Definition getCollectionItem (w : World.t) (locId : string) (itemId : Hash)
  : result (option UploadableCollectionItem.t) :=
  match World.queries_getCollectionItem w locId itemId with
  | None => Ok None
  | Some onchainItem =>
      orBackendError
        (let* offchainItem := getOffchainItem w locId itemId in
         let* merged := mergeItems (PlainObject.Entry onchainItem) offchainItem in
         Ok (Some merged))
  end.

Definition getOffchainItems (w : World.t) (locId : string)
  : result (list OffchainCollectionItem.t) :=
  World.get_collection_items w locId.

Definition getCollectionItems (w : World.t) (locId : string)
  : result (list UploadableCollectionItem.t) :=
  let onchainItems := World.queries_getCollectionItems w locId in
  let onchainItemsMap := toRecord CollectionItem.id onchainItems in
  orBackendError
    (let* offchainItems := getOffchainItems w locId in
     let offchainItemsMap := toRecord OffchainCollectionItem.itemId offchainItems in
     mapM (fun item =>
             match PlainObject.read offchainProperties offchainItemsMap
                                    (OffchainCollectionItem.itemId item) with
             | PlainObject.Entry offchainItem =>
                 mergeItems (PlainObject.read onchainProperties onchainItemsMap
                                              (OffchainCollectionItem.itemId item))
                            offchainItem
             | _ =>
                 (* does not arise: the loop above has stored an entry under
                    the id of every item of [offchainItems] *)
                 Throw (TypeError "Cannot read properties of undefined (reading 'description')")
             end)
          offchainItems).









End WithLicenses.

End LocClient.

(** ** LocClient.ts: the authenticated client *)

Module AuthenticatedLocClient.
Import Js Hash NodeApi Types.

Module AddCollectionItemParams.
Record t : Type := {
  locId : string;
  itemId : Hash;
  itemDescription : string;
  itemFiles : option (list ItemFileWithContent.t);
  itemToken : option Token.ItemTokenWithRestrictedType;
  restrictedDelivery : option bool;
  logionClassification : option TermsAndConditionsElement.t;
  specificLicenses : option (list TermsAndConditionsElement.t);
  creativeCommons : option TermsAndConditionsElement.t;
}.
End AddCollectionItemParams.

Module AddTokensRecordParams.
Record t : Type := {
  locId : string;
  recordId : Hash;
  description : string;
  files : list ItemFileWithContent.t;
}.
End AddTokensRecordParams.

Section WithClient.
(** [Hash.of] *)
Variable hashOf : string -> Hash.
(** [new UUID(id).toDecimalString()] *)
Variable toDecimalString : string -> string.
(** The libraries token validation relies on. *)
Variable JSON_parse : string -> option Token.Json.
Variable isHex : string -> Z -> bool.
Variable isValidBech32Address : string -> string -> bool.
Variable createType_AccountId : string -> bool.
(** [this.currentAddress] *)
Variable currentAddress : option ValidAccountId.t.

Definition validTokenOrThrow :=
  Token.validTokenOrThrow JSON_parse isHex isValidBech32Address createType_AccountId.

(** *** getLocIssuers *)

Definition isOpenOrClosed (status : LocRequestStatus) : bool :=
  match status with
  | OPEN | CLOSED => true
  | _ => false
  end.

(** The test that opens the issuers' identities to the caller. *)
Definition maySeeIdentities (current : ValidAccountId.t) (request : LocRequest.t)
           (chainSelectedIssuers : gset string) : bool :=
  match LocRequest.requesterAddress request with
  | Some requester =>
      String.eqb (ValidAccountId.address current) (SupportedAccountId.address requester)
      && String.eqb (ValidAccountId.type current) (SupportedAccountId.type requester)
  | None => false
  end
  || (String.eqb (ValidAccountId.address current) (LocRequest.ownerAddress request)
      && String.eqb (ValidAccountId.type current) "Polkadot")
  || bool_decide (ValidAccountId.address current ∈ chainSelectedIssuers).

(** The three ways a caller is entitled to the identities, in words. *)
Definition isRequester (current : ValidAccountId.t) (request : LocRequest.t) : Prop :=
  exists requester,
    LocRequest.requesterAddress request = Some requester
    /\ ValidAccountId.address current = SupportedAccountId.address requester
    /\ ValidAccountId.type current = SupportedAccountId.type requester.

Definition isOwner (current : ValidAccountId.t) (request : LocRequest.t) : Prop :=
  ValidAccountId.address current = LocRequest.ownerAddress request
  /\ ValidAccountId.type current = "Polkadot".

Definition isSelectedIssuer (current : ValidAccountId.t)
           (nodeIssuers : list VerifiedIssuerType.t) : Prop :=
  In (ValidAccountId.address current) (VerifiedIssuerType.address <$> nodeIssuers).

(** Two requests that differ at most in the issuers the backend lists. *)
Definition sameButIssuers (request request' : LocRequest.t) : Prop :=
  LocRequest.ownerAddress request = LocRequest.ownerAddress request'
  /\ LocRequest.requesterAddress request = LocRequest.requesterAddress request'
  /\ LocRequest.locType request = LocRequest.locType request'
  /\ LocRequest.id request = LocRequest.id request'
  /\ LocRequest.status request = LocRequest.status request'.

Definition orEmpty (s : string) : string := if truthyString s then s else "".

Definition backendIssuer (chainSelectedIssuers : gset string)
           (maybeSelectedIssuer : VerifiedIssuerIdentity.t) : VerifiedIssuer.t :=
  {| VerifiedIssuer.identityLocId := VerifiedIssuerIdentity.identityLocId maybeSelectedIssuer;
     VerifiedIssuer.address := VerifiedIssuerIdentity.address maybeSelectedIssuer;
     VerifiedIssuer.firstName :=
       orEmpty (UserIdentity.firstName (VerifiedIssuerIdentity.identity maybeSelectedIssuer));
     VerifiedIssuer.lastName :=
       orEmpty (UserIdentity.lastName (VerifiedIssuerIdentity.identity maybeSelectedIssuer));
     VerifiedIssuer.selected :=
       Some (bool_decide (VerifiedIssuerIdentity.address maybeSelectedIssuer
                            ∈ chainSelectedIssuers)) |}.

Definition nodeIssuer (selected : option bool) (nodeIssuer : VerifiedIssuerType.t)
  : VerifiedIssuer.t :=
  {| VerifiedIssuer.identityLocId := VerifiedIssuerType.identityLocId nodeIssuer;
     VerifiedIssuer.address := VerifiedIssuerType.address nodeIssuer;
     VerifiedIssuer.firstName := "";
     VerifiedIssuer.lastName := "";
     VerifiedIssuer.selected := selected |}.

(** [record[key]] followed by a method call, which throws on [undefined]. *)
Definition defined {T} (entry : option T) (method : string) : result T :=
  match entry with
  | Some v => Ok v
  | None => Throw (TypeError ("Cannot read properties of undefined (reading '"
                                +:+ method +:+ "')"))
  end.

Definition getLocIssuers (request : LocRequest.t) (locBatch : LocBatch.t)
  : result LocVerifiedIssuers.t :=
  match currentAddress with
  | None => Ok EMPTY_LOC_ISSUERS
  | Some current =>
      if negb (isOpenOrClosed (LocRequest.status request)) then Ok EMPTY_LOC_ISSUERS
      else
        let locId := toDecimalString (LocRequest.id request) in
        let* verifiedIssuer :=
          match LocRequest.locType request, LocRequest.status request with
          | Identity, CLOSED =>
              let* available :=
                defined (LocBatch.getAvailableVerifiedIssuers locBatch
                           !! LocRequest.ownerAddress request) "find" in
              Ok (bool_decide
                    (is_Some
                       (List.find
                          (fun issuer =>
                             match LocRequest.requesterAddress request with
                             | Some requester =>
                                 String.eqb (VerifiedIssuerType.address issuer)
                                            (SupportedAccountId.address requester)
                                 && String.eqb (SupportedAccountId.type requester) "Polkadot"
                             | None => false
                             end)
                          available)))
          | _, _ => Ok false
          end in
        let* nodeIssuers :=
          defined (LocBatch.getLocsVerifiedIssuers locBatch !! locId) "forEach" in
        let chainSelectedIssuers : gset string :=
          list_to_set (VerifiedIssuerType.address <$> nodeIssuers) in
        let issuers :=
          if maySeeIdentities current request chainSelectedIssuers then
            let backendIssuers := LocRequest.selectedIssuers request in
            let addedIssuers : gset string :=
              list_to_set (VerifiedIssuerIdentity.address <$> backendIssuers) in
            (backendIssuer chainSelectedIssuers <$> backendIssuers)
            ++ (nodeIssuer (Some true) <$>
                  List.filter
                    (fun issuer =>
                       negb (bool_decide (VerifiedIssuerType.address issuer ∈ addedIssuers)))
                    nodeIssuers)
          else nodeIssuer None <$> nodeIssuers in
        Ok {| LocVerifiedIssuers.verifiedIssuer := verifiedIssuer;
              LocVerifiedIssuers.issuers := issuers |}
  end.

(** *** addCollectionItem *)

(** The first loop over the files: [await itemFile.finalize()] on each. *)
Fixpoint finalizeAll (files : list ItemFileWithContent.t)
  : result (list ItemFileWithContent.t) :=
  match files with
  | [] => Ok []
  | itemFile :: rest =>
      match ItemFileWithContent.finalize hashOf itemFile with
      | (Ok _, itemFile') =>
          let* rest' := finalizeAll rest in Ok (itemFile' :: rest')
      | (Throw e, _) => Throw e
      end
  end.

Definition chainItemFile (itemFile : ItemFileWithContent.t) : result ItemFile.t :=
  let* hash := Hash.contentHash (ItemFileWithContent.hashOrContent itemFile) in
  let* size := ItemFileWithContent.size itemFile in
  Ok {| ItemFile.name := hashOf (ItemFileWithContent.name itemFile);
        ItemFile.contentType := hashOf (ItemFileWithContent.contentType itemFile);
        ItemFile.hash := hash;
        ItemFile.size := size |}.

Definition offchainItemFile (file : ItemFileWithContent.t)
  : result OffchainCollectionItemFile.t :=
  let* hash := Hash.contentHash (ItemFileWithContent.hashOrContent file) in
  Ok {| OffchainCollectionItemFile.name := Some (ItemFileWithContent.name file);
        OffchainCollectionItemFile.contentType := Some (ItemFileWithContent.contentType file);
        OffchainCollectionItemFile.hash := hash;
        OffchainCollectionItemFile.uploaded := None |}.

Definition submitItemPublicData (locId : string) (item : CreateOffchainCollectionItem.t)
  : World.M unit :=
  World.tryCatch (World.perform (World.PostCollectionItem locId item))
                 (fun e => World.throw (BackendError e)).

Definition cancelItemPublicDataSubmission (locId : string) (itemId : Hash)
  : World.M unit :=
  World.tryCatch (World.perform (World.DeleteCollectionItem locId itemId))
                 (fun e => World.throw (BackendError e)).

Definition uploadItemFile (locId : string) (itemId : Hash) (file : ItemFileWithContent.t)
  : World.M unit :=
  let hashOrContent := Hash.finalize hashOf (ItemFileWithContent.hashOrContent file) in
  do* hash <- World.lift (Hash.contentHash hashOrContent);
  World.tryCatch
    (World.perform (World.PostCollectionItemFile locId itemId hash
                      (ItemFileWithContent.name file)))
    (fun e => World.throw (BackendError e)).

(** [for (const file of files) if (file.hashOrContent.hasContent) await upload(file)] *)
Fixpoint uploadAll (upload : ItemFileWithContent.t -> World.M unit)
         (files : list ItemFileWithContent.t) : World.M unit :=
  match files with
  | [] => World.ret tt
  | file :: rest =>
      if Hash.hasContent (ItemFileWithContent.hashOrContent file)
      then do* _ <- upload file; uploadAll upload rest
      else uploadAll upload rest
  end.

Definition signerId : result string :=
  match currentAddress with
  | Some current => Ok (ValidAccountId.address current)
  | None => Throw (TypeError "Cannot read properties of undefined (reading 'address')")
  end.

Definition chainTermsAndConditions (element : TermsAndConditionsElement.t)
  : NodeApi.TermsAndConditionsElement.t :=
  {| NodeApi.TermsAndConditionsElement.tcType :=
       hashOf (TermsAndConditionsElement.type element);
     NodeApi.TermsAndConditionsElement.tcLocId := TermsAndConditionsElement.tcLocId element;
     NodeApi.TermsAndConditionsElement.details :=
       hashOf (TermsAndConditionsElement.details element) |}.

Definition offchainTermsAndConditions (element : TermsAndConditionsElement.t)
  : OffchainTermsAndConditionsElement.t :=
  {| OffchainTermsAndConditionsElement.type := TermsAndConditionsElement.type element;
     OffchainTermsAndConditionsElement.details := TermsAndConditionsElement.details element |}.

Definition MUTUALLY_EXCLUSIVE : string :=
  "Logion Classification and Creative Commons are mutually exclusive.".

Definition RESTRICTED_DELIVERY : string :=
  "Restricted delivery requires a defined underlying token as well as at least one file".

Definition addCollectionItem (parameters : AddCollectionItemParams.t) : World.M unit :=
  let locId := AddCollectionItemParams.locId parameters in
  let itemId := AddCollectionItemParams.itemId parameters in
  let itemDescription := AddCollectionItemParams.itemDescription parameters in
  let itemToken := AddCollectionItemParams.itemToken parameters in
  let booleanRestrictedDelivery :=
    default false (AddCollectionItemParams.restrictedDelivery parameters) in
  do* itemFiles <- World.lift
    match AddCollectionItemParams.itemFiles parameters with
    | Some files => let* files' := finalizeAll files in Ok (Some files')
    | None => Ok None
    end;
  do* chainItemFiles <- World.lift
    match itemFiles with
    | Some files => mapM chainItemFile files
    | None => Ok []
    end;
  if booleanRestrictedDelivery
     && (Nat.eqb (length chainItemFiles) 0 || negb (bool_decide (is_Some itemToken)))
  then World.throw (Error RESTRICTED_DELIVERY)
  else
  do* _ <- World.lift
    match itemToken with
    | Some token => validTokenOrThrow token
    | None => Ok tt
    end;
  do* exclusiveTerms <- World.lift
    match AddCollectionItemParams.logionClassification parameters,
          AddCollectionItemParams.creativeCommons parameters with
    | Some _, Some _ => Throw (Error MUTUALLY_EXCLUSIVE)
    | Some logionClassification, None => Ok [logionClassification]
    | None, Some creativeCommons => Ok [creativeCommons]
    | None, None => Ok []
    end;
  let termsAndConditions :=
    exclusiveTerms ++ default [] (AddCollectionItemParams.specificLicenses parameters) in
  do* files <- World.lift
    match itemFiles with
    | Some files => mapM offchainItemFile files
    | None => Ok []
    end;
  do* _ <- submitItemPublicData locId
    {| CreateOffchainCollectionItem.itemId := itemId;
       CreateOffchainCollectionItem.files := files;
       CreateOffchainCollectionItem.termsAndConditions :=
         offchainTermsAndConditions <$> termsAndConditions;
       CreateOffchainCollectionItem.description := itemDescription;
       CreateOffchainCollectionItem.token :=
         (fun token =>
            {| OffchainCollectionItemToken.id := Some (Token.id token);
               OffchainCollectionItemToken.type := Some (Token.type token) |})
           <$> itemToken |};
  let submittable :=
    NodeApi.addCollectionItem locId itemId (hashOf itemDescription) chainItemFiles
      ((fun token =>
          {| ItemToken.id := hashOf (Token.id token);
             ItemToken.type := hashOf (Token.type token);
             ItemToken.issuance := Token.issuance token |}) <$> itemToken)
      booleanRestrictedDelivery
      (chainTermsAndConditions <$> termsAndConditions) in
  do* _ <- World.tryCatch
    (do* signer <- World.lift signerId;
     World.perform (World.SignAndSend signer submittable))
    (fun e =>
       do* _ <- cancelItemPublicDataSubmission locId itemId;
       World.throw e);
  match itemFiles with
  | Some files => uploadAll (uploadItemFile locId itemId) files
  | None => World.ret tt
  end.

(** The part of [addCollectionItem] that runs before the terms are looked
    at: the files are finalised and described for the chain, restricted
    delivery and the token are checked.  Nothing is sent yet. *)
Definition checkedBeforeTerms (parameters : AddCollectionItemParams.t)
  : result (option (list ItemFileWithContent.t) * list ItemFile.t) :=
  let* itemFiles :=
    match AddCollectionItemParams.itemFiles parameters with
    | Some files => let* files' := finalizeAll files in Ok (Some files')
    | None => Ok None
    end in
  let* chainItemFiles :=
    match itemFiles with
    | Some files => mapM chainItemFile files
    | None => Ok []
    end in
  if default false (AddCollectionItemParams.restrictedDelivery parameters)
     && (Nat.eqb (length chainItemFiles) 0
         || negb (bool_decide (is_Some (AddCollectionItemParams.itemToken parameters))))
  then Throw (Error RESTRICTED_DELIVERY)
  else
    let* _ :=
      match AddCollectionItemParams.itemToken parameters with
      | Some token => validTokenOrThrow token
      | None => Ok tt
      end in
    Ok (itemFiles, chainItemFiles).

(** All that [addCollectionItem] computes before its first call: the
    finalised files, the public data to announce and the extrinsic to sign. *)
Definition preparedCollectionItem (parameters : AddCollectionItemParams.t)
  : result (option (list ItemFileWithContent.t)
            * CreateOffchainCollectionItem.t * Submittable) :=
  let itemToken := AddCollectionItemParams.itemToken parameters in
  let* checked := checkedBeforeTerms parameters in
  let* exclusiveTerms :=
    match AddCollectionItemParams.logionClassification parameters,
          AddCollectionItemParams.creativeCommons parameters with
    | Some _, Some _ => Throw (Error MUTUALLY_EXCLUSIVE)
    | Some logionClassification, None => Ok [logionClassification]
    | None, Some creativeCommons => Ok [creativeCommons]
    | None, None => Ok []
    end in
  let termsAndConditions :=
    exclusiveTerms ++ default [] (AddCollectionItemParams.specificLicenses parameters) in
  let* files :=
    match fst checked with
    | Some files => mapM offchainItemFile files
    | None => Ok []
    end in
  Ok (fst checked,
      {| CreateOffchainCollectionItem.itemId := AddCollectionItemParams.itemId parameters;
         CreateOffchainCollectionItem.files := files;
         CreateOffchainCollectionItem.termsAndConditions :=
           offchainTermsAndConditions <$> termsAndConditions;
         CreateOffchainCollectionItem.description :=
           AddCollectionItemParams.itemDescription parameters;
         CreateOffchainCollectionItem.token :=
           (fun token =>
              {| OffchainCollectionItemToken.id := Some (Token.id token);
                 OffchainCollectionItemToken.type := Some (Token.type token) |})
             <$> itemToken |},
      NodeApi.addCollectionItem
        (AddCollectionItemParams.locId parameters)
        (AddCollectionItemParams.itemId parameters)
        (hashOf (AddCollectionItemParams.itemDescription parameters))
        (snd checked)
        ((fun token =>
            {| ItemToken.id := hashOf (Token.id token);
               ItemToken.type := hashOf (Token.type token);
               ItemToken.issuance := Token.issuance token |}) <$> itemToken)
        (default false (AddCollectionItemParams.restrictedDelivery parameters))
        (chainTermsAndConditions <$> termsAndConditions)).

(** *** addTokensRecord *)

Definition chainRecordFile (itemFile : ItemFileWithContent.t)
  : result TypesTokensRecordFile.t :=
  let* hash := Hash.contentHash (ItemFileWithContent.hashOrContent itemFile) in
  let* size := ItemFileWithContent.size itemFile in
  Ok {| TypesTokensRecordFile.name := hashOf (ItemFileWithContent.name itemFile);
        TypesTokensRecordFile.contentType := hashOf (ItemFileWithContent.contentType itemFile);
        TypesTokensRecordFile.hash := hash;
        TypesTokensRecordFile.size := size |}.

Definition offchainRecordFile (file : ItemFileWithContent.t)
  : result OffchainTokensRecordFile.t :=
  let* hash := Hash.contentHash (ItemFileWithContent.hashOrContent file) in
  Ok {| OffchainTokensRecordFile.name := Some (ItemFileWithContent.name file);
        OffchainTokensRecordFile.contentType := Some (ItemFileWithContent.contentType file);
        OffchainTokensRecordFile.hash := hash;
        OffchainTokensRecordFile.uploaded := None |}.

Definition submitRecordPublicData (locId : string) (record : CreateOffchainTokensRecord.t)
  : World.M unit :=
  World.tryCatch (World.perform (World.PostTokensRecord locId record))
                 (fun e => World.throw (BackendError e)).

Definition cancelRecordPublicDataSubmission (locId : string) (recordId : Hash)
  : World.M unit :=
  World.tryCatch (World.perform (World.DeleteTokensRecord locId recordId))
                 (fun e => World.throw (BackendError e)).

Definition uploadTokensRecordFile (locId : string) (recordId : Hash)
           (file : ItemFileWithContent.t) : World.M unit :=
  let hashOrContent := Hash.finalize hashOf (ItemFileWithContent.hashOrContent file) in
  do* hash <- World.lift (Hash.contentHash hashOrContent);
  World.tryCatch
    (World.perform (World.PostTokensRecordFile locId recordId hash
                      (ItemFileWithContent.name file)))
    (fun e => World.throw (BackendError e)).

Definition addTokensRecord (parameters : AddTokensRecordParams.t) : World.M unit :=
  let locId := AddTokensRecordParams.locId parameters in
  let recordId := AddTokensRecordParams.recordId parameters in
  let description := AddTokensRecordParams.description parameters in
  do* files <- World.lift (finalizeAll (AddTokensRecordParams.files parameters));
  do* chainItemFiles <- World.lift (mapM chainRecordFile files);
  do* offchainFiles <- World.lift (mapM offchainRecordFile files);
  do* _ <- submitRecordPublicData locId
    {| CreateOffchainTokensRecord.recordId := recordId;
       CreateOffchainTokensRecord.files := offchainFiles;
       CreateOffchainTokensRecord.description := description |};
  let submittable :=
    NodeApi.addTokensRecord locId recordId (hashOf description) chainItemFiles in
  do* _ <- World.tryCatch
    (do* signer <- World.lift signerId;
     World.perform (World.SignAndSend signer submittable))
    (fun e =>
       do* _ <- cancelRecordPublicDataSubmission locId recordId;
       World.throw e);
  uploadAll (uploadTokensRecordFile locId recordId) files.

(** All that [addTokensRecord] computes before its first call. *)
Definition preparedTokensRecord (parameters : AddTokensRecordParams.t)
  : result (list ItemFileWithContent.t * CreateOffchainTokensRecord.t * Submittable) :=
  let* files := finalizeAll (AddTokensRecordParams.files parameters) in
  let* chainItemFiles := mapM chainRecordFile files in
  let* offchainFiles := mapM offchainRecordFile files in
  Ok (files,
      {| CreateOffchainTokensRecord.recordId := AddTokensRecordParams.recordId parameters;
         CreateOffchainTokensRecord.files := offchainFiles;
         CreateOffchainTokensRecord.description :=
           AddTokensRecordParams.description parameters |},
      NodeApi.addTokensRecord
        (AddTokensRecordParams.locId parameters)
        (AddTokensRecordParams.recordId parameters)
        (hashOf (AddTokensRecordParams.description parameters))
        chainItemFiles).

(** What [addCollectionItem] does once its payloads are prepared. *)
Definition announceAndSubmitItem (locId : string) (itemId : Hash)
           (itemFiles : option (list ItemFileWithContent.t))
           (item : CreateOffchainCollectionItem.t) (submittable : Submittable)
  : World.M unit :=
  do* _ <- submitItemPublicData locId item;
  do* _ <- World.tryCatch
    (do* signer <- World.lift signerId;
     World.perform (World.SignAndSend signer submittable))
    (fun e =>
       do* _ <- cancelItemPublicDataSubmission locId itemId;
       World.throw e);
  match itemFiles with
  | Some files => uploadAll (uploadItemFile locId itemId) files
  | None => World.ret tt
  end.

Definition announceAndSubmitRecord (locId : string) (recordId : Hash)
           (files : list ItemFileWithContent.t)
           (record : CreateOffchainTokensRecord.t) (submittable : Submittable)
  : World.M unit :=
  do* _ <- submitRecordPublicData locId record;
  do* _ <- World.tryCatch
    (do* signer <- World.lift signerId;
     World.perform (World.SignAndSend signer submittable))
    (fun e =>
       do* _ <- cancelRecordPublicDataSubmission locId recordId;
       World.throw e);
  uploadAll (uploadTokensRecordFile locId recordId) files.

End WithClient.

End AuthenticatedLocClient.

(** ** State.ts and the transition methods of Loc.ts *)

Module State.
Import Js.

(** [State.ts] and the transition methods of [Loc.ts] are not available in
    source form; only the generated documentation of [discarded],
    [ensureCurrent], [discard] and [discardOnSuccess] is.  They are modelled
    from that documentation and from the specification of the state machine
    core.  State objects live in a heap and are known by reference, so that
    a caller may hold on to an object a transition has consumed. *)

(** The concrete lifecycle stages. *)
Inductive Stage : Type :=
| Draft | Pending | Rejected | Open | Closed | ClosedCollection | Voided | VoidedCollection.

(** A reference to a state object. *)
Abbreviation Ref := nat.

Section WithCollaborators.
(** The backend and the ledger, and the data a state object is built from. *)
Variables Backend Data : Type.

Record Object : Type := {
  stage : Stage;
  data : Data;
  _discarded : bool;
}.

Record Machine : Type := {
  heap : list Object;
  backend : Backend;
}.

Definition M (A : Type) : Type := Machine -> result A * Machine.

(** A backend call and/or ledger submission: it answers with the data of the
    next stage or fails, and leaves the collaborators as it leaves them. *)
Definition Operation : Type := Backend -> result (Stage * Data) * Backend.

(** Modelled from the spec: the [discarded] getter of [State.ts], "true if
    this state was discarded"; [None] for a reference to nothing. *)
Definition discarded (m : Machine) (this : Ref) : option bool :=
  _discarded <$> heap m !! this.

(** Modelled from the spec: [ensureCurrent] of [State.ts], "throws an error
    if this state was discarded"; the error is the [StaleStateError] of the
    error taxonomy. *)
Definition ensureCurrent (this : Ref) : M unit := fun m =>
  match discarded m this with
  | Some false => (Ok tt, m)
  | Some true => (Throw StaleStateError, m)
  | None => (Throw (TypeError "Cannot read properties of undefined"), m)
  end.

(** Modelled from the spec: [discard] of [State.ts], "discards current
    state". *)
Definition discard (this : Ref) : M unit := fun m =>
  (Ok tt,
   {| heap := alter (fun o => {| stage := stage o; data := data o; _discarded := true |})
                    this (heap m);
      backend := backend m |}).

(** Modelled from the spec: [discardOnSuccess] of [State.ts], "discards
    current state only if given state transition logic executed successfully
    (i.e. without throwing an error); returns the next state if state
    transition logic execution did not throw". *)
Definition discardOnSuccess (this : Ref) (action : M Ref) : M Ref := fun m =>
  match action m with
  | (Ok next, m') => (Ok next, snd (discard this m'))
  | (Throw e, m') => (Throw e, m')
  end.

(** Modelled from the spec: step 2 of a transition of [Loc.ts], "performs
    the side-effecting operation (backend call and/or signed ledger
    submission)". *)
Definition perform (operation : Operation) : M (Stage * Data) := fun m =>
  let '(r, backend') := operation (backend m) in
  (r, {| heap := heap m; backend := backend' |}).

(** Modelled from the spec: the construction in step 3 of a transition of
    [Loc.ts], "constructs the new concrete state from fresh backend/ledger
    data"; the new object is live. *)
Definition construct (next : Stage * Data) : M Ref := fun m =>
  (Ok (length (heap m)),
   {| heap := heap m ++ [ {| stage := fst next; data := snd next; _discarded := false |} ];
      backend := backend m |}).

(** Modelled from the spec: a transition method of a state class of
    [Loc.ts].  "Every transition operation: 1. asserts the state has not
    already been discarded (fails with StaleStateError otherwise); 2. performs
    the side-effecting operation; 3. on success, marks the current object
    discarded and constructs the new concrete state from fresh backend/ledger
    data; 4. on failure, leaves the current object live (not discarded) and
    propagates the error." *)
Definition transition (this : Ref) (operation : Operation) : M Ref := fun m =>
  match ensureCurrent this m with
  | (Throw e, m') => (Throw e, m')
  | (Ok _, m') =>
      discardOnSuccess this
        (fun m => match perform operation m with
                  | (Ok next, m') => construct next m'
                  | (Throw e, m') => (Throw e, m')
                  end) m'
  end.

(** A caller's code path: transitions attempted one after the other, each on
    the object the caller names, whatever became of the earlier ones. *)
Fixpoint run (steps : list (Ref * Operation)) (m : Machine)
  : list (result Ref) * Machine :=
  match steps with
  | [] => ([], m)
  | (this, operation) :: rest =>
      let '(r, m') := transition this operation m in
      let '(rs, m'') := run rest m' in
      (r :: rs, m'')
  end.

End WithCollaborators.

Arguments Build_Object {Data} _ _ _.
Arguments stage {Data} _.
Arguments data {Data} _.
Arguments _discarded {Data} _.
Arguments Build_Machine {Backend Data} _ _.
Arguments heap {Backend Data} _.
Arguments backend {Backend Data} _.
Arguments discarded {Backend Data} _ _.
Arguments ensureCurrent {Backend Data} _ _.
Arguments discard {Backend Data} _ _.
Arguments discardOnSuccess {Backend Data} _ _ _.
Arguments perform {Backend Data} _ _.
Arguments construct {Backend Data} _ _.
Arguments transition {Backend Data} _ _ _.
Arguments run {Backend Data} _ _.

End State.

(** ** Http.ts and LocMultiClient.fetchAll *)

Module Http.
Import Js Types.

(** [Http.ts] ([MultiSourceHttpClient], [aggregateArrays],
    [initMultiSourceHttpClientState]) is not available in source form and is
    modelled from the specification of the multi-source aggregator.
    Concurrency is modelled by the order in which the queries settle, which
    the network chooses: any rearrangement of the endpoints. *)

(** An endpoint: the node of a legal officer. *)
Record LegalOfficerEndpoint : Type := {
  url : string;
  legalOfficer : string;
}.

Record MultiSourceHttpClientState : Type := {
  nodesUp : list LegalOfficerEndpoint;
  nodesDown : list LegalOfficerEndpoint;
}.

(** What was gathered: the answers by endpoint url, in the order they were
    inserted, and the failures that were recorded. *)
Record Fetched (R : Type) : Type := {
  multiResponse : list (string * R);
  failures : list (LegalOfficerEndpoint * JsError);
}.
Arguments multiResponse {R} _.
Arguments failures {R} _.

Record Network : Type := {
  settleOrder : list LegalOfficerEndpoint -> list LegalOfficerEndpoint;
  settleOrder_permutation : forall endpoints, Permutation (settleOrder endpoints) endpoints;
}.

(** Modelled from the spec: [initMultiSourceHttpClientState] of [Http.ts].
    The endpoints queried are those of the network, or, "if the caller has
    pinned a specific endpoint", the pinned ones only. *)
Definition initMultiSourceHttpClientState (networkState : MultiSourceHttpClientState)
           (legalOfficers : option (list LegalOfficerEndpoint))
  : MultiSourceHttpClientState :=
  match legalOfficers with
  | Some pinned => {| nodesUp := pinned; nodesDown := [] |}
  | None => networkState
  end.

(** Modelled from the spec: the queries of [MultiSourceHttpClient.fetch]
    of [Http.ts].  "Given a set of endpoints and a per-endpoint async
    operation, issue all operations concurrently; each endpoint either
    succeeds (contributes its result array) or fails independently
    (contributes nothing, failure recorded but does not abort siblings)."
    Every endpoint is queried; the answers and the failures are recorded in
    the order in which the queries settle. *)
Definition gather {R} (net : Network) (state : MultiSourceHttpClientState)
           (query : LegalOfficerEndpoint -> result R) : Fetched R :=
  let settled := settleOrder net (nodesUp state) in
  {| multiResponse :=
       omap (fun endpoint =>
               match query endpoint with
               | Ok r => Some (url endpoint, r)
               | Throw _ => None
               end) settled;
     failures :=
       omap (fun endpoint =>
               match query endpoint with
               | Ok _ => None
               | Throw e => Some (endpoint, e)
               end) settled |}.

(** Modelled from the spec: [MultiSourceHttpClient.fetch] of [Http.ts].
    "Partial Aggregator failures (one endpoint unreachable) are swallowed
    per-endpoint and do not fail the aggregate call -- only 'all endpoints
    failed' surfaces an error."  The error that surfaces is not named; it
    is [allEndpointsFailed] of the failures recorded.  With no endpoint to
    query no endpoint failed, and the answer is empty. *)
Definition fetch {R}
           (allEndpointsFailed : list (LegalOfficerEndpoint * JsError) -> JsError)
           (net : Network) (state : MultiSourceHttpClientState)
           (query : LegalOfficerEndpoint -> result R) : result (list (string * R)) :=
  let fetched := gather net state query in
  match multiResponse fetched, failures fetched with
  | [], _ :: _ => Throw (allEndpointsFailed (failures fetched))
  | answers, _ => Ok answers
  end.

(** Modelled from the spec: [aggregateArrays] of [Http.ts].  "The aggregate
    result is the flattened concatenation of all successful per-endpoint
    arrays, insertion order irrelevant across endpoints, preserved within an
    endpoint's own array." *)
Definition aggregateArrays {E} (response : list (string * list E)) : list E :=
  concat (snd <$> response).

Record FetchLocRequestSpecification : Type := {
  ownerAddress : option string;
  requesterAddress : option string;
  statuses : list LocRequestStatus;
  locTypes : list LocType;
  sponsorshipId : option string;
}.

Record FetchAllLocsParams : Type := {
  legalOfficers : option (list LegalOfficerEndpoint);
  spec : option FetchLocRequestSpecification;
}.

Section WithBackends.
(** [axios.put("/api/loc-request", specs)] on the backend of an endpoint,
    and the [requests] of its answer. *)
Variable put_loc_request :
  LegalOfficerEndpoint -> FetchLocRequestSpecification -> result (list LocRequest.t).
Variable net : Network.
Variable networkState : MultiSourceHttpClientState.
(** [this.currentAddress.address] *)
Variable currentAddress : string.
(** The error of a fetch that no endpoint answered. *)
Variable allEndpointsFailed : list (LegalOfficerEndpoint * JsError) -> JsError.

Definition defaultSpec : FetchLocRequestSpecification :=
  {| ownerAddress := None;
     requesterAddress := Some currentAddress;
     locTypes := [ Transaction; Collection; Identity ];
     statuses := [ OPEN; REVIEW_PENDING; REVIEW_ACCEPTED; REVIEW_REJECTED; CLOSED; DRAFT ];
     sponsorshipId := None |}.

(** The array an endpoint contributes to the aggregate: its answer, or
    nothing when its query fails. *)
Definition contribution (specs : FetchLocRequestSpecification)
           (endpoint : LegalOfficerEndpoint) : list LocRequest.t :=
  match put_loc_request endpoint specs with
  | Ok requests => requests
  | Throw _ => []
  end.

(** [LocMultiClient.fetchAll] *)
Definition fetchAll (params : option FetchAllLocsParams) : result (list LocRequest.t) :=
  let initialState :=
    initMultiSourceHttpClientState networkState (params ≫= legalOfficers) in
  let* multiResponse :=
    fetch allEndpointsFailed net initialState
      (fun endpoint =>
         let specs := default defaultSpec (params ≫= spec) in
         put_loc_request endpoint specs) in
  Ok (aggregateArrays multiResponse).

End WithBackends.

End Http.

(** ** Concrete inputs used to run the definitions *)

Module Examples.
Import Js Hash NodeApi Types.

Definition hashOf (s : string) : Hash := "0x" +:+ s.

Definition noTerms (_ : list NodeApi.TermsAndConditionsElement.t)
           (_ : list OffchainTermsAndConditionsElement.t)
  : list MergedTermsAndConditionsElement.t := [].

Definition JSON_parse (_ : string) : option Token.Json := None.
Definition isHex (_ : string) (_ : Z) : bool := false.
Definition isValidBech32Address (_ _ : string) : bool := false.
Definition createType_AccountId (_ : string) : bool := false.
Definition fromISO_isValid (s : string) : bool := String.eqb s "2030-01-01".
Definition toDecimalString (id : string) : string := id.

Definition alice : ValidAccountId.t :=
  {| ValidAccountId.address := "alice"; ValidAccountId.type := "Polkadot" |}.
Definition owner : ValidAccountId.t :=
  {| ValidAccountId.address := "owner"; ValidAccountId.type := "Polkadot" |}.
Definition eve : ValidAccountId.t :=
  {| ValidAccountId.address := "eve"; ValidAccountId.type := "Polkadot" |}.

(** *** State objects *)

Definition draftMachine : State.Machine nat string :=
  {| State.heap := [ {| State.stage := State.Draft; State.data := "draft";
                        State._discarded := false |} ];
     State.backend := 0%nat |}.

Definition submit : State.Operation nat string :=
  fun backend => (Ok (State.Pending, "submitted"), S backend).

Definition refuse : State.Operation nat string :=
  fun backend => (Throw (BackendError (HttpError 500)), backend).

(** *** Endpoints *)

Definition endpointA : Http.LegalOfficerEndpoint :=
  {| Http.url := "https://a"; Http.legalOfficer := "A" |}.
Definition endpointB : Http.LegalOfficerEndpoint :=
  {| Http.url := "https://b"; Http.legalOfficer := "B" |}.
Definition endpointC : Http.LegalOfficerEndpoint :=
  {| Http.url := "https://c"; Http.legalOfficer := "C" |}.

Definition requestOf (owner id : string) : LocRequest.t :=
  {| LocRequest.ownerAddress := owner;
     LocRequest.requesterAddress :=
       Some {| SupportedAccountId.type := "Polkadot";
               SupportedAccountId.address := "alice" |};
     LocRequest.locType := Transaction;
     LocRequest.id := id;
     LocRequest.status := OPEN;
     LocRequest.selectedIssuers := [] |}.

(** The second endpoint is down. *)
Definition put_loc_request (endpoint : Http.LegalOfficerEndpoint)
           (_ : Http.FetchLocRequestSpecification) : result (list LocRequest.t) :=
  if String.eqb (Http.url endpoint) "https://b" then Throw (HttpError 503)
  else Ok [ requestOf (Http.legalOfficer endpoint) ("loc-" +:+ Http.legalOfficer endpoint) ].

(** No endpoint answers. *)
Definition allDown (_ : Http.LegalOfficerEndpoint)
           (_ : Http.FetchLocRequestSpecification) : result (list LocRequest.t) :=
  Throw (HttpError 503).

(** The error of a fetch that no endpoint answered: the first failure
    recorded. *)
Definition firstFailure (failures : list (Http.LegalOfficerEndpoint * JsError)) : JsError :=
  match failures with
  | (_, e) :: _ => e
  | [] => Error "no endpoint"
  end.

(** A network on which the last query issued settles first. *)
Definition lastFirst : Http.Network :=
  {| Http.settleOrder := @rev Http.LegalOfficerEndpoint;
     Http.settleOrder_permutation :=
       fun endpoints => Permutation_sym (Permutation_rev endpoints) |}.

Definition threeEndpoints : Http.MultiSourceHttpClientState :=
  {| Http.nodesUp := [ endpointA; endpointB; endpointC ]; Http.nodesDown := [] |}.

(** *** Ledger and backend *)


Definition acceptAll (_ : World.Call) : option JsError := None.


Definition emptyWorld (rejects : World.Call -> option JsError) : World.t :=
  {| World.collectionItems := [];
     World.tokensRecords := [];
     World.offchainItems := [];
     World.offchainRecords := [];
     World.clock := "2023-06-01T00:00:00Z";
     World.rejects := rejects;
     World.calls := [] |}.

(** The ledger refuses every extrinsic; the backend accepts every call. *)
Definition ledgerRefuses (c : World.Call) : option JsError :=
  match c with
  | World.SignAndSend _ _ => Some (SubmissionError "extrinsic failed")
  | _ => None
  end.

(** The ledger refuses every extrinsic and the backend every deletion. *)
Definition ledgerAndDeletionRefuse (c : World.Call) : option JsError :=
  match c with
  | World.SignAndSend _ _ => Some (SubmissionError "extrinsic failed")
  | World.DeleteCollectionItem _ _ | World.DeleteTokensRecord _ _ => Some (HttpError 500)
  | _ => None
  end.

Definition terms (type : string) : TermsAndConditionsElement.t :=
  {| TermsAndConditionsElement.type := type;
     TermsAndConditionsElement.tcLocId := "license-loc";
     TermsAndConditionsElement.details := "{}" |}.

Definition plainItem : AuthenticatedLocClient.AddCollectionItemParams.t :=
  {| AuthenticatedLocClient.AddCollectionItemParams.locId := "loc";
     AuthenticatedLocClient.AddCollectionItemParams.itemId := "0x01";
     AuthenticatedLocClient.AddCollectionItemParams.itemDescription := "first item";
     AuthenticatedLocClient.AddCollectionItemParams.itemFiles := None;
     AuthenticatedLocClient.AddCollectionItemParams.itemToken := None;
     AuthenticatedLocClient.AddCollectionItemParams.restrictedDelivery := None;
     AuthenticatedLocClient.AddCollectionItemParams.logionClassification := None;
     AuthenticatedLocClient.AddCollectionItemParams.specificLicenses := None;
     AuthenticatedLocClient.AddCollectionItemParams.creativeCommons := None |}.

Definition bothTerms (restrictedDelivery : option bool)
  : AuthenticatedLocClient.AddCollectionItemParams.t :=
  {| AuthenticatedLocClient.AddCollectionItemParams.locId := "loc";
     AuthenticatedLocClient.AddCollectionItemParams.itemId := "0x01";
     AuthenticatedLocClient.AddCollectionItemParams.itemDescription := "first item";
     AuthenticatedLocClient.AddCollectionItemParams.itemFiles := None;
     AuthenticatedLocClient.AddCollectionItemParams.itemToken := None;
     AuthenticatedLocClient.AddCollectionItemParams.restrictedDelivery := restrictedDelivery;
     AuthenticatedLocClient.AddCollectionItemParams.logionClassification :=
       Some (terms "logion_classification");
     AuthenticatedLocClient.AddCollectionItemParams.specificLicenses := None;
     AuthenticatedLocClient.AddCollectionItemParams.creativeCommons := Some (terms "CC4.0") |}.

Definition plainRecord : AuthenticatedLocClient.AddTokensRecordParams.t :=
  {| AuthenticatedLocClient.AddTokensRecordParams.locId := "loc";
     AuthenticatedLocClient.AddTokensRecordParams.recordId := "0x02";
     AuthenticatedLocClient.AddTokensRecordParams.description := "first record";
     AuthenticatedLocClient.AddTokensRecordParams.files := [] |}.

(** *** Issuers *)

Definition ann : VerifiedIssuerIdentity.t :=
  {| VerifiedIssuerIdentity.address := "ann";
     VerifiedIssuerIdentity.identity :=
       {| UserIdentity.firstName := "Ann"; UserIdentity.lastName := "Archer";
          UserIdentity.email := "ann@example.org"; UserIdentity.phoneNumber := "+1" |};
     VerifiedIssuerIdentity.identityLocId := "identity-ann";
     VerifiedIssuerIdentity.selected := None |}.

Definition bob : VerifiedIssuerType.t :=
  {| VerifiedIssuerType.address := "bob";
     VerifiedIssuerType.identityLocId := "identity-bob" |}.

(** An open LOC for which the backend lists [ann], whom the ledger has not
    selected. *)
Definition openRequest : LocRequest.t :=
  {| LocRequest.ownerAddress := "owner";
     LocRequest.requesterAddress :=
       Some {| SupportedAccountId.type := "Polkadot";
               SupportedAccountId.address := "alice" |};
     LocRequest.locType := Transaction;
     LocRequest.id := "loc";
     LocRequest.status := OPEN;
     LocRequest.selectedIssuers := [ ann ] |}.

Definition batch (selected : list VerifiedIssuerType.t) : LocBatch.t :=
  {| LocBatch.getAvailableVerifiedIssuers := ∅;
     LocBatch.getLocsVerifiedIssuers := {[ "loc" := selected ]} |}.

(** *** Files *)

Definition helloDeclared (size : option Z) : ItemFileWithContent.t :=
  {| ItemFileWithContent._name := "hello.txt";
     ItemFileWithContent._contentType := "text/plain";
     ItemFileWithContent._size := size;
     ItemFileWithContent._hashOrContent := Hash.fromContent "hello" |}.

End Examples.

(** ** Token.ts: token types and networks *)

Module TokenType.
Import Js.

Inductive NetworkType : Type := ETHEREUM | POLKADOT | MULTIVERSX.

Definition isTokenType (type : string) : bool :=
  String.eqb type "ethereum_erc721"
  || String.eqb type "ethereum_erc1155"
  || String.eqb type "goerli_erc721"
  || String.eqb type "goerli_erc1155"
  || String.eqb type "singular_kusama"
  || String.eqb type "polygon_erc721"
  || String.eqb type "polygon_erc1155"
  || String.eqb type "polygon_mumbai_erc721"
  || String.eqb type "polygon_mumbai_erc1155"
  || String.eqb type "ethereum_erc20"
  || String.eqb type "goerli_erc20"
  || String.eqb type "polygon_erc20"
  || String.eqb type "polygon_mumbai_erc20"
  || String.eqb type "owner"
  || String.eqb type "multiversx_devnet_esdt"
  || String.eqb type "multiversx_testnet_esdt"
  || String.eqb type "multiversx_esdt".

Definition isTokenCompatibleWith (type : string) (networkType : NetworkType) : bool :=
  if String.eqb type "owner" then true
  else
    match networkType with
    | ETHEREUM =>
        Token.startsWith type "ethereum"
        || Token.startsWith type "goerli"
        || Token.startsWith type "polygon"
    | MULTIVERSX => Token.startsWith type "multiversx"
    | POLKADOT => String.eqb type "singular_kusama"
    end.

(** The shape the regular expression of [isMultiversxESDTId] describes: a
    ticker of digits and capitals, a dash, six lower-case hexadecimal digits
    and, optionally, a dash and a nonce of lower-case hexadecimal digits. *)
Definition esdtShape (tokenId : string) : Prop :=
  exists ticker random nonce,
    list_ascii_of_string tokenId = ticker ++ "-"%char :: random ++ nonce
    /\ ticker <> []
    /\ forallb (fun c => Token.isDigit c || Token.isUpper c) ticker = true
    /\ length random = 6%nat
    /\ forallb Token.isLowerHex random = true
    /\ (nonce = []
        \/ exists digits,
             nonce = "-"%char :: digits /\ digits <> []
             /\ forallb Token.isLowerHex digits = true).

(** The reasons [validateToken] gives, the one for an unsupported type
    apart. *)
Definition knownReasons : list string :=
  [ "token ID is not a valid JSON object";
    "token ID is missing the 'contract' field";
    "token ID's 'contract' field is not a string";
    "token ID is missing the 'id' field";
    "token ID's 'id' field is not a string";
    "token ID must be a valid Ethereum, Polkadot or MultiversX address";
    "token ID must be a valid Singular Kusama ID";
    "token ID must be a valid MultiversX ESDT ID" ].

End TokenType.

(** ** Scenarios: worlds that the client's own calls produce *)

Module Scenarios.
Import Js Hash NodeApi Types.

(** A file given by its hash and size alone. *)
Definition deedByHash : ItemFileWithContent.t :=
  {| ItemFileWithContent._name := "deed.pdf";
     ItemFileWithContent._contentType := "application/pdf";
     ItemFileWithContent._size := Some 1024%Z;
     ItemFileWithContent._hashOrContent := Hash.fromHash "0xdeed" |}.

(** An item with two files: one given with its content, one by its hash. *)
Definition itemWithFiles : AuthenticatedLocClient.AddCollectionItemParams.t :=
  {| AuthenticatedLocClient.AddCollectionItemParams.locId := "loc";
     AuthenticatedLocClient.AddCollectionItemParams.itemId := "0x02";
     AuthenticatedLocClient.AddCollectionItemParams.itemDescription := "second item";
     AuthenticatedLocClient.AddCollectionItemParams.itemFiles :=
       Some [ Examples.helloDeclared None; deedByHash ];
     AuthenticatedLocClient.AddCollectionItemParams.itemToken := None;
     AuthenticatedLocClient.AddCollectionItemParams.restrictedDelivery := None;
     AuthenticatedLocClient.AddCollectionItemParams.logionClassification := None;
     AuthenticatedLocClient.AddCollectionItemParams.specificLicenses := None;
     AuthenticatedLocClient.AddCollectionItemParams.creativeCommons := None |}.

(** Restricted delivery asked for an item with files but without a token. *)
Definition restrictedWithoutToken : AuthenticatedLocClient.AddCollectionItemParams.t :=
  {| AuthenticatedLocClient.AddCollectionItemParams.locId := "loc";
     AuthenticatedLocClient.AddCollectionItemParams.itemId := "0x02";
     AuthenticatedLocClient.AddCollectionItemParams.itemDescription := "second item";
     AuthenticatedLocClient.AddCollectionItemParams.itemFiles :=
       Some [ Examples.helloDeclared None; deedByHash ];
     AuthenticatedLocClient.AddCollectionItemParams.itemToken := None;
     AuthenticatedLocClient.AddCollectionItemParams.restrictedDelivery := Some true;
     AuthenticatedLocClient.AddCollectionItemParams.logionClassification := None;
     AuthenticatedLocClient.AddCollectionItemParams.specificLicenses := None;
     AuthenticatedLocClient.AddCollectionItemParams.creativeCommons := None |}.

(** The backend refuses every announcement. *)
Definition announcementRefused (c : World.Call) : option JsError :=
  match c with
  | World.PostCollectionItem _ _ | World.PostTokensRecord _ _ => Some (HttpError 403)
  | _ => None
  end.

Definition addItemAs (current : ValidAccountId.t)
           (parameters : AuthenticatedLocClient.AddCollectionItemParams.t)
  : World.M unit :=
  AuthenticatedLocClient.addCollectionItem Examples.hashOf Examples.JSON_parse
    Examples.isHex Examples.isValidBech32Address Examples.createType_AccountId
    (Some current) parameters.

(** The world after alice has added the plain item and the item with files. *)
Definition twoItemsAdded : World.t :=
  snd (addItemAs Examples.alice itemWithFiles
         (snd (addItemAs Examples.alice Examples.plainItem
                 (Examples.emptyWorld Examples.acceptAll)))).

(** The world after an addition that the ledger refused and that the
    backend would not take back: the announced item is left behind. *)
Definition announcedOnly : World.t :=
  snd (addItemAs Examples.alice Examples.plainItem
         (Examples.emptyWorld Examples.ledgerAndDeletionRefuse)).

(** The backend lists, for the LOC, an item whose id names a member of
    [Object.prototype]; the ledger has no item at all. *)
Definition prototypeNamed : World.t :=
  {| World.collectionItems := [];
     World.tokensRecords := [];
     World.offchainItems :=
       [ {| OffchainCollectionItem.collectionLocId := "loc";
            OffchainCollectionItem.itemId := "constructor";
            OffchainCollectionItem.addedOn := "2023-06-01T00:00:00Z";
            OffchainCollectionItem.description := Some "an item";
            OffchainCollectionItem.files := [];
            OffchainCollectionItem.termsAndConditions := [];
            OffchainCollectionItem.token := None |} ];
     World.offchainRecords := [];
     World.clock := "2023-06-01T00:00:00Z";
     World.rejects := Examples.acceptAll;
     World.calls := [] |}.

End Scenarios.

(** ** LocClient.ts: who may add a tokens record *)

Module RecordRights.
Import Js Hash NodeApi Types.

Section WithClient.
(** [new UUID(id).toDecimalString()] *)
Variable toDecimalString : string -> string.
(** [private readonly currentAddress: ValidAccountId] *)
Variable currentAddress : ValidAccountId.t.
(** [this.nodeApi.batch.locs([ new UUID(request.id) ])] *)
Variable locs : string -> LocBatch.t.

Definition isIssuerOf (request : LocRequest.t) : result bool :=
  let* issuers :=
    AuthenticatedLocClient.getLocIssuers toDecimalString (Some currentAddress) request
      (locs (LocRequest.id request)) in
  Ok match List.find
             (fun issuer =>
                String.eqb (VerifiedIssuer.address issuer)
                           (ValidAccountId.address currentAddress)
                && String.eqb (ValidAccountId.type currentAddress) "Polkadot")
             (LocVerifiedIssuers.issuers issuers) with
     | Some _ => true
     | None => false
     end.

Definition canAddRecord (request : LocRequest.t) : result bool :=
  if match LocRequest.requesterAddress request with
     | Some requester =>
         String.eqb (ValidAccountId.address currentAddress)
                    (SupportedAccountId.address requester)
         && String.eqb (ValidAccountId.type currentAddress)
                       (SupportedAccountId.type requester)
     | None => false
     end
  then Ok true
  else if String.eqb (ValidAccountId.address currentAddress) (LocRequest.ownerAddress request)
  then Ok true
  else isIssuerOf request.

End WithClient.

End RecordRights.

(** ** LocClient.ts: the life cycle of a LOC

    The methods of [AuthenticatedLocClient] that publish, acknowledge,
    accept, open, close and void.  Each of them signs at most one extrinsic
    and tells the backend with at most one request; [rejects] scripts which
    of these the ledger or the backend refuses, [calls] records the ones
    issued so far, oldest first. *)

Module Workflow.
Import Js Hash NodeApi Types.

(** The extrinsics of [this.nodeApi.polkadot.tx.logionLoc] these methods
    build.  Of a file and of a link, which the adapters turn into pallet
    values, the extrinsic keeps here what the methods themselves read: the
    hash of the file, the id of the link. *)
Module logionLoc.
Inductive Extrinsic : Type :=
| addFile (locId : string) (file : Hash)
| acknowledgeFile (locId : string) (hash : Hash)
| addMetadata (locId : string) (name value : Hash) (submitter : ValidAccountId.t)
| acknowledgeMetadata (locId : string) (nameHash : Hash)
| addLink (locId : string) (link : string)
| createLogionTransactionLoc (locId requesterLocId : string)
| createPolkadotTransactionLoc (locId legalOfficer : string)
| createOtherIdentityLoc (locId otherAccountId sponsorshipId : string)
| createLogionIdentityLoc (locId : string)
| createPolkadotIdentityLoc (locId legalOfficer : string)
| createCollectionLoc (locId legalOfficer : string)
    (collectionLastBlockSubmission : option Z) (collectionMaxSize : option Z)
    (collectionCanUpload : bool)
| closeAndSeal (locId seal : string)
| close (locId : string)
| makeVoidAndReplace (locId replacer : string)
| makeVoid (locId : string).
End logionLoc.

Inductive Call : Type :=
| SignAndSend (signerId : string) (submittable : logionLoc.Extrinsic)
| Put (path : string)
| Post (path : string) (body : list (string * string)).

Record t : Type := {
  rejects : Call -> option JsError;
  calls : list Call;
}.

Definition logged (c : Call) (w : t) : t :=
  {| rejects := rejects w; calls := calls w ++ [c] |}.

Definition M (A : Type) : Type := t -> result A * t.

Definition ret {A} (a : A) : M A := fun w => (Ok a, w).
Definition throw {A} (e : JsError) : M A := fun w => (Throw e, w).
Definition lift {A} (r : result A) : M A := fun w => (r, w).

Definition mbind {A B} (m : M A) (k : A -> M B) : M B := fun w =>
  match m w with
  | (Ok a, w') => k a w'
  | (Throw e, w') => (Throw e, w')
  end.

(** [try { m } catch(e) { handler(e) }] *)
Definition tryCatch {A} (m : M A) (handler : JsError -> M A) : M A := fun w =>
  match m w with
  | (Ok a, w') => (Ok a, w')
  | (Throw e, w') => handler e w'
  end.

(** The call is issued, then answered. *)
Definition perform (c : Call) : M unit := fun w =>
  match rejects w c with
  | Some e => (Throw e, logged c w)
  | None => (Ok tt, logged c w)
  end.

Local Notation "'do!' x '<-' m ';' k" := (mbind m (fun x => k))
  (at level 10, x name, m at level 100, k at level 200).

(** [parameters.signer] of a [Partial<BlockchainSubmissionParams>]: the
    signer is the ledger's; the parameter tells whether one was given. *)
Inductive Signer : Type := signer.

Section WithClient.
(** [Hash.of] *)
Variable hashOf : string -> Hash.
(** [private readonly currentAddress: ValidAccountId] *)
Variable currentAddress : ValidAccountId.t.
(** [requireDefined] of [assertions.js] *)
Variable requireDefined : option Signer -> result Signer.
(** [getValidAccountId(address, type).toOtherAccountId()], as the pallet's
    [OtherAccountId] *)
Variable toOtherAccountId : SupportedAccountId.t -> result string.

Definition signAndSend (submittable : logionLoc.Extrinsic) : M unit :=
  perform (SignAndSend (ValidAccountId.address currentAddress) submittable).

Definition publishFile (locId : string) (file : Hash) : M unit :=
  let submittable := logionLoc.addFile locId file in
  do! _ <- signAndSend submittable;
  tryCatch
    (perform (Put ("/api/loc-request/" +:+ locId +:+ "/files/" +:+ file +:+ "/confirm")))
    (fun e => throw (BackendError e)).

Definition acknowledgeFile (locId : string) (hash : Hash) : M unit :=
  let submittable := logionLoc.acknowledgeFile locId hash in
  do! _ <- signAndSend submittable;
  tryCatch
    (perform (Put ("/api/loc-request/" +:+ locId +:+ "/files/" +:+ hash
                     +:+ "/confirm-acknowledged")))
    (fun e => throw (BackendError e)).

Definition publishMetadata (locId : string) (name value : string)
           (submitter : ValidAccountId.t) : M unit :=
  let nameHash := hashOf name in
  let submittable := logionLoc.addMetadata locId nameHash (hashOf value) submitter in
  do! _ <- signAndSend submittable;
  tryCatch
    (perform (Put ("/api/loc-request/" +:+ locId +:+ "/metadata/" +:+ nameHash
                     +:+ "/confirm")))
    (fun e => throw (BackendError e)).

Definition acknowledgeMetadata (locId : string) (nameHash : Hash) : M unit :=
  let submittable := logionLoc.acknowledgeMetadata locId nameHash in
  do! _ <- signAndSend submittable;
  tryCatch
    (perform (Put ("/api/loc-request/" +:+ locId +:+ "/metadata/" +:+ nameHash
                     +:+ "/confirm-acknowledged")))
    (fun e => throw (BackendError e)).

Definition publishLink (locId : string) (link : string) : M unit :=
  let submittable := logionLoc.addLink locId link in
  do! _ <- signAndSend submittable;
  tryCatch
    (perform (Put ("/api/loc-request/" +:+ locId +:+ "/links/" +:+ link +:+ "/confirm")))
    (fun e => throw (BackendError e)).

Definition acceptLoc (locId : string) : M unit :=
  tryCatch (perform (Post ("/api/loc-request/" +:+ locId +:+ "/accept") []))
           (fun e => throw (BackendError e)).

Definition openLoc (locId : string) : M unit :=
  tryCatch (perform (Post ("/api/loc-request/" +:+ locId +:+ "/open") []))
           (fun e => throw (BackendError e)).

Definition acceptTransactionLoc (locId : string)
           (requesterAccount : option SupportedAccountId.t)
           (requesterLoc : option string) (signer : option Signer) : M unit :=
  match requesterAccount, requesterLoc with
  | Some _, _ => acceptLoc locId
  | None, Some requesterLoc =>
      do! _ <- lift (requireDefined signer);
      let submittable := logionLoc.createLogionTransactionLoc locId requesterLoc in
      do! _ <- signAndSend submittable;
      acceptLoc locId
  | None, None => throw (Error "No requester provided")
  end.

Definition openTransactionLoc (locId legalOfficer : string) : M unit :=
  let submittable := logionLoc.createPolkadotTransactionLoc locId legalOfficer in
  do! _ <- signAndSend submittable;
  openLoc locId.

Definition acceptIdentityLoc (locId : string)
           (requesterAccount : option SupportedAccountId.t)
           (sponsorshipId : option string) (signer : option Signer) : M unit :=
  match requesterAccount with
  | Some requesterAccount =>
      if String.eqb (SupportedAccountId.type requesterAccount) "Polkadot"
      then acceptLoc locId
      else
        match sponsorshipId with
        | None => throw (Error "Other Identity LOCs can only be created with a sponsorship")
        | Some sponsorshipId =>
            do! _ <- lift (requireDefined signer);
            do! otherAccountId <- lift (toOtherAccountId requesterAccount);
            let submittable :=
              logionLoc.createOtherIdentityLoc locId otherAccountId sponsorshipId in
            do! _ <- signAndSend submittable;
            acceptLoc locId
        end
  | None =>
      let submittable := logionLoc.createLogionIdentityLoc locId in
      do! _ <- lift (requireDefined signer);
      do! _ <- signAndSend submittable;
      acceptLoc locId
  end.

Definition openIdentityLoc (locId legalOfficer : string) : M unit :=
  let submittable := logionLoc.createPolkadotIdentityLoc locId legalOfficer in
  do! _ <- signAndSend submittable;
  openLoc locId.

Definition acceptCollectionLoc (locId : string) : M unit := acceptLoc locId.

(** [value || null] on an optional [bigint], or on an optional [number]
    that holds an integer. *)
Definition orNull (value : option Z) : option Z :=
  if truthyOptBigint value then value else None.

Definition openCollectionLoc (locId legalOfficer : string)
           (collectionLastBlockSubmission collectionMaxSize : option Z)
           (collectionCanUpload : bool) : M unit :=
  let submittable :=
    logionLoc.createCollectionLoc locId legalOfficer
      (orNull collectionLastBlockSubmission) (orNull collectionMaxSize)
      collectionCanUpload in
  do! _ <- signAndSend submittable;
  openLoc locId.

Definition close (locId : string) (seal : option string) : M unit :=
  let submittable :=
    match seal with
    | Some seal =>
        if truthyString seal then logionLoc.closeAndSeal locId seal
        else logionLoc.close locId
    | None => logionLoc.close locId
    end in
  do! _ <- signAndSend submittable;
  tryCatch (perform (Post ("/api/loc-request/" +:+ locId +:+ "/close") []))
           (fun e => throw (BackendError e)).

Definition voidLoc (locId : string) (replacer : option string) (reason : string)
  : M unit :=
  let submittable :=
    match replacer with
    | Some replacer => logionLoc.makeVoidAndReplace locId replacer
    | None => logionLoc.makeVoid locId
    end in
  do! _ <- signAndSend submittable;
  tryCatch (perform (Post ("/api/loc-request/" +:+ locId +:+ "/void")
                          [ ("reason", reason) ]))
           (fun e => throw (BackendError e)).

End WithClient.

(** What a method does that signs [submittable] and then tells the backend
    with [request]: the three ways it can end. *)
Definition signsThenTells (signerId : string) (submittable : logionLoc.Extrinsic)
           (request : Call) (m : M unit) : Prop :=
  forall w,
    m w =
    match rejects w (SignAndSend signerId submittable) with
    | Some e => (Throw e, logged (SignAndSend signerId submittable) w)
    | None =>
        let w' := logged request (logged (SignAndSend signerId submittable) w) in
        match rejects w request with
        | Some e => (Throw (BackendError e), w')
        | None => (Ok tt, w')
        end
    end.

End Workflow.

(** ** Scenarios of the life cycle *)

Module WorkflowScenarios.
Import Js Hash NodeApi Types.

(** A signer that is asked for and missing is an error. *)
Definition requireDefined (given : option Workflow.Signer) : result Workflow.Signer :=
  match given with
  | Some s => Ok s
  | None => Throw (Error "Value is undefined")
  end.

Definition toOtherAccountId (account : SupportedAccountId.t) : result string :=
  Ok (SupportedAccountId.type account +:+ ":" +:+ SupportedAccountId.address account).

(** Ledger and backend accept everything; nothing was sent so far. *)
Definition quiet : Workflow.t :=
  {| Workflow.rejects := fun _ => None; Workflow.calls := [] |}.

Definition polkadotRequester : SupportedAccountId.t :=
  {| SupportedAccountId.type := "Polkadot"; SupportedAccountId.address := "alice" |}.

Definition ethereumRequester : SupportedAccountId.t :=
  {| SupportedAccountId.type := "Ethereum"; SupportedAccountId.address := "0xa11ce" |}.

End WorkflowScenarios.

(** ** Queries.ts: legal officer cases *)

Module Queries.

Section WithApi.
(** [LegalOfficerCase], as [Adapters.fromPalletLogionLocLegalOfficerCase]
    builds it. *)
Variable LegalOfficerCase : Type.
(** [UUID.toHexString] and [UUID.toDecimalString], on the text form of a
    UUID. *)
Variable toHexString : string -> string.
Variable toDecimalString : string -> string.
(** [api.query.logionLoc.locMap], by hexadecimal LOC id. *)
Variable locMap : string -> option LegalOfficerCase.

Definition getLegalOfficerCase (locId : string) : option LegalOfficerCase :=
  locMap (toHexString locId).

(** [locMap.multi] answers in the order of the ids. *)
Definition getLegalOfficerCases (locIds : list string) : list (option LegalOfficerCase) :=
  (fun id => locMap (toHexString id)) <$> locIds.

(** [for(let i = 0; i < locs.length; ++i)] over [locs[i]] and [locIds[i]]. *)
Definition getLegalOfficerCasesMap (locIds : list string) : gmap string LegalOfficerCase :=
  let locs := getLegalOfficerCases locIds in
  foldl (fun (map : gmap string LegalOfficerCase) (i : nat) =>
           match locs !! i, locIds !! i with
           | Some (Some loc), Some locId => <[toDecimalString locId := loc]> map
           | _, _ => map
           end)
        ∅ (seq 0 (length locs)).

End WithApi.

End Queries.

(** ** Scenarios of the ledger queries *)

Module QueriesScenarios.

Definition toHexString (locId : string) : string := "0x" +:+ locId.
Definition toDecimalString (locId : string) : string := locId.

(** The ledger knows the LOC [a] and no other. *)
Definition locMap (hexId : string) : option string :=
  if String.eqb hexId "0xa" then Some "case of a" else None.

End QueriesScenarios.

(** ** Scenarios with files *)

Module FileScenarios.
Import Js Hash NodeApi Types.

(** A file whose content is empty. *)
Definition emptyFile : ItemFileWithContent.t :=
  {| ItemFileWithContent._name := "empty.txt";
     ItemFileWithContent._contentType := "text/plain";
     ItemFileWithContent._size := None;
     ItemFileWithContent._hashOrContent := Hash.fromContent "" |}.

Definition recordWithEmptyFile : AuthenticatedLocClient.AddTokensRecordParams.t :=
  {| AuthenticatedLocClient.AddTokensRecordParams.locId := "loc";
     AuthenticatedLocClient.AddTokensRecordParams.recordId := "0x0a";
     AuthenticatedLocClient.AddTokensRecordParams.description := "a record";
     AuthenticatedLocClient.AddTokensRecordParams.files :=
       [ Examples.helloDeclared None; emptyFile ] |}.

End FileScenarios.

(** ** Scenarios with issuers *)

Module IssuerScenarios.
Import Js Hash NodeApi Types.

(** The closed identity LOC of alice, who is one of the verified issuers
    available to the owner. *)
Definition closedIdentity : LocRequest.t :=
  {| LocRequest.ownerAddress := "owner";
     LocRequest.requesterAddress :=
       Some {| SupportedAccountId.type := "Polkadot";
               SupportedAccountId.address := "alice" |};
     LocRequest.locType := Identity;
     LocRequest.id := "identity-alice";
     LocRequest.status := CLOSED;
     LocRequest.selectedIssuers := [] |}.

Definition identityBatch : LocBatch.t :=
  {| LocBatch.getAvailableVerifiedIssuers :=
       {[ "owner" := [ {| VerifiedIssuerType.address := "alice";
                          VerifiedIssuerType.identityLocId := "identity-alice" |} ] ]};
     LocBatch.getLocsVerifiedIssuers := {[ "identity-alice" := [] ]} |}.

(** The batch that the node gives for the open LOC ["loc"], of which the
    ledger has selected [bob]. *)
Definition locs (_ : string) : LocBatch.t := Examples.batch [ Examples.bob ].

Definition bobAccount : ValidAccountId.t :=
  {| ValidAccountId.address := "bob"; ValidAccountId.type := "Polkadot" |}.

End IssuerScenarios.

(** * Theorems *)

(** ** Terms validation *)

Section ClassificationFacts.
Import Js LogionClassification.
Variable fromISO_isValid : string -> bool.

Local Abbreviation respectsb := (LogionClassification.respectsb fromISO_isValid).
Local Abbreviation reports := (LogionClassification.reports fromISO_isValid).
Local Abbreviation violationMessages :=
  (LogionClassification.violationMessages fromISO_isValid).

Lemma includes_In l c : includes l c = true <-> In c l.
Proof.
  unfold includes. rewrite existsb_exists. split.
  - intros (x & Hx & Hd). apply bool_decide_eq_true in Hd. now subst.
  - intros H. exists c. split; [assumption | now apply bool_decide_eq_true].
Qed.

Lemma truthyString_neq s : truthyString s = true <-> s <> "".
Proof.
  unfold truthyString. rewrite negb_true_iff.
  split; intros H.
  - intros ->. discriminate.
  - apply String.eqb_neq. exact H.
Qed.

Lemma length_pos_neq s : (0 <? String.length s)%nat = true <-> s <> "".
Proof.
  destruct s; simpl; split; intros H; try discriminate; try congruence; auto.
Qed.

Lemma expirationSet_spec p : expirationSet p = true <-> expiration_is_set p.
Proof.
  unfold expirationSet, expiration_is_set. destruct (expiration p) as [e|].
  - rewrite length_pos_neq. split.
    + intros H. exists e. auto.
    + intros (e' & [= <-] & H). exact H.
  - split; [discriminate | intros (e & H & _); discriminate].
Qed.

Lemma regionalLimitSet_spec p : regionalLimitSet p = true <-> regional_limit_non_empty p.
Proof.
  unfold regionalLimitSet, regional_limit_non_empty. destruct (regionalLimit p) as [l|].
  - split.
    + intros H. exists l. split; [reflexivity | intros ->; discriminate].
    + intros (l' & [= <-] & H). destruct l; [congruence | reflexivity].
  - split; [discriminate | intros (e & H & _); discriminate].
Qed.

Lemma eqb_iff_spec (a b : bool) (P Q : Prop) :
  (a = true <-> P) -> (b = true <-> Q) -> Bool.eqb a b = true <-> (P <-> Q).
Proof.
  intros Ha Hb. destruct a, b; simpl; intuition (try congruence).
Qed.

Lemma respectsb_spec p r : respectsb p r = true <-> respects fromISO_isValid p r.
Proof.
  destruct r as [c1 c2| | |]; simpl.
  - rewrite negb_true_iff, andb_false_iff, <- !includes_In.
    destruct (includes _ c1), (includes _ c2); intuition congruence.
  - apply eqb_iff_spec; [apply includes_In | apply expirationSet_spec].
  - apply eqb_iff_spec; [apply includes_In | apply regionalLimitSet_spec].
  - destruct (expiration p) as [e|]; [| split; [congruence | reflexivity]].
    destruct (truthyString e) eqn:He.
    + split; [intros H e' [= <-] _; exact H |].
      intros H. apply H; [reflexivity | now apply truthyString_neq].
    + split; [| reflexivity]. intros _ e' [= <-] Hne.
      apply truthyString_neq in Hne. congruence.
Qed.

Lemma violationMessages_reports p rs : reports p rs (violationMessages p rs).
Proof.
  induction rs as [|r rs IH]; simpl; [constructor |].
  destruct (respectsb p r) eqn:E; simpl.
  - apply reports_respected; [now apply respectsb_spec | exact IH].
  - apply reports_violated; [| exact IH].
    rewrite <- respectsb_spec. congruence.
Qed.

Lemma violationMessages_nil p rs :
  violationMessages p rs = [] <-> (forall r, In r rs -> respects fromISO_isValid p r).
Proof.
  induction rs as [|r rs IH]; simpl.
  - split; [intros _ r [] | reflexivity].
  - destruct (respectsb p r) eqn:E; simpl.
    + rewrite IH. split.
      * intros H r' [<-|Hin]; [now apply respectsb_spec | now apply H].
      * intros H r' Hin. apply H. now right.
    + split; [discriminate |]. intros H.
      assert (respectsb p r = true) by (apply respectsb_spec, H; now left).
      congruence.
Qed.

Lemma violationMessages_not_nil p rs :
  violationMessages p rs <> [] ->
  exists r, In r rs /\ ~ respects fromISO_isValid p r.
Proof.
  induction rs as [|r rs IH]; simpl; [congruence |].
  destruct (respectsb p r) eqn:E; simpl.
  - intros H. destruct (IH H) as (r' & Hin & Hr). exists r'. auto.
  - intros _. exists r. split; [now left |].
    rewrite <- respectsb_spec. congruence.
Qed.

(** Each validation step keeps the parameters and appends at most the
    message of its own rule. *)
Lemma mutuallyExclusive_step c1 c2 v :
  mutuallyExclusive c1 c2 v =
  {| parameters := parameters v;
     errors := errors v ++ violationMessages (parameters v) [Exclusive c1 c2] |}.
Proof.
  unfold mutuallyExclusive, violationMessages, push; simpl.
  destruct (includes _ c1 && includes _ c2); simpl.
  - reflexivity.
  - rewrite app_nil_r. now destruct v.
Qed.

Lemma codePresentForCondition_step code cond msg v :
  codePresentForCondition code cond msg v =
  {| parameters := parameters v;
     errors := errors v ++
       (if Bool.eqb (includes (transferredRights (parameters v)) code) (cond (parameters v))
        then [] else [msg]) |}.
Proof.
  destruct v as [p es]. unfold codePresentForCondition, push; simpl.
  destruct (includes (transferredRights p) code) eqn:Hi, (cond p) eqn:Hc; simpl;
    rewrite ?Hi, ?Hc; simpl; rewrite ?app_nil_r; reflexivity.
Qed.

Lemma validIsoDate_step v :
  validIsoDate fromISO_isValid (expiration (parameters v)) v =
  {| parameters := parameters v;
     errors := errors v ++ violationMessages (parameters v) [ExpirationIsIsoDate] |}.
Proof.
  unfold validIsoDate, violationMessages, push; simpl.
  destruct (expiration (parameters v)) as [e|]; simpl.
  - destruct (truthyString e); simpl.
    + destruct (fromISO_isValid e); simpl; rewrite ?app_nil_r; now destruct v.
    + rewrite app_nil_r. now destruct v.
  - rewrite app_nil_r. now destruct v.
Qed.

Lemma checkValidity_unfold p :
  checkValidity fromISO_isValid p =
  validOrThrow {| parameters := p; errors := violationMessages p rules |}.
Proof.
  unfold checkValidity, newValidator. f_equal.
  rewrite !mutuallyExclusive_step; simpl.
  rewrite !codePresentForCondition_step; simpl.
  change p with (parameters {| parameters := p; errors :=
    (((((([] ++ violationMessages p [Exclusive PER_PRIV PER_PUB]) ++
      violationMessages p [Exclusive COM_NOMOD COM_MOD]) ++
      violationMessages p [Exclusive EX NOEX]) ++
      violationMessages p [Exclusive REG WW]) ++
      violationMessages p [Exclusive TIME NOTIME]) ++
      (if Bool.eqb (includes (transferredRights p) TIME) (expirationSet p)
       then [] else [TIME_message])) ++
      (if Bool.eqb (includes (transferredRights p) REG) (regionalLimitSet p)
       then [] else [REG_message]) |}) at 1.
  rewrite validIsoDate_step; simpl.
  f_equal. unfold violationMessages, rules; simpl.
  rewrite !app_nil_r, <- !app_assoc. reflexivity.
Qed.

(** C4. Constructing a [LogionClassification] with validity checking fails
    exactly when some rule of the list (the five mutual exclusions, TIME iff
    an expiration is set, REG iff the regional limit is non-empty, a set
    expiration is a valid ISO date) is violated; the thrown error is a single
    one whose message joins, in rule order, the message of every violated
    rule. *)
Theorem C4_checkValidity_reports_all_violations
        (licenseLocId : string) (p : LogionLicenseParameters) :
  ((exists e, new fromISO_isValid licenseLocId p true = Throw e) <->
   (exists r, In r rules /\ ~ respects fromISO_isValid p r))
  /\ (exists msgs,
        reports p rules msgs /\
        new fromISO_isValid licenseLocId p true =
          match msgs with
          | [] => Ok {| tcLocId := licenseLocId; params := p |}
          | _ => Throw (Error (String.concat "; " msgs))
          end).
Proof.
  assert (Hnew : new fromISO_isValid licenseLocId p true =
                 match violationMessages p rules with
                 | [] => Ok {| tcLocId := licenseLocId; params := p |}
                 | _ => Throw (Error (String.concat "; " (violationMessages p rules)))
                 end).
  { unfold new. rewrite checkValidity_unfold. unfold validOrThrow. cbn [errors].
    destruct (violationMessages p rules); reflexivity. }
  split.
  - rewrite Hnew. destruct (violationMessages p rules) as [|m ms] eqn:E.
    + split; [intros (e & He); discriminate |].
      intros (r & Hin & Hr). exfalso. apply Hr.
      now apply (proj1 (violationMessages_nil p rules) E).
    + split; [| intros _; eexists; reflexivity].
      intros _. apply violationMessages_not_nil. congruence.
  - exists (violationMessages p rules). split; [apply violationMessages_reports |].
    exact Hnew.
Qed.

End ClassificationFacts.

(** ** Discard-once ownership of state objects *)

Section StateFacts.
Import Js State.
Context {Backend Data : Type}.

Local Abbreviation Machine := (State.Machine Backend Data).
Local Abbreviation Operation := (State.Operation Backend Data).

Lemma discarded_alter_same (h : list (Object Data)) (b : Backend) this o :
  h !! this = Some o ->
  discarded {| heap := alter (fun o => {| stage := stage o; data := data o;
                                          _discarded := true |}) this h;
               backend := b |} this = Some true.
Proof.
  intros H. unfold discarded. cbn [heap].
  rewrite list_lookup_alter_eq, H. reflexivity.
Qed.

(** What a transition does, by the case the machine is in. *)
Lemma transition_cases (m : Machine) this (operation : Operation) :
  match discarded m this with
  | Some true => transition this operation m = (Throw StaleStateError, m)
  | Some false =>
      match operation (backend m) with
      | (Ok next, b') =>
          transition this operation m =
          (Ok (length (heap m)),
           {| heap := alter (fun o => {| stage := stage o; data := data o;
                                         _discarded := true |}) this
                        (heap m ++ [ {| stage := fst next; data := snd next;
                                        _discarded := false |} ]);
              backend := b' |})
      | (Throw e, b') =>
          transition this operation m = (Throw e, {| heap := heap m; backend := b' |})
      end
  | None => exists e, transition this operation m = (Throw e, m)
  end.
Proof.
  unfold transition, ensureCurrent.
  destruct (discarded m this) as [[|]|] eqn:D.
  - reflexivity.
  - unfold discardOnSuccess, perform.
    destruct (operation (backend m)) as [[next|e] b']; reflexivity.
  - eexists. reflexivity.
Qed.

(** A discarded object stays discarded, whatever is attempted next. *)
Lemma transition_keeps_discarded (m : Machine) this (operation : Operation) r :
  discarded m r = Some true ->
  discarded (snd (transition this operation m)) r = Some true.
Proof.
  intros Hr. pose proof (transition_cases m this operation) as H.
  destruct (discarded m this) as [[|]|] eqn:D.
  - rewrite H. exact Hr.
  - destruct (operation (backend m)) as [[next|e] b']; rewrite H; simpl.
    + unfold discarded in *. cbn [heap snd].
      destruct (heap m !! r) as [o|] eqn:Ho; [| discriminate].
      simpl in Hr. injection Hr as Hr.
      destruct (decide (this = r)) as [->|Hne].
      * rewrite list_lookup_alter_eq, lookup_app_l by (eapply lookup_lt_Some; eauto).
        rewrite Ho. reflexivity.
      * rewrite list_lookup_alter_ne by exact Hne.
        rewrite lookup_app_l by (eapply lookup_lt_Some; eauto).
        rewrite Ho. simpl. now rewrite Hr.
    + exact Hr.
  - destruct H as (e & ->). exact Hr.
Qed.

Lemma run_keeps_discarded steps (m : Machine) r :
  discarded m r = Some true ->
  discarded (snd (run steps m)) r = Some true.
Proof.
  revert m. induction steps as [|[this operation] steps IH]; intros m Hr; simpl.
  - exact Hr.
  - pose proof (transition_keeps_discarded m this operation r Hr) as H1.
    destruct (transition this operation m) as [r0 m'] eqn:T; simpl in H1.
    specialize (IH m' H1).
    destruct (run steps m') as [rs m''] eqn:R; simpl in *. exact IH.
Qed.

Lemma run_app steps steps' (m : Machine) :
  run (steps ++ steps') m =
  (fst (run steps m) ++ fst (run steps' (snd (run steps m))),
   snd (run steps' (snd (run steps m)))).
Proof.
  revert m. induction steps as [|[this operation] steps IH]; intros m; simpl.
  - now destruct (run steps' m).
  - destruct (transition this operation m) as [r m'].
    rewrite IH. destruct (run steps m') as [rs m'']; simpl. reflexivity.
Qed.

Lemma run_length steps (m : Machine) : length (fst (run steps m)) = length steps.
Proof.
  revert m. induction steps as [|[this operation] steps IH]; intros m; simpl.
  - reflexivity.
  - destruct (transition this operation m) as [r m'].
    specialize (IH m'). destruct (run steps m') as [rs m'']; simpl in *. now f_equal.
Qed.

(** On a discarded object every later attempt of a run fails. *)
Lemma run_on_discarded steps (m : Machine) this j operation :
  discarded m this = Some true ->
  steps !! j = Some (this, operation) ->
  fst (run steps m) !! j = Some (Throw StaleStateError).
Proof.
  revert m j. induction steps as [|[this' operation'] steps IH]; intros m j Hd Hj.
  - discriminate.
  - simpl.
    pose proof (transition_keeps_discarded m this' operation' this Hd) as H1.
    destruct (transition this' operation' m) as [r0 m'] eqn:T; simpl in H1.
    pose proof (IH m') as IH'.
    destruct (run steps m') as [rs m''] eqn:R; simpl in *.
    destruct j as [|j]; simpl in *.
    + injection Hj as -> ->.
      pose proof (transition_cases m this operation) as C.
      rewrite Hd in C. rewrite C in T. now injection T as <- _.
    + now apply IH'.
Qed.

Lemma transition_success_discards (m : Machine) this (operation : Operation) next m' :
  transition this operation m = (Ok next, m') ->
  discarded m this = Some false /\
  discarded m' this = Some true /\ discarded m' next = Some false.
Proof.
  intros T. pose proof (transition_cases m this operation) as C.
  destruct (discarded m this) as [[|]|] eqn:D.
  - rewrite C in T. discriminate.
  - destruct (operation (backend m)) as [[nx|e] b']; rewrite C in T; [| discriminate].
    injection T as <- <-. split; [reflexivity |].
    unfold discarded in D.
    destruct (heap m !! this) as [o|] eqn:Ho; [| discriminate].
    pose proof (lookup_lt_Some _ _ _ Ho) as Hlt.
    split.
    + eapply discarded_alter_same. rewrite lookup_app_l by exact Hlt. exact Ho.
    + unfold discarded. cbn [heap].
      rewrite list_lookup_alter_ne by lia.
      rewrite lookup_app_r by lia. rewrite Nat.sub_diag. reflexivity.
  - destruct C as (e & C). rewrite C in T. discriminate.
Qed.

(** C1. A transition on a discarded object fails with [StaleStateError] and
    leaves heap and collaborators as they were; on a live object, when the
    backend/ledger operation succeeds the source object becomes discarded and
    the returned object is live, and when it fails the source object stays
    live and the error is the operation's; hence in every run of transition
    attempts, once a transition on an object has succeeded every later
    attempt on that object fails with [StaleStateError], and so does every
    attempt on an object that is discarded by the time it is made. *)
Theorem C1_discard_once (m : Machine) (this : Ref) (operation : Operation) :
  (discarded m this = Some true ->
     transition this operation m = (Throw StaleStateError, m))
  /\ (forall next b',
        discarded m this = Some false ->
        operation (backend m) = (Ok next, b') ->
        exists result m',
          transition this operation m = (Ok result, m')
          /\ backend m' = b'
          /\ discarded m' this = Some true
          /\ discarded m' result = Some false)
  /\ (forall e b',
        discarded m this = Some false ->
        operation (backend m) = (Throw e, b') ->
        exists m',
          transition this operation m = (Throw e, m')
          /\ backend m' = b'
          /\ discarded m' this = Some false)
  /\ (forall steps i j operation' next,
        (i < j)%nat ->
        steps !! i = Some (this, operation) ->
        steps !! j = Some (this, operation') ->
        fst (run steps m) !! i = Some (Ok next) ->
        fst (run steps m) !! j = Some (Throw StaleStateError))
  /\ (forall steps j operation',
        steps !! j = Some (this, operation') ->
        discarded (snd (run (take j steps) m)) this = Some true ->
        fst (run steps m) !! j = Some (Throw StaleStateError)).
Proof.
  pose proof (transition_cases m this operation) as C.
  split; [| split; [| split; [| split]]].
  - intros D. rewrite D in C. exact C.
  - intros next b' D O. rewrite D, O in C.
    eexists _, _. split; [exact C |].
    destruct (transition_success_discards _ _ _ _ _ C) as (_ & H1 & H2).
    simpl. auto.
  - intros e b' D O. rewrite D, O in C.
    eexists. split; [exact C |]. simpl. split; [reflexivity | exact D].
  - clear C. intros steps. revert m.
    induction steps as [|[this0 operation0] steps IH]; intros m i j operation' next Hij Hi Hj Hr.
    + discriminate.
    + simpl in Hr |- *.
      destruct (transition this0 operation0 m) as [r0 m'] eqn:T.
      pose proof (IH m') as IH'. pose proof (run_on_discarded steps m' this) as RD.
      destruct (run steps m') as [rs m''] eqn:R; simpl in *.
      destruct j as [|j]; [lia |]. simpl in *.
      destruct i as [|i]; simpl in *.
      * injection Hi as -> ->. injection Hr as ->.
        destruct (transition_success_discards _ _ _ _ _ T) as (_ & Hd & _).
        eapply RD; eauto.
      * eapply IH'; eauto. lia.
  - clear C. intros steps j operation' Hj Hd.
    rewrite <- (take_drop j steps) at 1. rewrite run_app. cbn [fst].
    pose proof (lookup_lt_Some _ _ _ Hj) as Hlt.
    rewrite lookup_app_r by (rewrite run_length, length_take; lia).
    rewrite run_length, length_take, Nat.min_l, Nat.sub_diag by lia.
    eapply run_on_discarded; [exact Hd |].
    rewrite lookup_drop, Nat.add_0_r. exact Hj.
Qed.

End StateFacts.

(** ** Aggregation over the legal officers' endpoints *)

Section AggregatorFacts.
Import Js Types Http.
Variable put_loc_request :
  LegalOfficerEndpoint -> FetchLocRequestSpecification -> result (list LocRequest.t).
Variable net : Network.
Variable networkState : MultiSourceHttpClientState.
Variable currentAddress : string.
Variable allEndpointsFailed : list (LegalOfficerEndpoint * JsError) -> JsError.

Local Abbreviation fetchAll :=
  (Http.fetchAll put_loc_request net networkState currentAddress allEndpointsFailed).
Local Abbreviation contribution := (Http.contribution put_loc_request).

Lemma aggregate_fetched specs (settled : list LegalOfficerEndpoint) :
  aggregateArrays
    (omap (fun endpoint =>
             match put_loc_request endpoint specs with
             | Ok r => Some (url endpoint, r)
             | Throw _ => None
             end) settled)
  = concat (contribution specs <$> settled).
Proof.
  unfold aggregateArrays, Http.contribution.
  induction settled as [|endpoint settled IH]; simpl; [reflexivity |].
  destruct (put_loc_request endpoint specs) as [requests|e]; simpl.
  - f_equal. exact IH.
  - exact IH.
Qed.

Lemma concat_contributions_Permutation {A B} (f : A -> list B) (l l' : list A) :
  Permutation l l' -> Permutation (concat (f <$> l)) (concat (f <$> l')).
Proof.
  induction 1 as [|x l l' _ IH|x y l|l l' l'' _ IH1 _ IH2]; simpl.
  - constructor.
  - now apply Permutation_app_head.
  - rewrite !app_assoc. apply Permutation_app_tail, Permutation_app_comm.
  - now transitivity (concat (f <$> l')).
Qed.

(** The answers gathered are empty exactly when no endpoint answered, the
    failures exactly when none failed. *)
Lemma answers_nil specs (settled : list LegalOfficerEndpoint) :
  omap (fun endpoint =>
          match put_loc_request endpoint specs with
          | Ok r => Some (url endpoint, r)
          | Throw _ => None
          end) settled = []
  <-> forall endpoint, In endpoint settled ->
                       exists e, put_loc_request endpoint specs = Throw e.
Proof.
  induction settled as [|a settled IH]; simpl.
  - split; [intros _ endpoint [] | reflexivity].
  - destruct (put_loc_request a specs) as [r|e] eqn:E; simpl.
    + split; [discriminate |]. intros H.
      destruct (H a (or_introl eq_refl)) as (e & He). congruence.
    + rewrite IH. split.
      * intros H endpoint [<-|Hin]; eauto.
      * intros H endpoint Hin. apply H. now right.
Qed.

Lemma failures_nil specs (settled : list LegalOfficerEndpoint) :
  omap (fun endpoint =>
          match put_loc_request endpoint specs with
          | Ok _ => None
          | Throw e => Some (endpoint, e)
          end) settled = []
  <-> forall endpoint, In endpoint settled ->
                       exists r, put_loc_request endpoint specs = Ok r.
Proof.
  induction settled as [|a settled IH]; simpl.
  - split; [intros _ endpoint [] | reflexivity].
  - destruct (put_loc_request a specs) as [r|e] eqn:E; simpl.
    + rewrite IH. split.
      * intros H endpoint [<-|Hin]; eauto.
      * intros H endpoint Hin. apply H. now right.
    + split; [discriminate |]. intros H.
      destruct (H a (or_introl eq_refl)) as (r & Hr). congruence.
Qed.

(** The two ways a fetch ends. *)
Lemma fetchAll_cases (params : option FetchAllLocsParams) :
  let endpoints :=
    nodesUp (initMultiSourceHttpClientState networkState (params ≫= legalOfficers)) in
  let specs := default (defaultSpec currentAddress) (params ≫= spec) in
  (endpoints <> []
   /\ (forall endpoint, In endpoint endpoints ->
                        exists e, put_loc_request endpoint specs = Throw e)
   /\ exists e, fetchAll params = Throw e)
  \/ ((endpoints = []
       \/ exists endpoint requests,
            In endpoint endpoints /\ put_loc_request endpoint specs = Ok requests)
      /\ fetchAll params
         = Ok (concat (contribution specs <$> settleOrder net endpoints))).
Proof.
  intros endpoints specs.
  pose proof (settleOrder_permutation net endpoints) as Hperm.
  pose proof (answers_nil specs (settleOrder net endpoints)) as Hanswers.
  pose proof (failures_nil specs (settleOrder net endpoints)) as Hfailures.
  pose proof (aggregate_fetched specs (settleOrder net endpoints)) as Hagg.
  unfold Http.fetchAll, fetch.
  fold endpoints. fold specs.
  set (fetched := gather net _ _).
  assert (Ea : multiResponse fetched
               = omap (fun endpoint =>
                         match put_loc_request endpoint specs with
                         | Ok r => Some (url endpoint, r)
                         | Throw _ => None
                         end) (settleOrder net endpoints)) by reflexivity.
  assert (Ef : failures fetched
               = omap (fun endpoint =>
                         match put_loc_request endpoint specs with
                         | Ok _ => None
                         | Throw e => Some (endpoint, e)
                         end) (settleOrder net endpoints)) by reflexivity.
  rewrite <- Ea in Hanswers, Hagg. rewrite <- Ef in Hfailures.
  clearbody fetched.
  destruct (multiResponse fetched) as [|answer answers].
  - destruct (failures fetched) as [|failure rest].
    + right. cbn [bind]. rewrite Hagg. split; [| reflexivity]. left.
      destruct endpoints as [|endpoint endpoints']; [reflexivity | exfalso].
      assert (Hin : In endpoint (settleOrder net (endpoint :: endpoints')))
        by (apply (Permutation_in _ (Permutation_sym Hperm)); now left).
      destruct (proj1 Hanswers eq_refl _ Hin) as (e & He).
      destruct (proj1 Hfailures eq_refl _ Hin) as (r & Hr). congruence.
    + left. split; [| split; [| cbn [bind]; eauto]].
      * intros E. rewrite E in Hperm. apply Permutation_sym, Permutation_nil in Hperm.
        rewrite E, Hperm in Ef. discriminate.
      * intros endpoint Hin. apply (proj1 Hanswers eq_refl).
        apply (Permutation_in _ (Permutation_sym Hperm)), Hin.
  - right. split.
    + right.
      assert (Hex : exists endpoint,
                 In endpoint (settleOrder net endpoints)
                 /\ exists r, put_loc_request endpoint specs = Ok r).
      { clear -Ea. revert Ea. induction (settleOrder net endpoints) as [|a l IH]; simpl.
        - discriminate.
        - intros H. destruct (put_loc_request a specs) as [r|e] eqn:E.
          + exists a. split; [now left | eauto].
          + simpl in H. destruct (IH H) as (x & Hx & Hr).
            exists x. split; [now right | exact Hr]. }
      destruct Hex as (endpoint & Hin & r & Hr).
      exists endpoint, r. split; [| exact Hr].
      apply (Permutation_in _ Hperm), Hin.
    + destruct (failures fetched); cbn [bind]; now rewrite Hagg.
Qed.

Lemma In_concat_fmap {A B} (f : A -> list B) (l : list A) b :
  In b (concat (f <$> l)) <-> exists a, In a l /\ In b (f a).
Proof.
  induction l as [|x l IH]; simpl.
  - split; [intros [] | intros (a & [] & _)].
  - rewrite in_app_iff, IH. split.
    + intros [H|(a & Ha & Hb)]; eauto.
    + intros (a & [<-|Ha] & Hb); eauto.
Qed.

Lemma concat_fmap_split {A B} (f : A -> list B) (l : list A) a :
  In a l -> exists before after, concat (f <$> l) = before ++ f a ++ after.
Proof.
  induction l as [|x l IH]; [intros [] |].
  change (concat (f <$> x :: l)) with (f x ++ concat (f <$> l)).
  intros [->|Hin].
  - exists [], (concat (f <$> l)). reflexivity.
  - destruct (IH Hin) as (before & after & ->).
    exists (f x ++ before), after. now rewrite <- app_assoc.
Qed.

(** C2 (as amended). When at least one endpoint answers, or when there is
    no endpoint to query, [fetchAll] raises no error and returns the
    flattened concatenation, in the order the queries settled, of the
    arrays of the endpoints that answered.  In what it returns, the array
    of every endpoint that answered appears whole and in its own order,
    whichever other endpoints failed; every request comes from an endpoint
    that answered, a failed endpoint contributing nothing; and the whole is
    a rearrangement of the successful arrays taken in endpoint order.  When
    there are endpoints and every one of them fails, [fetchAll] raises an
    error.  With three endpoints where the second fails and the others
    return one item each, it returns exactly those two items. *)
Theorem C2_fetchAll_aggregates (params : option FetchAllLocsParams) :
  let endpoints :=
    nodesUp (initMultiSourceHttpClientState networkState (params ≫= legalOfficers)) in
  let specs := default (defaultSpec currentAddress) (params ≫= spec) in
  ((endpoints = []
    \/ exists endpoint requests,
         In endpoint endpoints /\ put_loc_request endpoint specs = Ok requests) ->
   fetchAll params = Ok (concat (contribution specs <$> settleOrder net endpoints)))
  /\ (endpoints <> [] ->
      (forall endpoint, In endpoint endpoints ->
                        exists e, put_loc_request endpoint specs = Throw e) ->
      exists e, fetchAll params = Throw e)
  /\ (forall all,
        fetchAll params = Ok all ->
        Permutation all (concat (contribution specs <$> endpoints))
        /\ (forall endpoint requests,
              In endpoint endpoints ->
              put_loc_request endpoint specs = Ok requests ->
              exists before after, all = before ++ requests ++ after)
        /\ (forall request,
              In request all ->
              exists endpoint requests,
                In endpoint endpoints
                /\ put_loc_request endpoint specs = Ok requests
                /\ In request requests))
  /\ (forall A B C a c e,
        endpoints = [A; B; C] ->
        put_loc_request A specs = Ok [a] ->
        put_loc_request B specs = Throw e ->
        put_loc_request C specs = Ok [c] ->
        exists requests,
          fetchAll params = Ok requests
          /\ length requests = 2%nat
          /\ Permutation requests [a; c]).
Proof.
  intros endpoints specs.
  pose proof (settleOrder_permutation net endpoints) as Hperm.
  pose proof (fetchAll_cases params) as Hcases. cbv zeta in Hcases.
  fold endpoints in Hcases. fold specs in Hcases.
  assert (Hsome : (endpoints = []
                   \/ exists endpoint requests,
                        In endpoint endpoints
                        /\ put_loc_request endpoint specs = Ok requests) ->
                  fetchAll params
                  = Ok (concat (contribution specs <$> settleOrder net endpoints))).
  { intros Hs. destruct Hcases as [(Hne & Hall & _)|[_ H]]; [exfalso | exact H].
    destruct Hs as [->|(endpoint & requests & Hin & Hok)]; [now apply Hne |].
    destruct (Hall endpoint Hin) as (e & He). congruence. }
  split; [exact Hsome |]. split; [| split].
  - intros Hne Hall. destruct Hcases as [(_ & _ & H)|[Hs _]]; [exact H | exfalso].
    destruct Hs as [->|(endpoint & requests & Hin & Hok)]; [now apply Hne |].
    destruct (Hall endpoint Hin) as (e & He). congruence.
  - intros all Hall.
    destruct Hcases as [(_ & _ & e & He)|[_ H]]; [congruence |].
    rewrite H in Hall. injection Hall as <-.
    split; [now apply concat_contributions_Permutation |]. split.
    + intros endpoint requests Hin Hok.
      destruct (concat_fmap_split (contribution specs) (settleOrder net endpoints) endpoint)
        as (before & after & E).
      { apply (Permutation_in _ (Permutation_sym Hperm)), Hin. }
      exists before, after. rewrite E. unfold Http.contribution. now rewrite Hok.
    + intros request Hin. apply In_concat_fmap in Hin.
      destruct Hin as (endpoint & Hin & Hreq).
      unfold Http.contribution in Hreq.
      destruct (put_loc_request endpoint specs) as [requests|e] eqn:E; [| destruct Hreq].
      exists endpoint, requests. split; [| auto].
      apply (Permutation_in _ Hperm), Hin.
  - intros A B C a c e Hup HA HB HC.
    eexists. split.
    { apply Hsome. right. exists A, [a]. split; [rewrite Hup; now left | exact HA]. }
    assert (P : Permutation (concat (contribution specs <$> settleOrder net endpoints))
                            [a; c]).
    { rewrite (concat_contributions_Permutation (contribution specs) _ _ Hperm).
      rewrite Hup. unfold Http.contribution; simpl. rewrite HA, HB, HC. reflexivity. }
    split; [| exact P].
    apply Permutation_length in P. exact P.
Qed.

End AggregatorFacts.

(** ** Reconciliation of on-chain entries with their backend companions *)

Section ReconcilerFacts.
Import Js Hash NodeApi Types LocClient.
Variable newTermsAndConditions :
  list NodeApi.TermsAndConditionsElement.t ->
  list OffchainTermsAndConditionsElement.t ->
  list MergedTermsAndConditionsElement.t.

Local Abbreviation getCollectionItem := (LocClient.getCollectionItem newTermsAndConditions).
Local Abbreviation getCollectionItems := (LocClient.getCollectionItems newTermsAndConditions).
Local Abbreviation mergeItems := (LocClient.mergeItems newTermsAndConditions).




(** *** Reading a record filled by assignments *)

Lemma read_assign {T} (properties : T -> list string) (map : PlainObject.t T) k' v k x :
  PlainObject.read properties (PlainObject.assign map k' v) k = PlainObject.Entry x ->
  (k = k' /\ x = v) \/ PlainObject.read properties map k = PlainObject.Entry x.
Proof.
  unfold PlainObject.read, PlainObject.assign.
  destruct (String.eqb_spec k' "__proto__") as [->|Hk']; cbn [PlainObject.own PlainObject.proto].
  - destruct (String.eqb_spec k "__proto__") as [->|Hk].
    + intros [= <-]. now left.
    + destruct (PlainObject.own map !! k); [intros H; now right |].
      destruct (_ || _); discriminate.
  - destruct (String.eqb_spec k "__proto__") as [->|Hk].
    + intros H. now right.
    + destruct (decide (k' = k)) as [->|Hne].
      * rewrite lookup_insert_eq. intros [= <-]. now left.
      * rewrite lookup_insert_ne by exact Hne. intros H. now right.
Qed.

Lemma read_assign_same {T} (properties : T -> list string) (map : PlainObject.t T) k v :
  PlainObject.read properties (PlainObject.assign map k v) k = PlainObject.Entry v.
Proof.
  unfold PlainObject.read, PlainObject.assign.
  destruct (String.eqb_spec k "__proto__") as [->|Hk]; cbn [PlainObject.own PlainObject.proto].
  - reflexivity.
  - destruct (String.eqb_spec k "__proto__"); [contradiction |].
    now rewrite lookup_insert_eq.
Qed.

Lemma read_assign_keeps {T} (properties : T -> list string) (map : PlainObject.t T) k' v k x :
  PlainObject.read properties map k = PlainObject.Entry x ->
  exists y, PlainObject.read properties (PlainObject.assign map k' v) k = PlainObject.Entry y.
Proof.
  intros H. destruct (decide (k = k')) as [->|Hne].
  - rewrite read_assign_same. eauto.
  - revert H. unfold PlainObject.read, PlainObject.assign.
    destruct (String.eqb_spec k' "__proto__") as [->|Hk'];
      cbn [PlainObject.own PlainObject.proto].
    + destruct (String.eqb_spec k "__proto__"); [contradiction |].
      destruct (PlainObject.own map !! k); [eauto |].
      destruct (_ || _); discriminate.
    + destruct (String.eqb_spec k "__proto__"); [eauto |].
      rewrite lookup_insert_ne by congruence. eauto.
Qed.

(** An entry read from a record filled from a list is an element of the
    list, stored under its key. *)
Lemma toRecord_read {T} (key : T -> string) (properties : T -> list string) (l : list T) k x :
  PlainObject.read properties (toRecord key l) k = PlainObject.Entry x ->
  key x = k /\ In x l.
Proof.
  unfold toRecord.
  assert (H : forall (l : list T) (map : PlainObject.t T),
             PlainObject.read properties
               (foldl (fun map x => PlainObject.assign map (key x) x) map l) k
             = PlainObject.Entry x ->
             (key x = k /\ In x l) \/ PlainObject.read properties map k = PlainObject.Entry x).
  { clear. induction l as [|a l IH]; intros map Hl; simpl in *.
    - now right.
    - destruct (IH _ Hl) as [[Hk Hin]|Hm].
      + left. auto.
      + apply read_assign in Hm. destruct Hm as [[-> ->]|Hm]; [left; auto | now right]. }
  intros Hl. destruct (H l _ Hl) as [G|G]; [exact G |].
  unfold PlainObject.read, PlainObject.empty in G.
  cbn [PlainObject.own PlainObject.proto] in G.
  destruct (String.eqb k "__proto__"); [discriminate |].
  rewrite lookup_empty in G. destruct (_ || _); discriminate.
Qed.

(** Under the key of an element of the list, the record holds an entry. *)
Lemma toRecord_read_listed {T} (key : T -> string) (properties : T -> list string)
      (l : list T) x :
  In x l -> exists y, PlainObject.read properties (toRecord key l) (key x) = PlainObject.Entry y.
Proof.
  unfold toRecord.
  assert (H : forall (l : list T) (map : PlainObject.t T) k,
             (exists y, PlainObject.read properties map k = PlainObject.Entry y)
             \/ (exists x, In x l /\ key x = k) ->
             exists y,
               PlainObject.read properties
                 (foldl (fun map x => PlainObject.assign map (key x) x) map l) k
               = PlainObject.Entry y).
  { clear. induction l as [|a l IH]; intros map k [Hm|(x & Hin & Hk)]; simpl.
    - exact Hm.
    - destruct Hin.
    - apply IH. left. destruct Hm as (y & Hy). eapply read_assign_keeps, Hy.
    - destruct Hin as [->|Hin].
      + apply IH. left. subst. rewrite read_assign_same. eauto.
      + apply IH. right. eauto. }
  intros Hin. apply H. right. eauto.
Qed.

(** Under a key that no element of the list has, the record holds no
    entry; what is read there is [undefined] unless the key is found along
    the prototype chain. *)
Lemma toRecord_read_absent {T} (key : T -> string) (properties : T -> list string)
      (l : list T) k :
  (forall x, In x l -> key x <> k) ->
  (PlainObject.read properties (toRecord key l) k = PlainObject.Foreign
   \/ PlainObject.read properties (toRecord key l) k = PlainObject.Undefined)
  /\ (PlainObject.isMember k PlainObject.prototypeMembers = false ->
      (forall x, In x l -> key x <> "__proto__") ->
      PlainObject.read properties (toRecord key l) k = PlainObject.Undefined).
Proof.
  intros Hnone. split.
  - destruct (PlainObject.read properties (toRecord key l) k) as [x| |] eqn:E; auto.
    apply toRecord_read in E. destruct E as [Hk Hin]. now destruct (Hnone x Hin).
  - intros Hk Hproto.
    assert (Hp : PlainObject.proto (toRecord key l) = None).
    { unfold toRecord.
      assert (H : forall (l : list T) (map : PlainObject.t T),
                 (forall x, In x l -> key x <> "__proto__") ->
                 PlainObject.proto map = None ->
                 PlainObject.proto
                   (foldl (fun map x => PlainObject.assign map (key x) x) map l) = None).
      { clear. induction l as [|a l IH]; intros map Hl Hm; simpl; [exact Hm |].
        apply IH; [intros x Hx; apply Hl; now right |].
        unfold PlainObject.assign.
        destruct (String.eqb_spec (key a) "__proto__") as [E|E]; [| exact Hm].
        now destruct (Hl a (or_introl eq_refl)). }
      apply H; [exact Hproto | reflexivity]. }
    destruct (PlainObject.read properties (toRecord key l) k) as [x| |] eqn:E.
    + apply toRecord_read in E. destruct E as [Hk' Hin]. now destruct (Hnone x Hin).
    + exfalso. revert E. unfold PlainObject.read. rewrite Hp, Hk.
      destruct (String.eqb_spec k "__proto__") as [->|_]; [discriminate |].
      destruct (PlainObject.own _ !! k); discriminate.
    + reflexivity.
Qed.


Lemma mapM_In {A B} (f : A -> result B) (l : list A) bs b :
  mapM f l = Ok bs -> In b bs -> exists a, In a l /\ f a = Ok b.
Proof.
  revert bs. induction l as [|a l IH]; simpl; intros bs H Hin.
  - injection H as <-. destruct Hin.
  - destruct (f a) as [b'|e] eqn:Fa; [| discriminate].
    destruct (mapM f l) as [bs'|e]; [| discriminate]. injection H as <-.
    destruct Hin as [<-|Hin]; [eauto |].
    destruct (IH _ eq_refl Hin) as (a' & Ha & Hf). eauto.
Qed.

Lemma mapM_Throw {A B} (f : A -> result B) (l : list A) a e :
  In a l -> f a = Throw e -> exists e', mapM f l = Throw e'.
Proof.
  induction l as [|x l IH]; simpl; intros Hin Hf; [destruct Hin |].
  destruct (f x) as [b|e'] eqn:Fx; [| eauto].
  destruct Hin as [->|Hin]; [congruence |].
  destruct (IH Hin Hf) as (e' & ->). eauto.
Qed.

Lemma mapM_Throw_inv {A B} (f : A -> result B) (l : list A) e :
  mapM f l = Throw e -> exists a, In a l /\ f a = Throw e.
Proof.
  induction l as [|x l IH]; simpl; intros H; [discriminate |].
  destruct (f x) as [b|e'] eqn:Fx.
  - destruct (mapM f l) as [bs|e'']; [discriminate |]. injection H as ->.
    destruct (IH eq_refl) as (a & Ha & Hf). eauto.
  - injection H as ->. eauto.
Qed.

Lemma In_chain_items w locId item :
  In item (World.queries_getCollectionItems w locId)
  <-> In (locId, item) (World.collectionItems w).
Proof.
  unfold World.queries_getCollectionItems. split.
  - intros H. apply in_map_iff in H. destruct H as ([l i] & <- & H).
    apply filter_In in H. destruct H as [H E]. simpl in E.
    apply String.eqb_eq in E. now subst.
  - intros H. apply in_map_iff. exists (locId, item). split; [reflexivity |].
    apply filter_In. split; [exact H |]. simpl. apply String.eqb_refl.
Qed.




End ReconcilerFacts.

(** ** Issuers of a LOC *)

Section IssuerFacts.
Import Js Hash NodeApi Types AuthenticatedLocClient.
Variable toDecimalString : string -> string.

Local Abbreviation getLocIssuers current :=
  (AuthenticatedLocClient.getLocIssuers toDecimalString (Some current)).

Lemma maySeeIdentities_spec current request nodeIssuers :
  maySeeIdentities current request
    (list_to_set (VerifiedIssuerType.address <$> nodeIssuers)) = true
  <-> isRequester current request \/ isOwner current request
      \/ isSelectedIssuer current nodeIssuers.
Proof.
  unfold maySeeIdentities, isRequester, isOwner, isSelectedIssuer.
  rewrite !orb_true_iff, bool_decide_eq_true, elem_of_list_to_set, list_elem_of_In.
  rewrite andb_true_iff, !String.eqb_eq.
  split.
  - intros [[H|H]|H]; [left | right; left | right; right]; auto.
    destruct (LocRequest.requesterAddress request) as [requester|]; [| discriminate].
    apply andb_true_iff in H. rewrite !String.eqb_eq in H.
    exists requester. tauto.
  - intros [(requester & -> & H1 & H2)|[H|H]]; auto.
    left. left. apply andb_true_iff. now rewrite !String.eqb_eq.
Qed.

Lemma orEmpty_id s : orEmpty s = s.
Proof.
  unfold orEmpty, truthyString. destruct (String.eqb_spec s ""); simpl; congruence.
Qed.

(** The issuers computed once the status and the ledger lookups are known. *)
Lemma getLocIssuers_open current request locBatch nodeIssuers res :
  getLocIssuers current request locBatch = Ok res ->
  isOpenOrClosed (LocRequest.status request) = true ->
  LocBatch.getLocsVerifiedIssuers locBatch !! toDecimalString (LocRequest.id request)
    = Some nodeIssuers ->
  LocVerifiedIssuers.issuers res =
  if maySeeIdentities current request
       (list_to_set (VerifiedIssuerType.address <$> nodeIssuers))
  then (backendIssuer (list_to_set (VerifiedIssuerType.address <$> nodeIssuers))
          <$> LocRequest.selectedIssuers request)
       ++ (nodeIssuer (Some true) <$>
             List.filter
               (fun issuer =>
                  negb (bool_decide
                          (VerifiedIssuerType.address issuer
                             ∈ (list_to_set (VerifiedIssuerIdentity.address
                                               <$> LocRequest.selectedIssuers request)
                                : gset string))))
               nodeIssuers)
  else nodeIssuer None <$> nodeIssuers.
Proof.
  unfold AuthenticatedLocClient.getLocIssuers. intros H Hs Hn. rewrite Hs in H. simpl in H.
  match type of H with
  | bind ?v _ = _ => destruct v as [verified|e]; [| discriminate]
  end.
  simpl in H. rewrite Hn in H. simpl in H. injection H as <-. reflexivity.
Qed.

(** C5 (as amended). For a LOC that is OPEN or CLOSED and a caller who is
    the requester, the owner or a selected issuer, the call returns, and in
    the list it returns: every issuer the backend
    lists is included with its identity and with [selected] telling whether
    the ledger has selected it, so [false] as long as the ledger does not
    reflect it; every issuer the ledger has selected and the backend does not
    list is added with blank first and last name and [selected = true]. *)
Theorem C5_issuers_reconciled current request locBatch nodeIssuers :
  isOpenOrClosed (LocRequest.status request) = true ->
  LocBatch.getLocsVerifiedIssuers locBatch !! toDecimalString (LocRequest.id request)
    = Some nodeIssuers ->
  (LocRequest.locType request = Identity ->
   LocRequest.status request = CLOSED ->
   is_Some (LocBatch.getAvailableVerifiedIssuers locBatch
              !! LocRequest.ownerAddress request)) ->
  isRequester current request \/ isOwner current request
    \/ isSelectedIssuer current nodeIssuers ->
  exists res,
  getLocIssuers current request locBatch = Ok res /\
  (forall backendKnown,
      In backendKnown (LocRequest.selectedIssuers request) ->
      exists issuer,
        In issuer (LocVerifiedIssuers.issuers res)
        /\ VerifiedIssuer.address issuer = VerifiedIssuerIdentity.address backendKnown
        /\ VerifiedIssuer.identityLocId issuer
           = VerifiedIssuerIdentity.identityLocId backendKnown
        /\ VerifiedIssuer.firstName issuer
           = UserIdentity.firstName (VerifiedIssuerIdentity.identity backendKnown)
        /\ VerifiedIssuer.lastName issuer
           = UserIdentity.lastName (VerifiedIssuerIdentity.identity backendKnown)
        /\ (In (VerifiedIssuerIdentity.address backendKnown)
               (VerifiedIssuerType.address <$> nodeIssuers) ->
            VerifiedIssuer.selected issuer = Some true)
        /\ (~ In (VerifiedIssuerIdentity.address backendKnown)
                 (VerifiedIssuerType.address <$> nodeIssuers) ->
            VerifiedIssuer.selected issuer = Some false))
  /\ (forall chainSelected,
        In chainSelected nodeIssuers ->
        ~ In (VerifiedIssuerType.address chainSelected)
             (VerifiedIssuerIdentity.address <$> LocRequest.selectedIssuers request) ->
        In {| VerifiedIssuer.identityLocId := VerifiedIssuerType.identityLocId chainSelected;
              VerifiedIssuer.address := VerifiedIssuerType.address chainSelected;
              VerifiedIssuer.firstName := "";
              VerifiedIssuer.lastName := "";
              VerifiedIssuer.selected := Some true |}
           (LocVerifiedIssuers.issuers res)).
Proof.
  intros Hs Hn Hav Hpriv.
  assert (Hret : exists res, getLocIssuers current request locBatch = Ok res).
  { unfold AuthenticatedLocClient.getLocIssuers. rewrite Hs, Hn. simpl.
    destruct (LocRequest.locType request) eqn:Ht;
      destruct (LocRequest.status request) eqn:Hst;
      try (eexists; reflexivity).
    destruct (Hav eq_refl eq_refl) as (available & ->). eexists. reflexivity. }
  destruct Hret as (res & Hres). exists res. split; [exact Hres |].
  rewrite (getLocIssuers_open _ _ _ _ _ Hres Hs Hn).
  apply maySeeIdentities_spec in Hpriv. rewrite Hpriv.
  split.
  - intros backendKnown Hin.
    exists (backendIssuer (list_to_set (VerifiedIssuerType.address <$> nodeIssuers))
                          backendKnown).
    split; [apply in_or_app; left; now apply in_map |].
    unfold backendIssuer; simpl. rewrite !orEmpty_id.
    repeat split.
    + intros H. f_equal. apply bool_decide_eq_true.
      now rewrite elem_of_list_to_set, list_elem_of_In.
    + intros H. f_equal. apply bool_decide_eq_false.
      now rewrite elem_of_list_to_set, list_elem_of_In.
  - intros chainSelected Hin Habs.
    apply in_or_app; right.
    change (In (nodeIssuer (Some true) chainSelected)
               (nodeIssuer (Some true) <$>
                  List.filter
                    (fun issuer =>
                       negb (bool_decide
                               (VerifiedIssuerType.address issuer
                                  ∈ (list_to_set (VerifiedIssuerIdentity.address
                                                    <$> LocRequest.selectedIssuers request)
                                     : gset string))))
                    nodeIssuers)).
    apply in_map, filter_In. split; [exact Hin |].
    apply negb_true_iff, bool_decide_eq_false.
    now rewrite elem_of_list_to_set, list_elem_of_In.
Qed.

(** C9. A caller who is neither the requester, nor the owner, nor an issuer
    the ledger has selected sees every issuer with empty first and last
    name, and what the call returns does not depend on the issuers (and
    their identities) that the backend lists in the request. *)
Theorem C9_identities_withheld current request request' locBatch :
  ~ isRequester current request ->
  ~ isOwner current request ->
  (forall nodeIssuers,
      LocBatch.getLocsVerifiedIssuers locBatch !! toDecimalString (LocRequest.id request)
        = Some nodeIssuers ->
      ~ isSelectedIssuer current nodeIssuers) ->
  (forall res,
      getLocIssuers current request locBatch = Ok res ->
      Forall (fun issuer => VerifiedIssuer.firstName issuer = ""
                            /\ VerifiedIssuer.lastName issuer = "")
             (LocVerifiedIssuers.issuers res))
  /\ (forall nodeIssuers,
        isOpenOrClosed (LocRequest.status request) = true ->
        LocBatch.getLocsVerifiedIssuers locBatch !! toDecimalString (LocRequest.id request)
          = Some nodeIssuers ->
        (LocRequest.locType request = Identity ->
         LocRequest.status request = CLOSED ->
         is_Some (LocBatch.getAvailableVerifiedIssuers locBatch
                    !! LocRequest.ownerAddress request)) ->
        exists verifiedIssuer,
          getLocIssuers current request locBatch
          = Ok {| LocVerifiedIssuers.verifiedIssuer := verifiedIssuer;
                  LocVerifiedIssuers.issuers := nodeIssuer None <$> nodeIssuers |})
  /\ (sameButIssuers request request' ->
      getLocIssuers current request' locBatch = getLocIssuers current request locBatch).
Proof.
  intros Hreq Hown Hsel.
  assert (Hno : forall nodeIssuers,
             LocBatch.getLocsVerifiedIssuers locBatch !! toDecimalString (LocRequest.id request)
               = Some nodeIssuers ->
             maySeeIdentities current request
               (list_to_set (VerifiedIssuerType.address <$> nodeIssuers)) = false).
  { intros nodeIssuers Hn. apply not_true_iff_false. rewrite maySeeIdentities_spec.
    specialize (Hsel nodeIssuers Hn). tauto. }
  split; [| split].
  - intros res Hres.
    destruct (isOpenOrClosed (LocRequest.status request)) eqn:Hs.
    + destruct (LocBatch.getLocsVerifiedIssuers locBatch
                  !! toDecimalString (LocRequest.id request)) as [nodeIssuers|] eqn:Hn.
      * rewrite (getLocIssuers_open _ _ _ _ _ Hres Hs Hn), (Hno _ eq_refl).
        apply Forall_forall. intros issuer Hin.
        apply list_elem_of_In, in_map_iff in Hin. destruct Hin as (n & <- & _).
        split; reflexivity.
      * exfalso. unfold AuthenticatedLocClient.getLocIssuers in Hres.
        rewrite Hs, Hn in Hres. simpl in Hres.
        match type of Hres with
        | bind ?v _ = _ => destruct v; discriminate
        end.
    + unfold AuthenticatedLocClient.getLocIssuers in Hres. rewrite Hs in Hres.
      injection Hres as <-. constructor.
  - intros nodeIssuers Hs Hn Hav.
    unfold AuthenticatedLocClient.getLocIssuers. rewrite Hs, Hn. simpl.
    rewrite (Hno _ Hn).
    destruct (LocRequest.locType request) eqn:Ht;
      destruct (LocRequest.status request) eqn:Hst;
      try (eexists; reflexivity).
    destruct (Hav eq_refl eq_refl) as (available & ->). eexists. reflexivity.
  - intros (Eo & Er & Et & Ei & Es).
    unfold AuthenticatedLocClient.getLocIssuers.
    rewrite <- Eo, <- Er, <- Et, <- Ei, <- Es.
    destruct (isOpenOrClosed (LocRequest.status request)); [| reflexivity]. simpl.
    match goal with
    | |- bind ?v _ = _ => destruct v as [verified|e]; [| reflexivity]
    end.
    simpl.
    destruct (LocBatch.getLocsVerifiedIssuers locBatch
                !! toDecimalString (LocRequest.id request)) as [nodeIssuers|] eqn:Hn;
      [| reflexivity].
    simpl.
    assert (maySeeIdentities current request'
              (list_to_set (VerifiedIssuerType.address <$> nodeIssuers))
            = maySeeIdentities current request
                (list_to_set (VerifiedIssuerType.address <$> nodeIssuers))) as ->.
    { unfold maySeeIdentities. now rewrite Eo, Er. }
    rewrite (Hno _ eq_refl). reflexivity.
Qed.

End IssuerFacts.

(** ** Content addressing of file payloads *)

Section FileFacts.
Import Js.
Variable hashOf : string -> Hash.Hash.

Local Abbreviation finalize := (ItemFileWithContent.finalize hashOf).

Lemma Hash_finalize_idempotent h :
  Hash.finalize hashOf (Hash.finalize hashOf h) = Hash.finalize hashOf h.
Proof.
  unfold Hash.finalize.
  destruct h as [hh [content|] hs [|]]; reflexivity.
Qed.

Lemma finalize_again this : finalize (snd (finalize this)) = finalize this.
Proof.
  destruct this as [name contentType size h].
  unfold ItemFileWithContent.finalize.
  cbn [ItemFileWithContent._name ItemFileWithContent._contentType
       ItemFileWithContent._size ItemFileWithContent._hashOrContent].
  destruct (Hash.hasContent (Hash.finalize hashOf h)) eqn:Hc;
    [| cbn [snd ItemFileWithContent._name ItemFileWithContent._contentType
            ItemFileWithContent._size ItemFileWithContent._hashOrContent];
       rewrite Hash_finalize_idempotent, Hc; reflexivity].
  destruct (Hash.size (Hash.finalize hashOf h)) as [contentSize|e] eqn:Hsz;
    [| cbn [snd ItemFileWithContent._name ItemFileWithContent._contentType
            ItemFileWithContent._size ItemFileWithContent._hashOrContent];
       rewrite Hash_finalize_idempotent, Hc, Hsz; reflexivity].
  destruct size as [given|];
    cbn [truthyOptBigint negb];
    [destruct (truthyBigint given) eqn:Hg; cbn [negb];
     [destruct (given =? contentSize)%Z eqn:He; cbn [negb] |] |];
    cbn [snd ItemFileWithContent._name ItemFileWithContent._contentType
         ItemFileWithContent._size ItemFileWithContent._hashOrContent];
    rewrite Hash_finalize_idempotent, Hc, Hsz;
    cbn [truthyOptBigint negb]; rewrite ?Hg; cbn [negb]; rewrite ?He; cbn [negb];
    try reflexivity.
  - unfold truthyBigint in Hg. apply negb_false_iff in Hg.
    destruct (truthyBigint contentSize) eqn:Hcs; cbn [negb].
    + rewrite Z.eqb_refl. cbn [negb].
      apply Z.eqb_eq in Hg. subst given.
      unfold truthyBigint in Hcs. destruct (contentSize =? 0)%Z eqn:E.
      * discriminate.
      * reflexivity.
    + reflexivity.
  - destruct (truthyBigint contentSize) eqn:Hcs; cbn [negb].
    + rewrite Z.eqb_refl. reflexivity.
    + reflexivity.
Qed.

Lemma finalize_stable this n :
  Nat.iter n (fun file => snd (finalize file)) (snd (finalize this)) = snd (finalize this).
Proof.
  induction n as [|n IH]; simpl; [reflexivity |].
  rewrite IH, finalize_again. reflexivity.
Qed.

(** Finalizing is idempotent: a second [finalize] has the
    outcome of the first and leaves the object, with its hash and size, as
    the first left it, and so does any number of further calls.  On a file
    with content, [finalize] fails with the size mismatch error exactly when
    the declared size is not zero and differs from the size of the content;
    a declared size of zero counts as no declared size and is replaced by
    the size of the content.  A file given by its hash is left as it is. *)
Theorem finalize_idempotent (this : ItemFileWithContent.t) :
  finalize (snd (finalize this)) = finalize this
  /\ (forall n,
        Nat.iter n (fun file => snd (finalize file)) (snd (finalize this))
        = snd (finalize this))
  /\ (forall content,
        ItemFileWithContent._hashOrContent this = Hash.fromContent content ->
        let contentSize := Z.of_nat (String.length content) in
        Hash.contentHash (ItemFileWithContent._hashOrContent (snd (finalize this)))
          = Ok (hashOf content)
        /\ ((exists e, fst (finalize this) = Throw e) <->
            (exists given,
                ItemFileWithContent._size this = Some given
                /\ given <> 0%Z /\ given <> contentSize))
        /\ (forall given,
              ItemFileWithContent._size this = Some given ->
              given <> 0%Z -> given <> contentSize ->
              fst (finalize this)
              = Throw (ItemFileWithContent.sizeMismatch given contentSize)
              /\ ItemFileWithContent._size (snd (finalize this)) = Some given)
        /\ (fst (finalize this) = Ok tt ->
            ItemFileWithContent._size (snd (finalize this)) = Some contentSize))
  /\ (forall hash,
        ItemFileWithContent._hashOrContent this = Hash.fromHash hash ->
        finalize this = (Ok tt, this)).
Proof.
  split; [apply finalize_again |].
  split; [apply finalize_stable |].
  split.
  - intros content Hc contentSize.
    destruct this as [name contentType size h]. simpl in Hc. subst h.
    unfold ItemFileWithContent.finalize; simpl. fold contentSize.
    destruct size as [given|]; simpl; unfold truthyBigint;
      [destruct (Z.eqb_spec given 0) as [E0|E0]; simpl;
       [| destruct (Z.eqb_spec given contentSize) as [E|E]; simpl] |];
      repeat split; intros;
      repeat match goal with
             | H : exists _, _ |- _ => destruct H
             | H : _ /\ _ |- _ => destruct H
             | H : Some _ = Some _ |- _ => injection H as H; subst
             end;
      try congruence; try discriminate; eauto.
  - intros hash Hh.
    destruct this as [name contentType size h]. simpl in Hh. subst h. reflexivity.
Qed.

End FileFacts.

(** ** Token validation *)

Section TokenFacts.
Import Js Token.
Variable JSON_parse : string -> option Json.
Variable isHex : string -> Z -> bool.
Variable isValidBech32Address : string -> string -> bool.
Variable createType_AccountId : string -> bool.

Local Abbreviation validateToken :=
  (Token.validateToken JSON_parse isHex isValidBech32Address createType_AccountId).
Local Abbreviation validTokenOrThrow :=
  (Token.validTokenOrThrow JSON_parse isHex isValidBech32Address createType_AccountId).

(** Whenever validation finds the token invalid and says why, the reason is
    left out of the error that is thrown. *)
Lemma validTokenOrThrow_drops_reason itemToken reason :
  validateToken itemToken = Ok {| valid := false; error := Some reason |} ->
  reason <> "" ->
  validTokenOrThrow itemToken = Throw (Error "Given token definition is invalid").
Proof.
  intros Hv Hr. unfold Token.validTokenOrThrow. rewrite Hv. simpl.
  unfold truthyString. destruct (String.eqb_spec reason ""); [contradiction | reflexivity].
Qed.

(** C6 (the code at the failing input). A Singular token whose id has a
    space in it is found invalid with the reason "token ID must be a valid
    Singular Kusama ID"; the error thrown is the generic one, without the
    reason. *)
Theorem C6_reason_dropped_at_failing_input :
  let itemToken := {| type := "singular_kusama"; id := "not an id"; issuance := 1 |} in
  validateToken itemToken
  = Ok {| valid := false; error := Some "token ID must be a valid Singular Kusama ID" |}
  /\ validTokenOrThrow itemToken = Throw (Error "Given token definition is invalid").
Proof.
  intros itemToken.
  assert (H : validateToken itemToken
              = Ok {| valid := false;
                      error := Some "token ID must be a valid Singular Kusama ID" |})
    by reflexivity.
  split; [exact H |].
  apply (validTokenOrThrow_drops_reason _ _ H). discriminate.
Qed.

End TokenFacts.

(** ** Announcing public data and submitting to the ledger *)

Section SubmissionFacts.
Import Js Hash NodeApi Types AuthenticatedLocClient.
Variable hashOf : string -> Hash.
Variable JSON_parse : string -> option Token.Json.
Variable isHex : string -> Z -> bool.
Variable isValidBech32Address : string -> string -> bool.
Variable createType_AccountId : string -> bool.
Variable currentAddress : option ValidAccountId.t.

Local Abbreviation addCollectionItem :=
  (AuthenticatedLocClient.addCollectionItem hashOf JSON_parse isHex isValidBech32Address
     createType_AccountId currentAddress).
Local Abbreviation checkedBeforeTerms :=
  (AuthenticatedLocClient.checkedBeforeTerms hashOf JSON_parse isHex isValidBech32Address
     createType_AccountId).
Local Abbreviation preparedCollectionItem :=
  (AuthenticatedLocClient.preparedCollectionItem hashOf JSON_parse isHex
     isValidBech32Address createType_AccountId).
Local Abbreviation addTokensRecord :=
  (AuthenticatedLocClient.addTokensRecord hashOf currentAddress).
Local Abbreviation preparedTokensRecord :=
  (AuthenticatedLocClient.preparedTokensRecord hashOf).
Local Abbreviation announceAndSubmitItem :=
  (AuthenticatedLocClient.announceAndSubmitItem hashOf currentAddress).
Local Abbreviation announceAndSubmitRecord :=
  (AuthenticatedLocClient.announceAndSubmitRecord hashOf currentAddress).

Lemma addCollectionItem_prepared parameters w :
  addCollectionItem parameters w =
  match preparedCollectionItem parameters with
  | Throw e => (Throw e, w)
  | Ok (itemFiles, item, submittable) =>
      announceAndSubmitItem (AddCollectionItemParams.locId parameters)
        (AddCollectionItemParams.itemId parameters) itemFiles item submittable w
  end.
Proof.
  unfold AuthenticatedLocClient.addCollectionItem,
    AuthenticatedLocClient.preparedCollectionItem,
    AuthenticatedLocClient.checkedBeforeTerms,
    AuthenticatedLocClient.announceAndSubmitItem.
  unfold World.mbind at 1. unfold World.lift at 1.
  destruct (AddCollectionItemParams.itemFiles parameters) as [files|]; cbn [bind].
  - destruct (finalizeAll hashOf files) as [files'|e]; cbn [bind]; [| reflexivity].
    unfold World.mbind at 1. unfold World.lift at 1.
    destruct (mapM (chainItemFile hashOf) files') as [chainItemFiles|e]; cbn [bind];
      [| reflexivity].
    destruct (default false (AddCollectionItemParams.restrictedDelivery parameters)
              && (Nat.eqb (length chainItemFiles) 0
                  || negb (bool_decide (is_Some (AddCollectionItemParams.itemToken parameters)))));
      [reflexivity |].
    unfold World.mbind at 1. unfold World.lift at 1.
    destruct (AddCollectionItemParams.itemToken parameters) as [token|]; cbn [bind].
    + destruct (validTokenOrThrow JSON_parse isHex isValidBech32Address createType_AccountId token)
        as [[]|e]; cbn [bind fst snd]; [| reflexivity].
      unfold World.mbind at 1. unfold World.lift at 1.
      destruct (AddCollectionItemParams.logionClassification parameters),
        (AddCollectionItemParams.creativeCommons parameters); cbn [bind]; try reflexivity;
        unfold World.mbind at 1; unfold World.lift at 1;
        destruct (mapM offchainItemFile files'); reflexivity.
    + unfold World.mbind at 1. unfold World.lift at 1.
      destruct (AddCollectionItemParams.logionClassification parameters),
        (AddCollectionItemParams.creativeCommons parameters); cbn [bind fst snd];
        try reflexivity;
        unfold World.mbind at 1; unfold World.lift at 1;
        destruct (mapM offchainItemFile files'); reflexivity.
  - unfold World.mbind at 1. unfold World.lift at 1. cbn [mapM length Nat.eqb orb andb].
    destruct (default false (AddCollectionItemParams.restrictedDelivery parameters));
      [reflexivity |]. cbn [andb].
    unfold World.mbind at 1. unfold World.lift at 1.
    destruct (AddCollectionItemParams.itemToken parameters) as [token|]; cbn [bind].
    + destruct (validTokenOrThrow JSON_parse isHex isValidBech32Address createType_AccountId token)
        as [[]|e]; cbn [bind fst snd]; [| reflexivity].
      unfold World.mbind at 1. unfold World.lift at 1.
      destruct (AddCollectionItemParams.logionClassification parameters),
        (AddCollectionItemParams.creativeCommons parameters); cbn [bind]; reflexivity.
    + unfold World.mbind at 1. unfold World.lift at 1.
      destruct (AddCollectionItemParams.logionClassification parameters),
        (AddCollectionItemParams.creativeCommons parameters); cbn [bind fst snd];
        reflexivity.
Qed.

Lemma addTokensRecord_prepared parameters w :
  addTokensRecord parameters w =
  match preparedTokensRecord parameters with
  | Throw e => (Throw e, w)
  | Ok (files, record, submittable) =>
      announceAndSubmitRecord (AddTokensRecordParams.locId parameters)
        (AddTokensRecordParams.recordId parameters) files record submittable w
  end.
Proof.
  unfold AuthenticatedLocClient.addTokensRecord,
    AuthenticatedLocClient.preparedTokensRecord,
    AuthenticatedLocClient.announceAndSubmitRecord.
  unfold World.mbind at 1. unfold World.lift at 1.
  destruct (finalizeAll hashOf (AddTokensRecordParams.files parameters)) as [files|e];
    cbn [bind]; [| reflexivity].
  unfold World.mbind at 1. unfold World.lift at 1.
  destruct (mapM (chainRecordFile hashOf) files) as [chainItemFiles|e]; cbn [bind];
    [| reflexivity].
  unfold World.mbind at 1. unfold World.lift at 1.
  destruct (mapM offchainRecordFile files) as [offchainFiles|e]; cbn [bind]; reflexivity.
Qed.

Lemma find_filter_out {A} (p : A -> bool) (l : list A) :
  List.find p (List.filter (fun a => negb (p a)) l) = None.
Proof.
  induction l as [|a l IH]; simpl; [reflexivity |].
  destruct (p a) eqn:E; simpl; [exact IH |]. now rewrite E.
Qed.

Lemma perform_accepted w c :
  World.rejects w c = None ->
  World.perform c w = (Ok tt, World.effect c (World.logged c w)).
Proof. intros H. unfold World.perform. now rewrite H. Qed.

Lemma perform_rejected w c e :
  World.rejects w c = Some e ->
  World.perform c w = (Throw e, World.logged c w).
Proof. intros H. unfold World.perform. now rewrite H. Qed.

Lemma rejects_logged c w : World.rejects (World.logged c w) = World.rejects w.
Proof. reflexivity. Qed.

Lemma rejects_effect c w : World.rejects (World.effect c w) = World.rejects w.
Proof. destruct c as [| | | | | | | | |? []]; reflexivity. Qed.

Lemma calls_logged c w : World.calls (World.logged c w) = World.calls w ++ [c].
Proof. reflexivity. Qed.

Lemma calls_effect c w : World.calls (World.effect c w) = World.calls w.
Proof. destruct c as [| | | | | | | | |? []]; reflexivity. Qed.

(** C7 (as amended). When the signed submission of [addCollectionItem] or
    [addTokensRecord] fails after the public data was announced to the
    backend, the client asks the backend once to delete the announced
    record, and issues no other call: no retry, no upload.  If the backend
    deletes it, no off-chain entry for the item or record is left, the
    ledger is as it was and the error raised is the one of the submission;
    if the backend refuses, the error raised is the backend error of the
    deletion. *)
Theorem C7_compensating_deletion (w : World.t) (current : ValidAccountId.t) (e : JsError) :
  currentAddress = Some current ->
  (forall parameters itemFiles item submittable,
      let locId := AddCollectionItemParams.locId parameters in
      let itemId := AddCollectionItemParams.itemId parameters in
      preparedCollectionItem parameters = Ok (itemFiles, item, submittable) ->
      World.rejects w (World.PostCollectionItem locId item) = None ->
      World.rejects w (World.SignAndSend (ValidAccountId.address current) submittable)
        = Some e ->
      World.calls (snd (addCollectionItem parameters w))
      = World.calls w
          ++ [ World.PostCollectionItem locId item;
               World.SignAndSend (ValidAccountId.address current) submittable;
               World.DeleteCollectionItem locId itemId ]
      /\ World.collectionItems (snd (addCollectionItem parameters w))
         = World.collectionItems w
      /\ match World.rejects w (World.DeleteCollectionItem locId itemId) with
         | None =>
             fst (addCollectionItem parameters w) = Throw e
             /\ List.find (World.isItem locId itemId)
                          (World.offchainItems (snd (addCollectionItem parameters w)))
                = None
         | Some e' => fst (addCollectionItem parameters w) = Throw (BackendError e')
         end)
  /\ (forall parameters files record submittable,
        let locId := AddTokensRecordParams.locId parameters in
        let recordId := AddTokensRecordParams.recordId parameters in
        preparedTokensRecord parameters = Ok (files, record, submittable) ->
        World.rejects w (World.PostTokensRecord locId record) = None ->
        World.rejects w (World.SignAndSend (ValidAccountId.address current) submittable)
          = Some e ->
        World.calls (snd (addTokensRecord parameters w))
        = World.calls w
            ++ [ World.PostTokensRecord locId record;
                 World.SignAndSend (ValidAccountId.address current) submittable;
                 World.DeleteTokensRecord locId recordId ]
        /\ World.tokensRecords (snd (addTokensRecord parameters w))
           = World.tokensRecords w
        /\ match World.rejects w (World.DeleteTokensRecord locId recordId) with
           | None =>
               fst (addTokensRecord parameters w) = Throw e
               /\ List.find (World.isRecord locId recordId)
                            (World.offchainRecords (snd (addTokensRecord parameters w)))
                  = None
           | Some e' => fst (addTokensRecord parameters w) = Throw (BackendError e')
           end).
Proof.
  intros Hcur. split.
  - intros parameters itemFiles item submittable locId itemId Hprep Hpost Hsign.
    rewrite addCollectionItem_prepared, Hprep.
    unfold AuthenticatedLocClient.announceAndSubmitItem, submitItemPublicData, cancelItemPublicDataSubmission,
      World.mbind, World.tryCatch, World.lift, World.throw, signerId.
    fold locId itemId. rewrite Hcur, (perform_accepted _ _ Hpost). cbv beta iota.
    set (w1 := World.effect (World.PostCollectionItem locId item)
                            (World.logged (World.PostCollectionItem locId item) w)).
    assert (Hsign1 : World.rejects w1
                       (World.SignAndSend (ValidAccountId.address current) submittable)
                     = Some e)
      by (subst w1; now rewrite rejects_effect, rejects_logged).
    rewrite (perform_rejected _ _ _ Hsign1). cbv beta iota.
    set (w2 := World.logged _ w1).
    assert (Hrej : World.rejects w2 = World.rejects w)
      by (subst w2 w1; now rewrite rejects_logged, rejects_effect, rejects_logged).
    assert (Hcalls : World.calls w2
                     = World.calls w
                         ++ [ World.PostCollectionItem locId item;
                              World.SignAndSend (ValidAccountId.address current)
                                                submittable ]).
    { subst w2 w1. rewrite calls_logged, calls_effect, calls_logged.
      now rewrite <- app_assoc. }
    destruct (World.rejects w (World.DeleteCollectionItem locId itemId)) as [e'|] eqn:Hdel.
    + rewrite (perform_rejected w2 _ e') by now rewrite Hrej.
      cbv beta iota. cbn [fst snd].
      rewrite calls_logged, Hcalls, <- app_assoc. repeat split.
    + rewrite (perform_accepted w2) by now rewrite Hrej.
      cbv beta iota. cbn [fst snd].
      rewrite calls_effect, calls_logged, Hcalls, <- app_assoc. repeat split.
      cbn [World.effect World.withStores World.offchainItems]. apply find_filter_out.
  - intros parameters files record submittable locId recordId Hprep Hpost Hsign.
    rewrite addTokensRecord_prepared, Hprep.
    unfold AuthenticatedLocClient.announceAndSubmitRecord, submitRecordPublicData, cancelRecordPublicDataSubmission,
      World.mbind, World.tryCatch, World.lift, World.throw, signerId.
    fold locId recordId. rewrite Hcur, (perform_accepted _ _ Hpost). cbv beta iota.
    set (w1 := World.effect (World.PostTokensRecord locId record)
                            (World.logged (World.PostTokensRecord locId record) w)).
    assert (Hsign1 : World.rejects w1
                       (World.SignAndSend (ValidAccountId.address current) submittable)
                     = Some e)
      by (subst w1; now rewrite rejects_effect, rejects_logged).
    rewrite (perform_rejected _ _ _ Hsign1). cbv beta iota.
    set (w2 := World.logged _ w1).
    assert (Hrej : World.rejects w2 = World.rejects w)
      by (subst w2 w1; now rewrite rejects_logged, rejects_effect, rejects_logged).
    assert (Hcalls : World.calls w2
                     = World.calls w
                         ++ [ World.PostTokensRecord locId record;
                              World.SignAndSend (ValidAccountId.address current)
                                                submittable ]).
    { subst w2 w1. rewrite calls_logged, calls_effect, calls_logged.
      now rewrite <- app_assoc. }
    destruct (World.rejects w (World.DeleteTokensRecord locId recordId)) as [e'|] eqn:Hdel.
    + rewrite (perform_rejected w2 _ e') by now rewrite Hrej.
      cbv beta iota. cbn [fst snd].
      rewrite calls_logged, Hcalls, <- app_assoc. repeat split.
    + rewrite (perform_accepted w2) by now rewrite Hrej.
      cbv beta iota. cbn [fst snd].
      rewrite calls_effect, calls_logged, Hcalls, <- app_assoc. repeat split.
      cbn [World.effect World.withStores World.offchainRecords]. apply find_filter_out.
Qed.

(** C10 (as amended). [addCollectionItem] called with both a Logion
    classification and a Creative Commons element always throws, and leaves
    the world as it was: no call to the backend or to the ledger is issued,
    nothing is stored.  The error is "Logion Classification and Creative
    Commons are mutually exclusive." unless finalizing the files, the
    restricted delivery check or the token validation, which come first,
    throws; then it is their error. *)
Theorem C10_exclusive_terms_rejected_before_any_call
        (parameters : AddCollectionItemParams.t) (w : World.t)
        (logionClassification creativeCommons : TermsAndConditionsElement.t) :
  AddCollectionItemParams.logionClassification parameters = Some logionClassification ->
  AddCollectionItemParams.creativeCommons parameters = Some creativeCommons ->
  addCollectionItem parameters w =
  (Throw match checkedBeforeTerms parameters with
         | Ok _ => Error MUTUALLY_EXCLUSIVE
         | Throw e => e
         end,
   w).
Proof.
  intros Hlc Hcc. rewrite addCollectionItem_prepared.
  unfold AuthenticatedLocClient.preparedCollectionItem. rewrite Hlc, Hcc.
  destruct (checkedBeforeTerms parameters) as [checked|e]; reflexivity.
Qed.

End SubmissionFacts.

(** ** The theorems at concrete inputs *)

(** A draft is submitted: the draft object is consumed, the pending one is
    live. *)
Lemma C1_discard_once_witness :
  exists result m',
    State.transition 0%nat Examples.submit Examples.draftMachine = (Js.Ok result, m')
    /\ State.backend m' = 1%nat
    /\ State.discarded m' 0%nat = Some true
    /\ State.discarded m' result = Some false.
Proof.
  exact (proj1 (proj2 (C1_discard_once Examples.draftMachine 0%nat Examples.submit))
               (State.Pending, "submitted") 1%nat eq_refl eq_refl).
Defined.

(** Three endpoints, the second one down, the last query settling first. *)
Lemma C2_fetchAll_aggregates_witness :
  exists requests,
    Http.fetchAll Examples.put_loc_request Examples.lastFirst Examples.threeEndpoints
                  "alice" Examples.firstFailure None = Js.Ok requests
    /\ length requests = 2%nat
    /\ Permutation requests [ Examples.requestOf "A" "loc-A"; Examples.requestOf "C" "loc-C" ].
Proof.
  exact (proj2 (proj2 (proj2
           (C2_fetchAll_aggregates Examples.put_loc_request Examples.lastFirst
              Examples.threeEndpoints "alice" Examples.firstFailure None)))
           Examples.endpointA Examples.endpointB Examples.endpointC
           _ _ (Js.HttpError 503) eq_refl eq_refl eq_refl eq_refl).
Defined.

(** C2 (counterexample). Every one of the three endpoints is down: the
    failed endpoints contribute nothing, yet [fetchAll] does not return the
    empty concatenation; it raises an error. *)
Lemma C2_counterexample :
  Http.fetchAll Examples.allDown Examples.lastFirst Examples.threeEndpoints
                "alice" Examples.firstFailure None
  = Js.Throw (Js.HttpError 503)
  /\ Http.fetchAll Examples.allDown Examples.lastFirst Examples.threeEndpoints
                   "alice" Examples.firstFailure None
     <> Js.Ok [].
Proof. split; [reflexivity | discriminate]. Qed.



(** Both personal-use rights at once: the construction fails. *)
Lemma C4_checkValidity_reports_all_violations_witness :
  exists e,
    LogionClassification.new Examples.fromISO_isValid "license-loc"
      {| LogionClassification.transferredRights :=
           [ LogionClassification.PER_PRIV; LogionClassification.PER_PUB ];
         LogionClassification.regionalLimit := None;
         LogionClassification.expiration := None |} true
    = Js.Throw e.
Proof.
  apply (proj2 (proj1 (C4_checkValidity_reports_all_violations Examples.fromISO_isValid
                         "license-loc" _))).
  exists (LogionClassification.Exclusive LogionClassification.PER_PRIV
                                         LogionClassification.PER_PUB).
  split; [simpl; auto |].
  simpl. intros H. apply H. split; auto.
Defined.

(** The owner asks for the issuers of an open LOC; the backend lists [ann],
    the ledger has selected [bob]: [ann] comes out unselected, [bob] is added
    without a name. *)
Lemma C5_issuers_reconciled_witness :
  exists res,
    AuthenticatedLocClient.getLocIssuers Examples.toDecimalString (Some Examples.owner)
      Examples.openRequest (Examples.batch [Examples.bob]) = Js.Ok res
    /\ In {| Types.VerifiedIssuer.identityLocId := "identity-bob";
             Types.VerifiedIssuer.address := "bob";
             Types.VerifiedIssuer.firstName := "";
             Types.VerifiedIssuer.lastName := "";
             Types.VerifiedIssuer.selected := Some true |}
          (Types.LocVerifiedIssuers.issuers res).
Proof.
  destruct (C5_issuers_reconciled Examples.toDecimalString Examples.owner
              Examples.openRequest (Examples.batch [Examples.bob]) [Examples.bob]
              eq_refl eq_refl)
    as (res & Hres & _ & Hchain).
  - discriminate.
  - right. left. split; reflexivity.
  - exists res. split; [exact Hres |].
    apply (Hchain Examples.bob).
    + left. reflexivity.
    + simpl. intros [H|[]]. discriminate.
Defined.

(** C5 (counterexample). The owner asks for the issuers of an open LOC; the
    backend lists [ann] and the ledger has selected nobody: [ann] is
    returned with [selected = false], not [true]. *)
Lemma C5_counterexample :
  AuthenticatedLocClient.getLocIssuers Examples.toDecimalString (Some Examples.owner)
    Examples.openRequest (Examples.batch [])
  = Js.Ok {| Types.LocVerifiedIssuers.verifiedIssuer := false;
             Types.LocVerifiedIssuers.issuers :=
               [ {| Types.VerifiedIssuer.firstName := "Ann";
                    Types.VerifiedIssuer.lastName := "Archer";
                    Types.VerifiedIssuer.identityLocId := "identity-ann";
                    Types.VerifiedIssuer.address := "ann";
                    Types.VerifiedIssuer.selected := Some false |} ] |}.
Proof. vm_compute. reflexivity. Qed.

(** [eve] is a stranger to the LOC: she gets [bob] without a name, whatever
    the backend lists. *)
Lemma C9_identities_withheld_witness :
  exists verifiedIssuer,
    AuthenticatedLocClient.getLocIssuers Examples.toDecimalString (Some Examples.eve)
      Examples.openRequest (Examples.batch [Examples.bob])
    = Js.Ok {| Types.LocVerifiedIssuers.verifiedIssuer := verifiedIssuer;
               Types.LocVerifiedIssuers.issuers :=
                 [ {| Types.VerifiedIssuer.firstName := "";
                      Types.VerifiedIssuer.lastName := "";
                      Types.VerifiedIssuer.identityLocId := "identity-bob";
                      Types.VerifiedIssuer.address := "bob";
                      Types.VerifiedIssuer.selected := None |} ] |}.
Proof.
  refine (proj1 (proj2 (C9_identities_withheld Examples.toDecimalString Examples.eve
                          Examples.openRequest Examples.openRequest
                          (Examples.batch [Examples.bob]) _ _ _))
                [Examples.bob] eq_refl eq_refl _).
  - intros (requester & H & Ha & _). simpl in H. injection H as <-. discriminate.
  - intros [H _]. discriminate.
  - intros nodeIssuers H. vm_compute in H. injection H as <-.
    simpl. intros [H|[]]. discriminate.
  - discriminate.
Defined.

(** The ledger refuses the extrinsic, the backend deletes the announced
    item: one deletion, the submission error comes out. *)
Lemma C7_compensating_deletion_witness :
  let run :=
    AuthenticatedLocClient.addCollectionItem Examples.hashOf Examples.JSON_parse
      Examples.isHex Examples.isValidBech32Address Examples.createType_AccountId
      (Some Examples.alice) Examples.plainItem (Examples.emptyWorld Examples.ledgerRefuses) in
  fst run = Js.Throw (Js.SubmissionError "extrinsic failed")
  /\ List.find (World.isItem "loc" "0x01") (World.offchainItems (snd run)) = None.
Proof.
  exact (proj2 (proj2 (proj1 (C7_compensating_deletion Examples.hashOf Examples.JSON_parse
                         Examples.isHex Examples.isValidBech32Address
                         Examples.createType_AccountId (Some Examples.alice)
                         (Examples.emptyWorld Examples.ledgerRefuses) Examples.alice
                         (Js.SubmissionError "extrinsic failed") eq_refl)
                       Examples.plainItem _ _ _ eq_refl eq_refl eq_refl))).
Defined.

(** C7 (counterexample). The ledger refuses the extrinsic with "extrinsic
    failed" and the backend refuses the deletion with a 500: the error that
    comes out is the backend error of the deletion, not the submission
    error. *)
Lemma C7_counterexample :
  let run :=
    AuthenticatedLocClient.addCollectionItem Examples.hashOf Examples.JSON_parse
      Examples.isHex Examples.isValidBech32Address Examples.createType_AccountId
      (Some Examples.alice) Examples.plainItem
      (Examples.emptyWorld Examples.ledgerAndDeletionRefuse) in
  fst run = Js.Throw (Js.BackendError (Js.HttpError 500))
  /\ fst run <> Js.Throw (Js.SubmissionError "extrinsic failed")
  /\ exists item submittable,
       World.calls (snd run)
       = [ World.PostCollectionItem "loc" item;
           World.SignAndSend "alice" submittable;
           World.DeleteCollectionItem "loc" "0x01" ].
Proof.
  vm_compute. split; [reflexivity |]. split; [discriminate |].
  eexists _, _. reflexivity.
Qed.

(** A file of five bytes declared with four: the mismatch is reported. *)
Lemma finalize_idempotent_at_hello :
  fst (ItemFileWithContent.finalize Examples.hashOf (Examples.helloDeclared (Some 4%Z)))
  = Js.Throw (ItemFileWithContent.sizeMismatch 4 5).
Proof.
  refine (proj1 (proj1 (proj2 (proj2 (proj1 (proj2 (proj2
            (finalize_idempotent Examples.hashOf (Examples.helloDeclared (Some 4%Z)))))
            "hello" eq_refl))) 4%Z eq_refl _ _)); discriminate.
Defined.

(** C8 (the code at the failing input). A file of five bytes is declared
    with size zero: the constructor accepts it, the declared size conflicts
    with the size of the content, and [finalize] does not fail; it replaces
    the declared size by the size of the content. *)
Theorem C8_declared_zero_is_not_checked :
  ItemFileWithContent.new "hello.txt" "text/plain" (Some 0%Z) (Hash.fromContent "hello")
  = Js.Ok (Examples.helloDeclared (Some 0%Z))
  /\ fst (ItemFileWithContent.finalize Examples.hashOf (Examples.helloDeclared (Some 0%Z)))
     = Js.Ok tt
  /\ ItemFileWithContent._size
       (snd (ItemFileWithContent.finalize Examples.hashOf (Examples.helloDeclared (Some 0%Z))))
     = Some 5%Z.
Proof. repeat split. Qed.

(** Both kinds of terms, nothing else wrong: the exclusion error, and the
    world untouched. *)
Lemma C10_exclusive_terms_rejected_before_any_call_witness :
  AuthenticatedLocClient.addCollectionItem Examples.hashOf Examples.JSON_parse
    Examples.isHex Examples.isValidBech32Address Examples.createType_AccountId
    (Some Examples.alice) (Examples.bothTerms None) (Examples.emptyWorld Examples.acceptAll)
  = (Js.Throw (Js.Error AuthenticatedLocClient.MUTUALLY_EXCLUSIVE),
     Examples.emptyWorld Examples.acceptAll).
Proof.
  exact (C10_exclusive_terms_rejected_before_any_call Examples.hashOf Examples.JSON_parse
           Examples.isHex Examples.isValidBech32Address Examples.createType_AccountId
           (Some Examples.alice) (Examples.bothTerms None)
           (Examples.emptyWorld Examples.acceptAll)
           (Examples.terms "logion_classification") (Examples.terms "CC4.0")
           eq_refl eq_refl).
Defined.

(** C10 (counterexample). Both kinds of terms and restricted delivery asked
    for without file or token: the call throws, but the restricted delivery
    error, which is checked first. *)
Lemma C10_counterexample :
  fst (AuthenticatedLocClient.addCollectionItem Examples.hashOf Examples.JSON_parse
         Examples.isHex Examples.isValidBech32Address Examples.createType_AccountId
         (Some Examples.alice) (Examples.bothTerms (Some true))
         (Examples.emptyWorld Examples.acceptAll))
  = Js.Throw (Js.Error AuthenticatedLocClient.RESTRICTED_DELIVERY)
  /\ AuthenticatedLocClient.RESTRICTED_DELIVERY <> AuthenticatedLocClient.MUTUALLY_EXCLUSIVE.
Proof. split; [reflexivity | discriminate]. Qed.

(** * Further properties of the code *)

(** ** Token types and token validation *)

Section TokenTypeFacts.
Import Js Token TokenType.
Variable JSON_parse : string -> option Json.
Variable isHex : string -> Z -> bool.
Variable isValidBech32Address : string -> string -> bool.
Variable createType_AccountId : string -> bool.

Local Abbreviation validateErcToken := (Token.validateErcToken JSON_parse).
Local Abbreviation validateToken :=
  (Token.validateToken JSON_parse isHex isValidBech32Address createType_AccountId).
Local Abbreviation validTokenOrThrow :=
  (Token.validTokenOrThrow JSON_parse isHex isValidBech32Address createType_AccountId).

(** The token types, one by one. *)
Lemma isTokenType_cases type :
  isTokenType type = true ->
  In type [ "ethereum_erc721"; "ethereum_erc1155"; "goerli_erc721"; "goerli_erc1155";
            "singular_kusama"; "polygon_erc721"; "polygon_erc1155";
            "polygon_mumbai_erc721"; "polygon_mumbai_erc1155"; "ethereum_erc20";
            "goerli_erc20"; "polygon_erc20"; "polygon_mumbai_erc20"; "owner";
            "multiversx_devnet_esdt"; "multiversx_testnet_esdt"; "multiversx_esdt" ].
Proof.
  unfold isTokenType. rewrite !orb_true_iff, !String.eqb_eq. intros H.
  repeat match goal with
         | H : _ \/ _ |- _ => destruct H as [H|H]
         end; subst; simpl; auto 20.
Qed.

(** X1. The token type [owner] is compatible with each of the three
    networks; every other token type is compatible with one network and one
    only. *)
Theorem token_type_has_one_network type :
  isTokenType type = true ->
  (type = "owner" -> forall networkType, isTokenCompatibleWith type networkType = true)
  /\ (type <> "owner" ->
      exists networkType,
        forall networkType',
          isTokenCompatibleWith type networkType' = true <-> networkType' = networkType).
Proof.
  intros H. apply isTokenType_cases in H. split.
  - intros -> networkType. reflexivity.
  - intros Hne. simpl in H.
    repeat (destruct H as [<-|H]);
      try contradiction;
      try (exists ETHEREUM; intros []; vm_compute; split; congruence);
      try (exists POLKADOT; intros []; vm_compute; split; congruence);
      try (exists MULTIVERSX; intros []; vm_compute; split; congruence).
Qed.

(** Case analysis on whatever a hypothesis branches on. *)
Ltac break_in H :=
  repeat match type of H with
         | context [if ?c then _ else _] => destruct c eqn:?
         | context [match ?x with _ => _ end] => destruct x eqn:?
         | context [bind ?x _] => destruct x eqn:?; cbn [bind] in H
         end.

Ltac known_reason :=
  right; try left; split; [reflexivity |]; eexists; split; [reflexivity |];
  unfold knownReasons; simpl; auto 20.

Lemma validateErcToken_verdicts itemToken r idObject :
  validateErcToken itemToken = Ok (r, idObject) ->
  (valid r = true /\ error r = None /\ exists o, idObject = Some o)
  \/ (valid r = false /\ exists reason, error r = Some reason /\ In reason knownReasons).
Proof.
  unfold Token.validateErcToken. intros H. break_in H;
    try discriminate; injection H as <- <-; try known_reason.
  left. eauto.
Qed.

(** The verdicts of [validateToken]: valid without a reason, invalid for one
    of the known reasons, or invalid because no branch took the type. *)
Lemma validateToken_verdicts itemToken r :
  validateToken itemToken = Ok r ->
  (valid r = true /\ error r = None)
  \/ (valid r = false /\ exists reason, error r = Some reason /\ In reason knownReasons)
  \/ (r = invalid ("unsupported token type '" +:+ type itemToken +:+ "'")
      /\ isErcNft (type itemToken) = false
      /\ includes (type itemToken) "erc20" = false
      /\ String.eqb (type itemToken) "owner" = false
      /\ String.eqb (type itemToken) "singular_kusama" = false
      /\ startsWith (type itemToken) "multiversx" = false).
Proof.
  unfold Token.validateToken. intros H.
  destruct (isErcNft (type itemToken)) eqn:Hnft.
  - destruct (validateErcToken itemToken) as [[r' idObject]|e] eqn:E; [| discriminate].
    cbn [bind] in H.
    destruct (validateErcToken_verdicts _ _ _ E) as [(Hv & He & o & ->)|(Hv & Hr)].
    + rewrite Hv in H. break_in H; try discriminate; injection H as <-;
        try known_reason.
      left. auto.
    + rewrite Hv in H. injection H as <-. right. left. auto.
  - destruct (includes (type itemToken) "erc20") eqn:H20.
    + destruct (validateErcToken itemToken) as [[r' idObject]|e] eqn:E; [| discriminate].
      cbn [bind fst] in H. injection H as <-.
      destruct (validateErcToken_verdicts _ _ _ E) as [(Hv & He & _)|Hr]; auto.
    + destruct (String.eqb (type itemToken) "owner") eqn:Ho;
        [break_in H; injection H as <-; [left; auto | known_reason] |].
      destruct (String.eqb (type itemToken) "singular_kusama") eqn:Hs;
        [break_in H; injection H as <-; [left; auto | known_reason] |].
      destruct (startsWith (type itemToken) "multiversx") eqn:Hm;
        [break_in H; injection H as <-; [left; auto | known_reason] |].
      injection H as <-. right. right. auto 10.
Qed.

Lemma knownReasons_not_empty reason : In reason knownReasons -> reason <> "".
Proof.
  unfold knownReasons. simpl. intros H.
  repeat (destruct H as [<-|H]; [discriminate |]). contradiction.
Qed.

(** An invalid token always comes with a reason, and a valid one with none. *)
Lemma validateToken_reason itemToken r :
  validateToken itemToken = Ok r ->
  (valid r = true /\ error r = None)
  \/ (valid r = false /\ exists reason, error r = Some reason /\ reason <> "").
Proof.
  intros H. destruct (validateToken_verdicts _ _ H) as [Hv|[(Hv & reason & He & Hin)|(-> & _)]].
  - now left.
  - right. split; [exact Hv |]. exists reason. split; [exact He |].
    now apply knownReasons_not_empty.
  - right. split; [reflexivity |]. eexists. split; [reflexivity |]. discriminate.
Qed.

(** X2. [validTokenOrThrow] returns normally exactly when the token is found
    valid and its issuance is at least 1.  Every token found invalid comes
    with a reason, so the error thrown for it is always the message without
    detail; a valid token with an issuance below 1 is refused with the
    issuance message. *)
Theorem validTokenOrThrow_outcome itemToken :
  validTokenOrThrow itemToken =
  match validateToken itemToken with
  | Throw e => Throw e
  | Ok r =>
      if valid r
      then if (issuance itemToken <? 1)%Z
           then Throw (Error "Token must have an issuance >= 1")
           else Ok tt
      else Throw (Error "Given token definition is invalid")
  end.
Proof.
  unfold Token.validTokenOrThrow.
  destruct (validateToken itemToken) as [r|e] eqn:E; cbn [bind]; [| reflexivity].
  destruct (validateToken_reason _ _ E) as [[Hv _]|(Hv & reason & -> & Hne)];
    rewrite Hv; cbn [negb]; [reflexivity |].
  cbn [truthyOptString]. unfold truthyString.
  destruct (String.eqb_spec reason ""); [contradiction | reflexivity].
Qed.

(** X3. No token type is left unsupported by [validateToken]: for each of
    them the verdict, when there is one, is either "valid" or a reason other
    than "unsupported token type". *)
Theorem every_token_type_is_supported type id issuance r :
  isTokenType type = true ->
  validateToken {| Token.type := type; Token.id := id; Token.issuance := issuance |} = Ok r ->
  error r <> Some ("unsupported token type '" +:+ type +:+ "'").
Proof.
  intros Ht H. apply isTokenType_cases in Ht. simpl in Ht.
  destruct (validateToken_verdicts _ _ H)
    as [[_ ->]|[(_ & reason & -> & Hin)|(_ & Hnft & H20 & Ho & Hs & Hm)]].
  - discriminate.
  - unfold knownReasons in Hin. simpl in Hin.
    repeat (destruct Hin as [<-|Hin]; [discriminate |]). contradiction.
  - exfalso. cbn [Token.type] in *.
    repeat (destruct Ht as [<-|Ht]; [vm_compute in Hnft, H20, Ho, Hs, Hm; congruence |]).
    contradiction.
Qed.

Lemma non_empty_string_spec value :
  falsy value = false /\ isString value = true
  <-> exists s, value = Some (JString s) /\ s <> "".
Proof.
  split.
  - intros [Hf Hs]. destruct value as [[]|]; try discriminate.
    eexists. split; [reflexivity |]. simpl in Hf.
    apply negb_false_iff in Hf. unfold truthyString in Hf.
    apply negb_true_iff in Hf. now apply String.eqb_neq.
  - intros (s & -> & Hne). simpl. split; [| reflexivity].
    apply negb_false_iff. unfold truthyString. apply negb_true_iff.
    now apply String.eqb_neq.
Qed.

Lemma validateErcToken_valid_iff itemToken idObject :
  validateErcToken itemToken = Ok ({| valid := true; error := None |}, Some idObject)
  <-> JSON_parse (id itemToken) = Some idObject
      /\ exists contract,
           getField idObject "contract" = Ok (Some (JString contract)) /\ contract <> "".
Proof.
  unfold Token.validateErcToken. split.
  - intros H. destruct (JSON_parse (id itemToken)) as [o|]; [| discriminate].
    destruct (getField o "contract") as [contract|e] eqn:G; cbn [bind] in H; [| discriminate].
    destruct (falsy contract) eqn:Hf; [discriminate |].
    destruct (isString contract) eqn:Hs; cbn [negb] in H; [| discriminate].
    injection H as <-. split; [reflexivity |].
    destruct (proj1 (non_empty_string_spec contract) (conj Hf Hs)) as (c & -> & Hne).
    eauto.
  - intros (-> & contract & -> & Hne). cbn [bind].
    destruct (proj2 (non_empty_string_spec (Some (JString contract)))) as [-> ->];
      [eauto | reflexivity].
Qed.

Lemma validateErcToken_valid_inv itemToken r idObject :
  validateErcToken itemToken = Ok (r, idObject) -> valid r = true ->
  exists o, r = {| valid := true; error := None |} /\ idObject = Some o.
Proof.
  unfold Token.validateErcToken. intros H Hv. break_in H; try discriminate;
    injection H as <- <-; try discriminate. eauto.
Qed.

(** X4. What makes an ERC token valid.  For the NFT types (ERC-721 and
    ERC-1155) the id must parse as JSON into a value whose [contract] and
    [id] fields are both non-empty strings; for the other ERC types
    (ERC-20) the [contract] field alone is required.  Nothing else is
    looked at. *)
Theorem erc_token_valid_iff itemToken :
  (isErcNft (type itemToken) = true ->
   ((exists r, validateToken itemToken = Ok r /\ valid r = true)
    <-> exists idObject contract tokenId,
          JSON_parse (id itemToken) = Some idObject
          /\ getField idObject "contract" = Ok (Some (JString contract)) /\ contract <> ""
          /\ getField idObject "id" = Ok (Some (JString tokenId)) /\ tokenId <> ""))
  /\ (isErcNft (type itemToken) = false ->
      includes (type itemToken) "erc20" = true ->
      ((exists r, validateToken itemToken = Ok r /\ valid r = true)
       <-> exists idObject contract,
             JSON_parse (id itemToken) = Some idObject
             /\ getField idObject "contract" = Ok (Some (JString contract))
             /\ contract <> "")).
Proof.
  split.
  - intros Hnft. unfold Token.validateToken. rewrite Hnft. split.
    + intros (r & H & Hv).
      destruct (validateErcToken itemToken) as [[r' idObject]|e] eqn:E; [| discriminate].
      cbn [bind] in H. destruct (valid r') eqn:Hv'.
      * destruct (validateErcToken_valid_inv _ _ _ E Hv') as (o & -> & ->).
        apply validateErcToken_valid_iff in E. destruct E as (Hp & contract & Hc & Hne).
        destruct (getField o "id") as [tokenId|e] eqn:G; cbn [bind] in H; [| discriminate].
        destruct (falsy tokenId) eqn:Hf; [injection H as <-; discriminate |].
        destruct (isString tokenId) eqn:Hs; cbn [negb] in H;
          [| injection H as <-; discriminate].
        destruct (proj1 (non_empty_string_spec tokenId) (conj Hf Hs)) as (t & -> & Hnt).
        exists o, contract, t. auto.
      * injection H as <-. congruence.
    + intros (idObject & contract & tokenId & Hp & Hc & Hne & Hi & Hnt).
      rewrite (proj2 (validateErcToken_valid_iff itemToken idObject)) by eauto.
      cbn [bind valid]. rewrite Hi. cbn [bind].
      destruct (proj2 (non_empty_string_spec (Some (JString tokenId)))) as [-> ->];
        [eauto |]. cbn [negb]. eexists. split; reflexivity.
  - intros Hnft H20. unfold Token.validateToken. rewrite Hnft, H20. split.
    + intros (r & H & Hv).
      destruct (validateErcToken itemToken) as [[r' idObject]|e] eqn:E; [| discriminate].
      cbn [bind fst] in H. injection H as <-.
      destruct (validateErcToken_valid_inv _ _ _ E Hv) as (o & -> & ->).
      apply validateErcToken_valid_iff in E. destruct E as (Hp & contract & Hc & Hne).
      eauto.
    + intros (idObject & contract & Hp & Hc & Hne).
      rewrite (proj2 (validateErcToken_valid_iff itemToken idObject)) by eauto.
      cbn [bind fst]. eexists. split; reflexivity.
Qed.

Lemma span_spec (p : ascii -> bool) cs a b :
  span p cs = (a, b) -> cs = a ++ b /\ forallb p a = true.
Proof.
  revert a b. induction cs as [|c cs IH]; simpl; intros a b H.
  - injection H as <- <-. auto.
  - destruct (p c) eqn:Hp.
    + destruct (span p cs) as [a' b'] eqn:S. injection H as <- <-.
      destruct (IH _ _ eq_refl) as [-> Ha]. simpl. rewrite Hp. auto.
    + injection H as <- <-. auto.
Qed.

Lemma span_app (p : ascii -> bool) a c b :
  forallb p a = true -> p c = false -> span p (a ++ c :: b) = (a, c :: b).
Proof.
  induction a as [|x a IH]; simpl; intros Ha Hc.
  - now rewrite Hc.
  - apply andb_true_iff in Ha. destruct Ha as [Hx Ha]. rewrite Hx, IH; auto.
Qed.

Lemma isDash_spec c : isDash c = true <-> c = "-"%char.
Proof.
  unfold isDash. rewrite Nat.eqb_eq. split.
  - intros H. rewrite <- (ascii_nat_embedding c), H. reflexivity.
  - intros ->. reflexivity.
Qed.

Lemma length_zero_iff {A} (l : list A) : Nat.eqb (length l) 0 = false <-> l <> [].
Proof. destruct l; simpl; split; congruence. Qed.

(** X5. [isMultiversxESDTId] accepts exactly the identifiers made of a
    non-empty ticker of digits and capital letters, a dash, six lower-case
    hexadecimal digits and, optionally, a dash followed by a non-empty nonce
    of lower-case hexadecimal digits. *)
Theorem isMultiversxESDTId_shape tokenId :
  isMultiversxESDTId tokenId = true <-> esdtShape tokenId.
Proof.
  unfold isMultiversxESDTId, esdtShape. split.
  - destruct (span _ (list_ascii_of_string tokenId)) as [ticker rest] eqn:S.
    apply span_spec in S. destruct S as [Hcs Hticker].
    intros H. apply andb_true_iff in H. destruct H as [Hne H].
    apply negb_true_iff, length_zero_iff in Hne.
    destruct rest as [|dash rest']; [discriminate |].
    rewrite !andb_true_iff in H. destruct H as [[[Hd Hhex] Hlen] Hnonce].
    apply isDash_spec in Hd. subst dash. apply Nat.eqb_eq in Hlen.
    exists ticker, (firstn 6 rest'), (skipn 6 rest').
    rewrite firstn_skipn. repeat split; auto.
    destruct (skipn 6 rest') as [|dash' digits]; [now left |].
    right. rewrite !andb_true_iff in Hnonce. destruct Hnonce as [[Hd' Hn] Hh].
    apply isDash_spec in Hd'. subst dash'.
    apply negb_true_iff, length_zero_iff in Hn. exists digits. auto.
  - intros (ticker & random & nonce & -> & Hne & Hticker & Hlen & Hhex & Hnonce).
    rewrite span_app by (auto; reflexivity).
    apply andb_true_iff. split; [now apply negb_true_iff, length_zero_iff |].
    assert (F : firstn 6 (random ++ nonce) = random).
    { rewrite <- Hlen. rewrite firstn_app, firstn_all, Nat.sub_diag. simpl.
      apply app_nil_r. }
    assert (K : skipn 6 (random ++ nonce) = nonce).
    { rewrite <- Hlen. rewrite skipn_app, skipn_all, Nat.sub_diag. reflexivity. }
    rewrite F, K, Hhex, Hlen. simpl.
    destruct Hnonce as [->|(digits & -> & Hd & Hh)]; [reflexivity |].
    rewrite Hh. simpl. rewrite andb_true_r.
    now apply negb_true_iff, length_zero_iff.
Qed.

End TokenTypeFacts.

Lemma token_type_has_one_network_witness :
  exists networkType,
    forall networkType',
      TokenType.isTokenCompatibleWith "polygon_erc20" networkType' = true
      <-> networkType' = networkType.
Proof.
  apply (proj2 (token_type_has_one_network "polygon_erc20" eq_refl)). discriminate.
Defined.

Lemma every_token_type_is_supported_witness :
  Token.error {| Token.valid := false;
                 Token.error := Some "token ID must be a valid MultiversX ESDT ID" |}
  <> Some ("unsupported token type '" +:+ "multiversx_esdt" +:+ "'").
Proof.
  exact (every_token_type_is_supported Examples.JSON_parse Examples.isHex
           Examples.isValidBech32Address Examples.createType_AccountId
           "multiversx_esdt" "not an id" 1 _ eq_refl eq_refl).
Defined.

(** ** Terms validation, continued *)

Section ClassificationOrder.
Import Js LogionClassification.
Variable fromISO_isValid : string -> bool.

Lemma includes_ext l l' :
  (forall c, In c l <-> In c l') -> forall c, includes l c = includes l' c.
Proof.
  intros H c. destruct (includes l c) eqn:E, (includes l' c) eqn:E'; try reflexivity.
  - apply includes_In, H, includes_In in E. congruence.
  - apply includes_In, H, includes_In in E'. congruence.
Qed.

(** X6. The validity check reads the transferred rights as a set: two
    parameter records with the same codes, in whatever order and however
    often repeated, and the same regional limit and expiration, get the same
    verdict and, when refused, the same message. *)
Theorem checkValidity_reads_rights_as_a_set (p p' : LogionLicenseParameters) :
  (forall code, In code (transferredRights p) <-> In code (transferredRights p')) ->
  regionalLimit p = regionalLimit p' ->
  expiration p = expiration p' ->
  checkValidity fromISO_isValid p = checkValidity fromISO_isValid p'.
Proof.
  intros Hr Hl He. rewrite !checkValidity_unfold. unfold validOrThrow; cbn [errors].
  assert (E : violationMessages fromISO_isValid p rules
              = violationMessages fromISO_isValid p' rules).
  { unfold violationMessages. apply flat_map_ext. intros r.
    assert (respectsb fromISO_isValid p r = respectsb fromISO_isValid p' r) as ->;
      [| reflexivity].
    pose proof (includes_ext _ _ Hr) as Hi.
    destruct r; simpl; unfold expirationSet, regionalLimitSet;
      rewrite ?Hi, ?Hl, ?He; reflexivity. }
  now rewrite E.
Qed.

End ClassificationOrder.

Lemma checkValidity_reads_rights_as_a_set_witness :
  LogionClassification.checkValidity Examples.fromISO_isValid
    {| LogionClassification.transferredRights :=
         [ LogionClassification.TIME; LogionClassification.PER_PRIV ];
       LogionClassification.regionalLimit := None;
       LogionClassification.expiration := Some "2030-01-01" |}
  = LogionClassification.checkValidity Examples.fromISO_isValid
      {| LogionClassification.transferredRights :=
           [ LogionClassification.PER_PRIV; LogionClassification.TIME;
             LogionClassification.TIME ];
         LogionClassification.regionalLimit := None;
         LogionClassification.expiration := Some "2030-01-01" |}.
Proof.
  apply checkValidity_reads_rights_as_a_set; [| reflexivity | reflexivity].
  intros code. simpl. tauto.
Defined.

(** ** File payloads, continued *)

Section FileSizeFacts.
Import Js.
Variable hashOf : string -> Hash.Hash.

Local Abbreviation finalize := (ItemFileWithContent.finalize hashOf).

Lemma length_content_zero content :
  (Z.of_nat (String.length content) =? 0)%Z = true <-> content = "".
Proof.
  rewrite Z.eqb_eq. destruct content; simpl; split; intros H; try reflexivity;
    try discriminate; lia.
Qed.

(** X8. When the [size] of a file can be read.  A file given by its hash
    cannot be constructed without a non-zero size, and that size is what the
    getter returns, finalized or not.  A file given by a non-empty content
    has, once finalized without error, the size of its content.  A file
    whose content is empty never gets a readable size: after a successful
    [finalize] the getter still throws "Call finalize() first". *)
Theorem size_after_finalize name contentType declared :
  (forall hash file,
      ItemFileWithContent.new name contentType declared (Hash.fromHash hash) = Ok file ->
      finalize file = (Ok tt, file)
      /\ exists size,
           declared = Some size /\ size <> 0%Z /\ ItemFileWithContent.size file = Ok size)
  /\ (forall content file,
        ItemFileWithContent.new name contentType declared (Hash.fromContent content)
          = Ok file ->
        fst (finalize file) = Ok tt ->
        ItemFileWithContent.size (snd (finalize file))
        = if String.eqb content ""
          then Throw (Error "Call finalize() first")
          else Ok (Z.of_nat (String.length content))).
Proof.
  split.
  - intros hash file H. unfold ItemFileWithContent.new in H.
    destruct declared as [size|]; simpl in H.
    + unfold truthyBigint in H. destruct (Z.eqb_spec size 0); simpl in H; [discriminate |].
      injection H as <-. split; [reflexivity |].
      exists size. repeat split; auto.
      unfold ItemFileWithContent.size, truthyBigint; simpl.
      destruct (Z.eqb_spec size 0); [contradiction | reflexivity].
    + discriminate.
  - intros content file H Hok. unfold ItemFileWithContent.new in H.
    rewrite andb_false_r in H. injection H as <-.
    revert Hok. unfold ItemFileWithContent.finalize, ItemFileWithContent.size; simpl.
    set (n := Z.of_nat (String.length content)).
    assert (Hn : (n =? 0)%Z = String.eqb content "").
    { destruct (String.eqb_spec content "") as [->|Hne]; [reflexivity |].
      apply not_true_iff_false. unfold n. rewrite length_content_zero. exact Hne. }
    destruct declared as [given|]; simpl; unfold truthyBigint.
    + destruct (Z.eqb_spec given 0) as [->|Hg]; simpl.
      * intros _. now rewrite Hn; destruct (String.eqb content "").
      * destruct (Z.eqb_spec given n) as [->|Hd]; simpl; [| discriminate].
        intros _. rewrite <- Hn.
        destruct (Z.eqb_spec n 0); [contradiction | reflexivity].
    + intros _. now rewrite Hn; destruct (String.eqb content "").
Qed.

End FileSizeFacts.

Lemma size_after_finalize_witness :
  ItemFileWithContent.size
    (snd (ItemFileWithContent.finalize Examples.hashOf (Examples.helloDeclared (Some 5%Z))))
  = Js.Ok 5%Z.
Proof.
  exact (proj2 (size_after_finalize Examples.hashOf "hello.txt" "text/plain" (Some 5%Z))
               "hello" _ eq_refl eq_refl).
Defined.

(** ** Reconciliation, continued *)

Section ListingFacts.
Import Js Hash NodeApi Types LocClient.
Variable newTermsAndConditions :
  list NodeApi.TermsAndConditionsElement.t ->
  list OffchainTermsAndConditionsElement.t ->
  list MergedTermsAndConditionsElement.t.

Local Abbreviation getCollectionItem := (LocClient.getCollectionItem newTermsAndConditions).
Local Abbreviation getCollectionItems := (LocClient.getCollectionItems newTermsAndConditions).
Local Abbreviation mergeItems := (LocClient.mergeItems newTermsAndConditions).

Lemma NoDup_fmap_inj {A B} (f : A -> B) (l : list A) x y :
  List.NoDup (f <$> l) -> In x l -> In y l -> f x = f y -> x = y.
Proof.
  induction l as [|a l IH]; simpl; intros Hnd Hx Hy E; [destruct Hx |].
  inversion Hnd as [|? ? Hnotin Hnd']; subst.
  destruct Hx as [->|Hx], Hy as [->|Hy]; auto.
  - exfalso. apply Hnotin. rewrite E. now apply in_map.
  - exfalso. apply Hnotin. rewrite <- E. now apply in_map.
Qed.

Lemma find_In_is_Some {A} (p : A -> bool) (l : list A) x :
  In x l -> p x = true -> exists y, List.find p l = Some y.
Proof.
  intros Hin Hp. destruct (List.find p l) eqn:F; [eauto |].
  pose proof (List.find_none _ _ F x Hin). congruence.
Qed.

Lemma toRecord_read_NoDup {T} (key : T -> string) (properties : T -> list string)
      (l : list T) x :
  List.NoDup (key <$> l) -> In x l ->
  PlainObject.read properties (toRecord key l) (key x) = PlainObject.Entry x.
Proof.
  intros Hnd Hin.
  destruct (toRecord_read_listed key properties l x Hin) as (y & Hy).
  rewrite Hy. f_equal.
  apply toRecord_read in Hy. destruct Hy as [Hk Hy].
  now apply (NoDup_fmap_inj key l).
Qed.

Lemma toRecord_proto {T} (key : T -> string) (l : list T) entry :
  PlainObject.proto (toRecord key l) = Some entry ->
  key entry = "__proto__" /\ In entry l.
Proof.
  unfold toRecord.
  assert (H : forall (l : list T) (map : PlainObject.t T),
             PlainObject.proto
               (foldl (fun map x => PlainObject.assign map (key x) x) map l) = Some entry ->
             (key entry = "__proto__" /\ In entry l) \/ PlainObject.proto map = Some entry).
  { clear. induction l as [|a l IH]; intros map Hl; simpl in *; [now right |].
    destruct (IH _ Hl) as [[Hk Hin]|Hm]; [left; auto |].
    unfold PlainObject.assign in Hm.
    destruct (String.eqb_spec (key a) "__proto__") as [E|E];
      cbn [PlainObject.proto] in Hm; [| now right].
    injection Hm as <-. left. auto. }
  intros Hl. destruct (H l _ Hl) as [G|G]; [exact G | discriminate].
Qed.

(** A key read as a value of another kind names a member of
    [Object.prototype], or an entry was stored under [__proto__]. *)
Lemma toRecord_read_Foreign {T} (key : T -> string) (properties : T -> list string)
      (l : list T) k :
  PlainObject.read properties (toRecord key l) k = PlainObject.Foreign ->
  PlainObject.isMember k PlainObject.prototypeMembers = true
  \/ exists x, In x l /\ key x = "__proto__".
Proof.
  unfold PlainObject.read.
  destruct (String.eqb_spec k "__proto__") as [->|Hk]; [intros _; now left |].
  destruct (PlainObject.own _ !! k); [discriminate |].
  destruct (PlainObject.proto (toRecord key l)) as [entry|] eqn:Hp.
  - intros _. right. apply toRecord_proto in Hp. destruct Hp. eauto.
  - cbn [orb]. destruct (PlainObject.isMember k PlainObject.prototypeMembers);
      [now left | discriminate].
Qed.

(** X9. The two item queries agree.  When neither the ledger nor the
    backend holds two items of the same id for the LOC, every item that
    [getCollectionItems] returns is the one [getCollectionItem] returns for
    its id. *)
Theorem listing_agrees_with_single_query (w : World.t) (locId : string) listed merged :
  World.get_collection_items w locId = Ok listed ->
  List.NoDup (OffchainCollectionItem.itemId <$> listed) ->
  List.NoDup (CollectionItem.id <$> World.queries_getCollectionItems w locId) ->
  getCollectionItems w locId = Ok merged ->
  forall item,
    In item merged ->
    World.rejects w (World.GetCollectionItem locId (UploadableCollectionItem.id item)) = None ->
    getCollectionItem w locId (UploadableCollectionItem.id item) = Ok (Some item).
Proof.
  intros Hlist Hnd Hndc Hall item Hin Hacc.
  unfold LocClient.getCollectionItems, getOffchainItems in Hall.
  rewrite Hlist in Hall. cbn [bind orBackendError] in Hall.
  match type of Hall with
  | orBackendError ?m = _ => destruct m as [ms|e] eqn:Hm; [| discriminate]
  end.
  injection Hall as ->.
  destruct (mapM_In _ _ _ _ Hm Hin) as (off & Hoff & Hmerge).
  rewrite (toRecord_read_NoDup _ offchainProperties _ _ Hnd Hoff) in Hmerge.
  destruct (PlainObject.read onchainProperties
              (toRecord CollectionItem.id (World.queries_getCollectionItems w locId))
              (OffchainCollectionItem.itemId off)) as [on| |] eqn:Hon;
    try discriminate.
  assert (Hid : UploadableCollectionItem.id item = OffchainCollectionItem.itemId off).
  { simpl in Hmerge. injection Hmerge as <-. simpl.
    now apply toRecord_read in Hon as [? _]. }
  apply toRecord_read in Hon. destruct Hon as [Hkey Hchain].
  unfold LocClient.getCollectionItem, getOffchainItem, World.get_collection_item.
  rewrite Hacc, Hid.
  (* the ledger entry *)
  unfold World.queries_getCollectionItem.
  destruct (find_In_is_Some
              (fun e => String.eqb (fst e) locId
                        && String.eqb (CollectionItem.id (snd e))
                                      (OffchainCollectionItem.itemId off))
              (World.collectionItems w) (locId, on)) as ([l on'] & Hf).
  { now apply In_chain_items. }
  { simpl. rewrite String.eqb_refl, Hkey, String.eqb_refl. reflexivity. }
  rewrite Hf. cbn [fmap option_fmap option_map snd].
  apply List.find_some in Hf. destruct Hf as [Hin' Hp]. simpl in Hp.
  apply andb_true_iff in Hp. rewrite !String.eqb_eq in Hp. destruct Hp as [-> Hid'].
  assert (on' = on) as ->.
  { apply (NoDup_fmap_inj CollectionItem.id (World.queries_getCollectionItems w locId));
      auto; [now apply In_chain_items | congruence]. }
  (* the backend record *)
  unfold World.get_collection_items in Hlist.
  destruct (World.rejects w (World.GetCollectionItems locId)); [discriminate |].
  injection Hlist as <-.
  apply filter_In in Hoff. destruct Hoff as [Hoffin Hloc].
  destruct (find_In_is_Some (World.isItem locId (OffchainCollectionItem.itemId off))
              (World.offchainItems w) off Hoffin) as (off' & Hf').
  { unfold World.isItem. now rewrite Hloc, String.eqb_refl. }
  rewrite Hf'. apply List.find_some in Hf'. destruct Hf' as [Hin'' Hp'].
  unfold World.isItem in Hp'. apply andb_true_iff in Hp'. destruct Hp' as [Hl' Hi'].
  apply String.eqb_eq in Hi'.
  assert (off' = off) as ->.
  { apply (NoDup_fmap_inj OffchainCollectionItem.itemId
             (List.filter
                (fun item => String.eqb (OffchainCollectionItem.collectionLocId item) locId)
                (World.offchainItems w)));
      auto; apply filter_In; auto. }
  cbn [bind orBackendError]. rewrite Hmerge. reflexivity.
Qed.

(** X10. A backend record without its ledger entry breaks the listing.
    When the backend lists, for the LOC, an item the ledger has no entry
    of, [getCollectionItems] returns no list at all: it raises a backend
    error that wraps a [TypeError].  The error is the failed read of the
    [id] of the missing entry, or the failed call of [files.map] when the
    id of the first such item is found along the prototype chain of the
    plain object that maps the ledger entries; it is the first of the two
    whenever no listed id names a member of [Object.prototype] and no
    ledger entry has the id [__proto__]. *)
Theorem listing_fails_on_unconfirmed_item (w : World.t) (locId : string) listed off :
  World.get_collection_items w locId = Ok listed ->
  In off listed ->
  (forall on, In (locId, on) (World.collectionItems w) ->
              CollectionItem.id on <> OffchainCollectionItem.itemId off) ->
  (getCollectionItems w locId = Throw (BackendError (TypeError READING_ID))
   \/ getCollectionItems w locId = Throw (BackendError (TypeError READING_MAP)))
  /\ ((forall item, In item listed ->
         PlainObject.isMember (OffchainCollectionItem.itemId item)
                              PlainObject.prototypeMembers = false) ->
      (forall on, In (locId, on) (World.collectionItems w) ->
                  CollectionItem.id on <> "__proto__") ->
      getCollectionItems w locId = Throw (BackendError (TypeError READING_ID))).
Proof.
  intros Hlist Hoff Hnone.
  unfold LocClient.getCollectionItems, getOffchainItems.
  rewrite Hlist. cbn [bind].
  set (f := fun item : OffchainCollectionItem.t => _).
  assert (Hf : exists e, f off = Throw e).
  { unfold f.
    destruct (toRecord_read_listed OffchainCollectionItem.itemId offchainProperties
                listed off Hoff) as (x & ->).
    destruct (proj1 (toRecord_read_absent CollectionItem.id onchainProperties
                       (World.queries_getCollectionItems w locId)
                       (OffchainCollectionItem.itemId off)
                       ltac:(intros on Hon; apply Hnone; now apply In_chain_items)))
      as [-> | ->]; eexists; reflexivity. }
  destruct Hf as (e & Hf).
  destruct (mapM_Throw f listed off _ Hoff Hf) as (e' & He').
  rewrite He'. cbn [orBackendError].
  destruct (mapM_Throw_inv f listed e' He') as (a & Ha & Hfa).
  unfold f in Hfa.
  destruct (toRecord_read_listed OffchainCollectionItem.itemId offchainProperties
              listed a Ha) as (x & Hx).
  rewrite Hx in Hfa.
  destruct (PlainObject.read onchainProperties _ _) as [on| |] eqn:Hon;
    simpl in Hfa; try discriminate; injection Hfa as <-.
  - split; [now right |]. intros Hmembers Hproto. exfalso.
    apply toRecord_read_Foreign in Hon. destruct Hon as [Hm|(on & Hin & Hk)].
    + rewrite (Hmembers a Ha) in Hm. discriminate.
    + apply In_chain_items in Hin. now apply (Hproto on Hin).
  - split; [now left | reflexivity].
Qed.

End ListingFacts.

(** ** Submissions, continued *)

Section AnnouncementFacts.
Import Js Hash NodeApi Types AuthenticatedLocClient.
Variable hashOf : string -> Hash.
Variable JSON_parse : string -> option Token.Json.
Variable isHex : string -> Z -> bool.
Variable isValidBech32Address : string -> string -> bool.
Variable createType_AccountId : string -> bool.
Variable currentAddress : option ValidAccountId.t.
Variable newTermsAndConditions :
  list NodeApi.TermsAndConditionsElement.t ->
  list OffchainTermsAndConditionsElement.t ->
  list MergedTermsAndConditionsElement.t.

Local Abbreviation addCollectionItem :=
  (AuthenticatedLocClient.addCollectionItem hashOf JSON_parse isHex isValidBech32Address
     createType_AccountId currentAddress).
Local Abbreviation preparedCollectionItem :=
  (AuthenticatedLocClient.preparedCollectionItem hashOf JSON_parse isHex
     isValidBech32Address createType_AccountId).
Local Abbreviation addTokensRecord :=
  (AuthenticatedLocClient.addTokensRecord hashOf currentAddress).
Local Abbreviation preparedTokensRecord :=
  (AuthenticatedLocClient.preparedTokensRecord hashOf).
Local Abbreviation getCollectionItem := (LocClient.getCollectionItem newTermsAndConditions).

(** X11. A refused announcement stops the submission.  When the backend
    refuses the public data of [addCollectionItem] or [addTokensRecord],
    the call raises the backend error of that refusal and the announcement
    is the only call it has issued: nothing is signed, nothing is deleted,
    nothing is uploaded, and ledger and backend are as they were. *)
Theorem refused_announcement_stops_the_submission (w : World.t) (e : JsError) :
  (forall parameters itemFiles item submittable,
      let locId := AddCollectionItemParams.locId parameters in
      preparedCollectionItem parameters = Ok (itemFiles, item, submittable) ->
      World.rejects w (World.PostCollectionItem locId item) = Some e ->
      addCollectionItem parameters w
      = (Throw (BackendError e), World.logged (World.PostCollectionItem locId item) w))
  /\ (forall parameters files record submittable,
        let locId := AddTokensRecordParams.locId parameters in
        preparedTokensRecord parameters = Ok (files, record, submittable) ->
        World.rejects w (World.PostTokensRecord locId record) = Some e ->
        addTokensRecord parameters w
        = (Throw (BackendError e), World.logged (World.PostTokensRecord locId record) w)).
Proof.
  split.
  - intros parameters itemFiles item submittable locId Hprep Hpost.
    rewrite addCollectionItem_prepared, Hprep.
    unfold AuthenticatedLocClient.announceAndSubmitItem, submitItemPublicData,
      World.mbind, World.tryCatch, World.throw.
    fold locId. now rewrite (perform_rejected _ _ _ Hpost).
  - intros parameters files record submittable locId Hprep Hpost.
    rewrite addTokensRecord_prepared, Hprep.
    unfold AuthenticatedLocClient.announceAndSubmitRecord, submitRecordPublicData,
      World.mbind, World.tryCatch, World.throw.
    fold locId. now rewrite (perform_rejected _ _ _ Hpost).
Qed.

(** X12. Restricted delivery needs a file and a token.  A call of
    [addCollectionItem] that asks for restricted delivery without any file
    is refused with the restricted-delivery error, and one without a token
    is refused with some error; in both cases before any call is issued. *)
Theorem restricted_delivery_needs_file_and_token
        (parameters : AddCollectionItemParams.t) (w : World.t) :
  AddCollectionItemParams.restrictedDelivery parameters = Some true ->
  (AddCollectionItemParams.itemFiles parameters = None
   \/ AddCollectionItemParams.itemFiles parameters = Some [] ->
   addCollectionItem parameters w = (Throw (Error RESTRICTED_DELIVERY), w))
  /\ (AddCollectionItemParams.itemToken parameters = None ->
      exists e, addCollectionItem parameters w = (Throw e, w)).
Proof.
  intros Hrd. split.
  - intros Hfiles. rewrite addCollectionItem_prepared.
    unfold AuthenticatedLocClient.preparedCollectionItem,
      AuthenticatedLocClient.checkedBeforeTerms.
    rewrite Hrd. destruct Hfiles as [-> | ->]; reflexivity.
  - intros Htoken. rewrite addCollectionItem_prepared.
    unfold AuthenticatedLocClient.preparedCollectionItem,
      AuthenticatedLocClient.checkedBeforeTerms.
    rewrite Hrd, Htoken.
    destruct (AddCollectionItemParams.itemFiles parameters) as [files|]; cbn [bind].
    + destruct (finalizeAll hashOf files) as [files'|e]; cbn [bind]; [| eauto].
      destruct (mapM (chainItemFile hashOf) files') as [chainItemFiles|e]; cbn [bind];
        [| eauto].
      cbn. rewrite orb_true_r. cbn. eauto.
    + cbn. eauto.
Qed.

Lemma prepared_item_shape parameters itemFiles item submittable :
  preparedCollectionItem parameters = Ok (itemFiles, item, submittable) ->
  CreateOffchainCollectionItem.itemId item = AddCollectionItemParams.itemId parameters
  /\ CreateOffchainCollectionItem.description item
     = AddCollectionItemParams.itemDescription parameters
  /\ exists files token restrictedDelivery termsAndConditions,
       submittable
       = NodeApi.addCollectionItem
           (AddCollectionItemParams.locId parameters)
           (AddCollectionItemParams.itemId parameters)
           (hashOf (AddCollectionItemParams.itemDescription parameters))
           files token restrictedDelivery termsAndConditions.
Proof.
  unfold AuthenticatedLocClient.preparedCollectionItem.
  destruct (AuthenticatedLocClient.checkedBeforeTerms _ _ _ _ _ parameters) as [checked|];
    cbn [bind]; [| discriminate].
  match goal with
  | |- bind ?m _ = _ -> _ => destruct m as [exclusiveTerms|]; cbn [bind]; [| discriminate]
  end.
  match goal with
  | |- bind ?m _ = _ -> _ => destruct m as [files|]; cbn [bind]; [| discriminate]
  end.
  intros H. injection H as _ <- <-. repeat split. eauto 10.
Qed.

(** What an upload leaves of a backend item: everything but its files. *)
Local Abbreviation sameButFiles :=
  (fun a b : OffchainCollectionItem.t =>
     OffchainCollectionItem.collectionLocId b = OffchainCollectionItem.collectionLocId a
     /\ OffchainCollectionItem.itemId b = OffchainCollectionItem.itemId a
     /\ OffchainCollectionItem.description b = OffchainCollectionItem.description a
     /\ OffchainCollectionItem.addedOn b = OffchainCollectionItem.addedOn a).

Lemma Forall2_fmap_same {A} (R : A -> A -> Prop) (f : A -> A) (l : list A) :
  (forall a, R a (f a)) -> Forall2 R l (f <$> l).
Proof. intros H. induction l; simpl; constructor; auto. Qed.

Lemma Forall2_same {A} (R : A -> A -> Prop) (l : list A) :
  (forall a, R a a) -> Forall2 R l l.
Proof. intros H. induction l; constructor; auto. Qed.

Lemma Forall2_trans' {A} (R : A -> A -> Prop) :
  (forall a b c, R a b -> R b c -> R a c) ->
  forall l1 l2 l3, Forall2 R l1 l2 -> Forall2 R l2 l3 -> Forall2 R l1 l3.
Proof.
  intros Ht l1 l2 l3 H12. revert l3.
  induction H12; intros l3 H23; inversion H23; subst; constructor; eauto.
Qed.

Lemma uploads_keep_items locId itemId files w :
  let w' := snd (uploadAll (uploadItemFile hashOf locId itemId) files w) in
  World.collectionItems w' = World.collectionItems w
  /\ World.rejects w' = World.rejects w
  /\ Forall2 sameButFiles (World.offchainItems w) (World.offchainItems w').
Proof.
  revert w. induction files as [|file files IH]; intros w; cbn [uploadAll].
  - simpl. repeat split. apply Forall2_same. intros a. repeat split.
  - destruct (hasContent (ItemFileWithContent.hashOrContent file)); [| apply IH].
    cbv zeta. unfold World.mbind.
    destruct (uploadItemFile hashOf locId itemId file w) as [[[]|e] w1] eqn:Hup.
    + assert (H1 : World.collectionItems w1 = World.collectionItems w
                   /\ World.rejects w1 = World.rejects w
                   /\ Forall2 sameButFiles (World.offchainItems w) (World.offchainItems w1)).
      { unfold uploadItemFile, World.mbind, World.lift, World.tryCatch, World.throw,
          World.perform in Hup.
        destruct (contentHash _) as [hash|]; [| discriminate].
        destruct (World.rejects w _); [discriminate |].
        injection Hup as <-. repeat split.
        cbn. apply Forall2_fmap_same. intros a.
        destruct (World.isItem locId itemId a); repeat split. }
      cbv zeta in IH. destruct (IH w1) as (Hc & Hr & Hf). destruct H1 as (Hc1 & Hr1 & Hf1).
      cbn [snd] in *. repeat split; [congruence | congruence |].
      eapply Forall2_trans'; [| exact Hf1 | exact Hf].
      intros a b c (?&?&?&?) (?&?&?&?). repeat split; congruence.
    + cbn [snd].
      unfold uploadItemFile, World.mbind, World.lift, World.tryCatch, World.throw,
        World.perform in Hup.
      destruct (contentHash _) as [hash|].
      * destruct (World.rejects w _); [| discriminate].
        injection Hup as _ <-. repeat split.
        cbn. apply Forall2_same. intros a. repeat split.
      * injection Hup as _ <-. repeat split.
        apply Forall2_same. intros a. repeat split.
Qed.

Lemma find_app_None {A} (p : A -> bool) (l1 l2 : list A) :
  List.find p l1 = None -> List.find p (l1 ++ l2) = List.find p l2.
Proof.
  induction l1 as [|a l1 IH]; simpl; [reflexivity |].
  destruct (p a); [discriminate | exact IH].
Qed.

Lemma find_Forall2 {A} (R : A -> A -> Prop) (p : A -> bool) (l l' : list A) :
  (forall a b, R a b -> p b = p a) ->
  Forall2 R l l' ->
  match List.find p l with
  | None => List.find p l' = None
  | Some a => exists b, List.find p l' = Some b /\ R a b
  end.
Proof.
  intros Hp H. induction H as [|a b l l' Hab H IH]; simpl; [reflexivity |].
  rewrite (Hp _ _ Hab). destruct (p a); [eauto | exact IH].
Qed.

(** X13. An added item can be read back.  Once the backend has accepted
    the announcement and the ledger the extrinsic of [addCollectionItem],
    and whatever becomes of the uploads that follow, [getCollectionItem]
    finds the item: it has the given id, its description is the given text
    with the digest of that text, and it is dated by the backend's clock.
    The LOC must not hold an item of that id before. *)
Theorem added_item_can_be_read (w : World.t) (current : ValidAccountId.t)
        parameters itemFiles item submittable :
  let locId := AddCollectionItemParams.locId parameters in
  let itemId := AddCollectionItemParams.itemId parameters in
  let itemDescription := AddCollectionItemParams.itemDescription parameters in
  currentAddress = Some current ->
  preparedCollectionItem parameters = Ok (itemFiles, item, submittable) ->
  World.rejects w (World.PostCollectionItem locId item) = None ->
  World.rejects w (World.SignAndSend (ValidAccountId.address current) submittable) = None ->
  World.rejects w (World.GetCollectionItem locId itemId) = None ->
  World.queries_getCollectionItem w locId itemId = None ->
  List.find (World.isItem locId itemId) (World.offchainItems w) = None ->
  exists merged,
    getCollectionItem (snd (addCollectionItem parameters w)) locId itemId = Ok (Some merged)
    /\ UploadableCollectionItem.id merged = itemId
    /\ UploadableCollectionItem.description merged
       = {| hash := hashOf itemDescription; value := Some itemDescription |}
    /\ UploadableCollectionItem.addedOn merged = World.clock w.
Proof.
  intros locId itemId itemDescription Hcur Hprep Hpost Hsign Hget Hchain Hoff.
  destruct (prepared_item_shape _ _ _ _ Hprep)
    as (Hid & Hdesc & files & token & rd & terms & Hsub).
  rewrite addCollectionItem_prepared, Hprep.
  unfold AuthenticatedLocClient.announceAndSubmitItem, submitItemPublicData,
    World.mbind, World.tryCatch, World.lift, World.throw, signerId.
  fold locId itemId. rewrite Hcur, (perform_accepted _ _ Hpost). cbv beta iota.
  set (w1 := World.effect (World.PostCollectionItem locId item)
                          (World.logged (World.PostCollectionItem locId item) w)).
  assert (Hsign1 : World.rejects w1
                     (World.SignAndSend (ValidAccountId.address current) submittable)
                   = None)
    by (subst w1; now rewrite rejects_effect, rejects_logged).
  rewrite (perform_accepted _ _ Hsign1). cbv beta iota.
  set (w2 := World.effect _ (World.logged _ w1)).
  set (w3 := snd _).
  assert (H3 : World.collectionItems w3 = World.collectionItems w2
               /\ World.rejects w3 = World.rejects w2
               /\ Forall2 sameButFiles (World.offchainItems w2) (World.offchainItems w3)).
  { subst w3. destruct itemFiles as [fs|].
    - apply uploads_keep_items.
    - simpl. repeat split. apply Forall2_same. intros a. repeat split. }
  destruct H3 as (Hc3 & Hr3 & Hf3).
  assert (Hc2 : World.collectionItems w2
                = World.collectionItems w
                    ++ [ (locId,
                          {| CollectionItem.id := itemId;
                             CollectionItem.description := hashOf itemDescription;
                             CollectionItem.files := files;
                             CollectionItem.token := token;
                             CollectionItem.restrictedDelivery := rd;
                             CollectionItem.termsAndConditions := terms |}) ]).
  { subst w2. rewrite Hsub. reflexivity. }
  assert (Ho2 : exists new,
               World.offchainItems w2 = World.offchainItems w ++ [new]
               /\ World.isItem locId itemId new = true
               /\ OffchainCollectionItem.description new = Some itemDescription
               /\ OffchainCollectionItem.addedOn new = World.clock w).
  { subst w2. rewrite Hsub. eexists. split; [reflexivity |]. cbn.
    unfold World.isItem. cbn. rewrite Hid, Hdesc, !String.eqb_refl. auto. }
  destruct Ho2 as (new & Ho2 & Hnew & Hnd & Hna).
  assert (Hr2 : World.rejects w2 = World.rejects w).
  { subst w2 w1. now rewrite rejects_effect, rejects_logged, rejects_effect, rejects_logged. }
  unfold LocClient.getCollectionItem, World.queries_getCollectionItem,
    LocClient.getOffchainItem, World.get_collection_item.
  rewrite Hc3, Hc2, Hr3, Hr2, Hget.
  unfold World.queries_getCollectionItem in Hchain.
  destruct (List.find _ (World.collectionItems w)) eqn:Hfind in Hchain; [discriminate |].
  rewrite (find_app_None _ _ _ Hfind). cbn [List.find fst snd CollectionItem.id].
  rewrite !String.eqb_refl. cbn [andb fmap option_fmap option_map snd].
  pose proof (find_Forall2 sameButFiles (World.isItem locId itemId) _ _
                ltac:(intros a b (Hl & Hi & _); unfold World.isItem; now rewrite Hl, Hi)
                Hf3) as Hf.
  rewrite Ho2, (find_app_None _ _ _ Hoff) in Hf. cbn [List.find] in Hf.
  rewrite Hnew in Hf. destruct Hf as (new' & -> & _ & _ & Hd' & Ha').
  cbn. eexists. split; [reflexivity |]. cbn. rewrite Hd', Ha', Hnd, Hna. auto.
Qed.

Lemma mapM_Forall_Ok {A B} (f : A -> result B) (l : list A) bs :
  mapM f l = Ok bs -> Forall (fun a => exists b, f a = Ok b) l.
Proof.
  revert bs. induction l as [|a l IH]; simpl; intros bs H; constructor.
  - destruct (f a); [eauto | discriminate].
  - destruct (f a); [| discriminate].
    destruct (mapM f l) as [bs'|]; [| discriminate]. eauto.
Qed.

Lemma prepared_files_hashed parameters files item submittable :
  preparedCollectionItem parameters = Ok (Some files, item, submittable) ->
  Forall (fun file => exists hash,
              contentHash (ItemFileWithContent.hashOrContent file) = Ok hash) files.
Proof.
  unfold AuthenticatedLocClient.preparedCollectionItem.
  destruct (AuthenticatedLocClient.checkedBeforeTerms _ _ _ _ _ parameters) as [checked|];
    cbn [bind]; [| discriminate].
  match goal with
  | |- bind ?m _ = _ -> _ => destruct m as [exclusiveTerms|]; cbn [bind]; [| discriminate]
  end.
  destruct (fst checked) as [fs|] eqn:Hfs; [| cbn [bind]; discriminate].
  destruct (mapM offchainItemFile fs) as [off|] eqn:Hoff; cbn [bind]; [| discriminate].
  intros H. injection H as <- _ _.
  apply mapM_Forall_Ok in Hoff. eapply Forall_impl; [exact Hoff |].
  intros file (b & Hb). unfold offchainItemFile in Hb.
  destruct (contentHash _); [eauto | discriminate].
Qed.

(** The upload that [uploadItemFile] issues for a file. *)
Local Abbreviation uploads_of locId itemId :=
  (fun (file : ItemFileWithContent.t) (c : World.Call) =>
     exists hash,
       contentHash (ItemFileWithContent.hashOrContent file) = Ok hash
       /\ c = World.PostCollectionItemFile locId itemId hash (ItemFileWithContent.name file)).

Lemma uploads_accepted locId itemId files w :
  (forall c, World.rejects w c = None) ->
  Forall (fun file => exists hash,
              contentHash (ItemFileWithContent.hashOrContent file) = Ok hash) files ->
  exists uploads,
    fst (uploadAll (uploadItemFile hashOf locId itemId) files w) = Ok tt
    /\ World.calls (snd (uploadAll (uploadItemFile hashOf locId itemId) files w))
       = World.calls w ++ uploads
    /\ Forall2 (uploads_of locId itemId)
         (List.filter (fun file => hasContent (ItemFileWithContent.hashOrContent file)) files)
         uploads.
Proof.
  intros Hacc Hfiles. revert w Hacc.
  induction Hfiles as [|file files (hash & Hhash) _ IH]; intros w Hacc.
  - exists []. simpl. rewrite app_nil_r. repeat split. constructor.
  - cbn [uploadAll List.filter].
    destruct (hasContent (ItemFileWithContent.hashOrContent file)); [| apply IH, Hacc].
    unfold World.mbind.
    assert (Hup : uploadItemFile hashOf locId itemId file w
                  = (Ok tt,
                     World.effect
                       (World.PostCollectionItemFile locId itemId hash
                          (ItemFileWithContent.name file))
                       (World.logged
                          (World.PostCollectionItemFile locId itemId hash
                             (ItemFileWithContent.name file)) w)));
      [unfold uploadItemFile, World.mbind, World.lift, World.tryCatch | rewrite Hup].
    assert (Hfin : Hash.finalize hashOf (ItemFileWithContent.hashOrContent file)
                   = ItemFileWithContent.hashOrContent file).
    { unfold Hash.finalize. unfold contentHash in Hhash.
      destruct (_hash _); [| discriminate]. destruct (finalized _); [reflexivity | discriminate]. }
    { rewrite Hfin, Hhash, (perform_accepted _ _ (Hacc _)). reflexivity. }
    set (c := World.PostCollectionItemFile _ _ _ _).
    destruct (IH (World.effect c (World.logged c w))) as (uploads & Hok & Hcalls & Hall).
    { intros c'. now rewrite rejects_effect, rejects_logged. }
    exists (c :: uploads). split; [exact Hok |]. split.
    + rewrite Hcalls, calls_effect, calls_logged, <- app_assoc. reflexivity.
    + constructor; [| exact Hall]. exists hash. auto.
Qed.

(** X14. What a successful addition sends, and in which order.  When
    backend and ledger accept every call, [addCollectionItem] returns
    normally after exactly: the announcement of the public data, the
    signed extrinsic, and then one upload per file that was given with its
    content, in the order of the files; a file given by its hash alone is
    not uploaded. *)
Theorem accepted_addition_sends (w : World.t) (current : ValidAccountId.t)
        parameters itemFiles item submittable :
  let locId := AddCollectionItemParams.locId parameters in
  let itemId := AddCollectionItemParams.itemId parameters in
  currentAddress = Some current ->
  preparedCollectionItem parameters = Ok (itemFiles, item, submittable) ->
  (forall c, World.rejects w c = None) ->
  exists uploads,
    fst (addCollectionItem parameters w) = Ok tt
    /\ World.calls (snd (addCollectionItem parameters w))
       = World.calls w
           ++ [ World.PostCollectionItem locId item;
                World.SignAndSend (ValidAccountId.address current) submittable ]
           ++ uploads
    /\ Forall2 (uploads_of locId itemId)
         (List.filter (fun file => hasContent (ItemFileWithContent.hashOrContent file))
                      (default [] itemFiles))
         uploads.
Proof.
  intros locId itemId Hcur Hprep Hacc.
  rewrite addCollectionItem_prepared, Hprep.
  unfold AuthenticatedLocClient.announceAndSubmitItem, submitItemPublicData,
    World.mbind, World.tryCatch, World.lift, World.throw, signerId.
  fold locId itemId. rewrite Hcur, (perform_accepted _ _ (Hacc _)). cbv beta iota.
  set (w1 := World.effect (World.PostCollectionItem locId item)
                          (World.logged (World.PostCollectionItem locId item) w)).
  assert (Hacc1 : forall c, World.rejects w1 c = None)
    by (intros c; subst w1; now rewrite rejects_effect, rejects_logged).
  rewrite (perform_accepted _ _ (Hacc1 _)). cbv beta iota.
  set (w2 := World.effect _ (World.logged _ w1)).
  assert (Hacc2 : forall c, World.rejects w2 c = None)
    by (intros c; subst w2; now rewrite rejects_effect, rejects_logged).
  assert (Hcalls2 : World.calls w2
                    = World.calls w
                        ++ [ World.PostCollectionItem locId item;
                             World.SignAndSend (ValidAccountId.address current) submittable ]).
  { subst w2 w1. rewrite calls_effect, calls_logged, calls_effect, calls_logged,
      <- app_assoc. reflexivity. }
  destruct itemFiles as [files|].
  - destruct (uploads_accepted locId itemId files w2 Hacc2
                (prepared_files_hashed _ _ _ _ Hprep))
      as (uploads & Hok & Hcalls & Hall).
    exists uploads. split; [exact Hok |]. split; [| exact Hall].
    rewrite Hcalls, Hcalls2, <- app_assoc. reflexivity.
  - exists []. simpl. repeat split; [exact Hcalls2 | constructor].
Qed.

End AnnouncementFacts.

(** ** The further properties at concrete inputs *)

(** Both items that alice added are listed, and each is what the single
    query returns. *)
Lemma listing_agrees_with_single_query_witness :
  exists first second,
    LocClient.getCollectionItems Examples.noTerms Scenarios.twoItemsAdded "loc"
    = Js.Ok [first; second]
    /\ LocClient.getCollectionItem Examples.noTerms Scenarios.twoItemsAdded "loc" "0x02"
       = Js.Ok (Some second).
Proof.
  eexists _, _. split; [vm_compute; reflexivity |].
  refine (listing_agrees_with_single_query Examples.noTerms Scenarios.twoItemsAdded "loc"
            _ _ eq_refl _ _ eq_refl _ (or_intror (or_introl eq_refl)) eq_refl);
    vm_compute; repeat constructor; simpl; intuition discriminate.
Defined.

(** The item that was announced and never reached the ledger breaks the
    listing of its LOC. *)
Lemma listing_fails_on_unconfirmed_item_witness :
  LocClient.getCollectionItems Examples.noTerms Scenarios.announcedOnly "loc"
  = Js.Throw (Js.BackendError (Js.TypeError LocClient.READING_ID)).
Proof.
  refine (proj2 (listing_fails_on_unconfirmed_item Examples.noTerms
                   Scenarios.announcedOnly "loc" _ _ eq_refl (or_introl eq_refl) _) _ _).
  - intros on H. destruct H.
  - intros item [<-|[]]. reflexivity.
  - intros on H. destruct H.
Defined.

(** The backend lists an item under the id [constructor], which the plain
    object of ledger entries inherits: the listing fails at [files.map]. *)
Lemma listing_fails_at_files_map :
  LocClient.getCollectionItems Examples.noTerms Scenarios.prototypeNamed "loc"
  = Js.Throw (Js.BackendError (Js.TypeError LocClient.READING_MAP)).
Proof. reflexivity. Qed.

(** The backend refuses the announcement of the plain item: one call, a
    backend error, nothing stored. *)
Lemma refused_announcement_stops_the_submission_witness :
  exists item,
    Scenarios.addItemAs Examples.alice Examples.plainItem
      (Examples.emptyWorld Scenarios.announcementRefused)
    = (Js.Throw (Js.BackendError (Js.HttpError 403)),
       World.logged (World.PostCollectionItem "loc" item)
                    (Examples.emptyWorld Scenarios.announcementRefused)).
Proof.
  eexists.
  exact (proj1 (refused_announcement_stops_the_submission Examples.hashOf
                  Examples.JSON_parse Examples.isHex Examples.isValidBech32Address
                  Examples.createType_AccountId (Some Examples.alice)
                  (Examples.emptyWorld Scenarios.announcementRefused) (Js.HttpError 403))
               Examples.plainItem _ _ _ eq_refl eq_refl).
Defined.

(** Restricted delivery without a token: refused before any call. *)
Lemma restricted_delivery_needs_file_and_token_witness :
  exists e,
    Scenarios.addItemAs Examples.alice Scenarios.restrictedWithoutToken
      (Examples.emptyWorld Examples.acceptAll)
    = (Js.Throw e, Examples.emptyWorld Examples.acceptAll).
Proof.
  exact (proj2 (restricted_delivery_needs_file_and_token Examples.hashOf
                  Examples.JSON_parse Examples.isHex Examples.isValidBech32Address
                  Examples.createType_AccountId (Some Examples.alice)
                  Scenarios.restrictedWithoutToken
                  (Examples.emptyWorld Examples.acceptAll) eq_refl)
               eq_refl).
Defined.

(** The item with files, added to an empty world, is read back. *)
Lemma added_item_can_be_read_witness :
  exists merged,
    LocClient.getCollectionItem Examples.noTerms
      (snd (Scenarios.addItemAs Examples.alice Scenarios.itemWithFiles
              (Examples.emptyWorld Examples.acceptAll)))
      "loc" "0x02"
    = Js.Ok (Some merged)
    /\ Types.UploadableCollectionItem.id merged = "0x02"
    /\ Types.UploadableCollectionItem.description merged
       = {| Hash.hash := "0xsecond item"; Hash.value := Some "second item" |}
    /\ Types.UploadableCollectionItem.addedOn merged = "2023-06-01T00:00:00Z".
Proof.
  exact (added_item_can_be_read Examples.hashOf Examples.JSON_parse Examples.isHex
           Examples.isValidBech32Address Examples.createType_AccountId
           (Some Examples.alice) Examples.noTerms
           (Examples.emptyWorld Examples.acceptAll) Examples.alice
           Scenarios.itemWithFiles _ _ _
           eq_refl eq_refl eq_refl eq_refl eq_refl eq_refl eq_refl).
Defined.

(** The item with files: announcement, extrinsic, and one upload, of the
    file that came with its content. *)
Lemma accepted_addition_sends_witness :
  exists item submittable uploads,
    fst (Scenarios.addItemAs Examples.alice Scenarios.itemWithFiles
           (Examples.emptyWorld Examples.acceptAll)) = Js.Ok tt
    /\ World.calls (snd (Scenarios.addItemAs Examples.alice Scenarios.itemWithFiles
                           (Examples.emptyWorld Examples.acceptAll)))
       = [ World.PostCollectionItem "loc" item; World.SignAndSend "alice" submittable ]
           ++ uploads
    /\ length uploads = 1%nat.
Proof.
  destruct (accepted_addition_sends Examples.hashOf Examples.JSON_parse Examples.isHex
              Examples.isValidBech32Address Examples.createType_AccountId
              (Some Examples.alice)
              (Examples.emptyWorld Examples.acceptAll) Examples.alice
              Scenarios.itemWithFiles _ _ _ eq_refl eq_refl (fun _ => eq_refl))
    as (uploads & Hok & Hcalls & Hall).
  eexists _, _, uploads. split; [exact Hok |]. split; [exact Hcalls |].
  apply Forall2_length in Hall. rewrite <- Hall. reflexivity.
Defined.

(** ** Who may add a tokens record *)

Section RecordRightsFacts.
Import Js Hash NodeApi Types AuthenticatedLocClient.
Variable toDecimalString : string -> string.
Variable currentAddress : ValidAccountId.t.
Variable locs : string -> LocBatch.t.

Local Abbreviation canAddRecord :=
  (RecordRights.canAddRecord toDecimalString currentAddress locs).
Local Abbreviation getLocIssuers :=
  (AuthenticatedLocClient.getLocIssuers toDecimalString (Some currentAddress)).

Lemma requester_test request :
  match LocRequest.requesterAddress request with
  | Some requester =>
      String.eqb (ValidAccountId.address currentAddress)
                 (SupportedAccountId.address requester)
      && String.eqb (ValidAccountId.type currentAddress)
                    (SupportedAccountId.type requester)
  | None => false
  end = true
  <-> isRequester currentAddress request.
Proof.
  unfold isRequester. destruct (LocRequest.requesterAddress request) as [requester|].
  - rewrite andb_true_iff, !String.eqb_eq. split.
    + intros [H1 H2]. eauto.
    + intros (r & [= <-] & H1 & H2). auto.
  - split; [discriminate | intros (r & [=] & _)].
Qed.

(** X15. Who may add a tokens record.  [canAddRecord] answers [true]
    exactly for the requester of the LOC (same address and same account
    type), for the owner's address (whatever the account type), and, the
    LOC being OPEN or CLOSED and the issuer query returning, for a Polkadot
    account that the ledger has selected as issuer of the LOC.  The
    issuers the backend lists play no part. *)
Theorem canAddRecord_true_iff (request : LocRequest.t) :
  canAddRecord request = Ok true
  <-> isRequester currentAddress request
      \/ ValidAccountId.address currentAddress = LocRequest.ownerAddress request
      \/ (ValidAccountId.type currentAddress = "Polkadot"
          /\ isOpenOrClosed (LocRequest.status request) = true
          /\ (exists issuers,
                 getLocIssuers request (locs (LocRequest.id request)) = Ok issuers)
          /\ exists nodeIssuers,
               LocBatch.getLocsVerifiedIssuers (locs (LocRequest.id request))
                 !! toDecimalString (LocRequest.id request) = Some nodeIssuers
               /\ isSelectedIssuer currentAddress nodeIssuers).
Proof.
  unfold RecordRights.canAddRecord.
  pose proof (requester_test request) as Hreq.
  destruct (match LocRequest.requesterAddress request with Some _ => _ | None => _ end) eqn:Hr.
  { split; [intros _; left; now apply Hreq | reflexivity]. }
  destruct (String.eqb_spec (ValidAccountId.address currentAddress)
                            (LocRequest.ownerAddress request)) as [Ho|Ho].
  { split; [intros _; right; left; exact Ho | reflexivity]. }
  assert (Hnot : ~ isRequester currentAddress request)
    by (intros H; apply Hreq in H; discriminate).
  unfold RecordRights.isIssuerOf.
  split.
  - intros H. right. right.
    destruct (getLocIssuers request (locs (LocRequest.id request))) as [res|] eqn:Hget;
      [| discriminate].
    cbn [bind] in H.
    destruct (List.find _ (LocVerifiedIssuers.issuers res)) as [issuer|] eqn:Hfind;
      [| discriminate].
    apply List.find_some in Hfind. destruct Hfind as [Hin Hp].
    apply andb_true_iff in Hp. rewrite !String.eqb_eq in Hp. destruct Hp as [Haddr Htype].
    destruct (isOpenOrClosed (LocRequest.status request)) eqn:Hs.
    2:{ unfold AuthenticatedLocClient.getLocIssuers in Hget. rewrite Hs in Hget.
        injection Hget as <-. destruct Hin. }
    destruct (LocBatch.getLocsVerifiedIssuers (locs (LocRequest.id request))
                !! toDecimalString (LocRequest.id request)) as [nodeIssuers|] eqn:Hn.
    2:{ unfold AuthenticatedLocClient.getLocIssuers in Hget. rewrite Hs in Hget.
        cbn [negb] in Hget.
        match type of Hget with
        | bind ?v _ = _ => destruct v; [| discriminate]
        end.
        cbn [bind] in Hget. rewrite Hn in Hget. discriminate. }
    repeat split; eauto. exists nodeIssuers. split; [reflexivity |].
    rewrite (getLocIssuers_open _ _ _ _ _ _ Hget Hs Hn) in Hin.
    destruct (maySeeIdentities _ _ _) eqn:Hsee.
    + apply maySeeIdentities_spec in Hsee. destruct Hsee as [H'|[[H' _]|H']]; tauto.
    + unfold isSelectedIssuer. apply in_map_iff in Hin. destruct Hin as (n & <- & Hn').
      simpl in Haddr. rewrite <- Haddr. now apply in_map.
  - intros [H|[H|(Htype & Hs & (res & Hget) & nodeIssuers & Hn & Hsel)]]; [tauto | tauto |].
    rewrite Hget. cbn [bind].
    rewrite (getLocIssuers_open _ _ _ _ _ _ Hget Hs Hn).
    assert (Hsee : maySeeIdentities currentAddress request
                     (list_to_set (VerifiedIssuerType.address <$> nodeIssuers)) = true)
      by (apply maySeeIdentities_spec; auto).
    rewrite Hsee.
    match goal with
    | |- Ok (match List.find ?p ?l with _ => _ end) = _ =>
        assert (Hex : exists x, In x l /\ p x = true)
    end.
    { unfold isSelectedIssuer in Hsel. apply in_map_iff in Hsel.
      destruct Hsel as (n & Hna & Hnin).
      destruct (decide (VerifiedIssuerType.address n
                          ∈ (list_to_set (VerifiedIssuerIdentity.address
                                            <$> LocRequest.selectedIssuers request)
                             : gset string))) as [Hb|Hb].
      - apply elem_of_list_to_set, list_elem_of_In, in_map_iff in Hb.
        destruct Hb as (b & Hba & Hbin).
        eexists. split; [apply in_or_app; left; apply in_map; exact Hbin |].
        simpl. rewrite Hba, Hna, Htype, !String.eqb_refl. reflexivity.
      - eexists. split.
        + apply in_or_app. right. apply in_map. apply filter_In. split; [exact Hnin |].
          apply negb_true_iff, bool_decide_eq_false. exact Hb.
        + simpl. rewrite Hna, Htype, !String.eqb_refl. reflexivity. }
    destruct Hex as (x & Hx & Hp).
    match goal with
    | |- Ok (match List.find ?p ?l with _ => _ end) = _ =>
        destruct (find_In_is_Some p l x Hx Hp) as (y & ->)
    end.
    reflexivity.
Qed.

End RecordRightsFacts.

(** ** The life cycle of a LOC *)

Section WorkflowFacts.
Import Js Hash NodeApi Types Workflow.
Variable hashOf : string -> Hash.
Variable currentAddress : ValidAccountId.t.
Variable requireDefined : option Signer -> result Signer.
Variable toOtherAccountId : SupportedAccountId.t -> result string.

Local Abbreviation me := (ValidAccountId.address currentAddress).

Ltac run_workflow :=
  intros w;
  unfold mbind, tryCatch, throw, signAndSend, openLoc, acceptLoc, perform, tryCatch, throw;
  cbn [rejects logged calls];
  repeat match goal with
         | |- context [rejects w ?c] => destruct (rejects w c); cbn [rejects logged calls]
         end;
  reflexivity.

(** X16. The ledger is written first, the backend told second.  Each of
    the methods that publish or acknowledge a file, a metadata item or a
    link, that open a transaction, identity or collection LOC, and that
    close or void a LOC, signs its one extrinsic first.  When the ledger
    refuses it the method raises that error as it is and sends nothing to
    the backend; when the ledger accepts it the method sends its one
    request to the backend and, if that is refused, raises the refusal as
    a backend error, the extrinsic staying accepted: no second attempt and
    no compensation. *)
Theorem ledger_first_backend_second (locId : string) :
  (forall file,
      signsThenTells me (logionLoc.addFile locId file)
        (Put ("/api/loc-request/" +:+ locId +:+ "/files/" +:+ file +:+ "/confirm"))
        (publishFile currentAddress locId file))
  /\ (forall hash,
         signsThenTells me (logionLoc.acknowledgeFile locId hash)
           (Put ("/api/loc-request/" +:+ locId +:+ "/files/" +:+ hash
                   +:+ "/confirm-acknowledged"))
           (acknowledgeFile currentAddress locId hash))
  /\ (forall name value submitter,
         signsThenTells me
           (logionLoc.addMetadata locId (hashOf name) (hashOf value) submitter)
           (Put ("/api/loc-request/" +:+ locId +:+ "/metadata/" +:+ hashOf name
                   +:+ "/confirm"))
           (publishMetadata hashOf currentAddress locId name value submitter))
  /\ (forall nameHash,
         signsThenTells me (logionLoc.acknowledgeMetadata locId nameHash)
           (Put ("/api/loc-request/" +:+ locId +:+ "/metadata/" +:+ nameHash
                   +:+ "/confirm-acknowledged"))
           (acknowledgeMetadata currentAddress locId nameHash))
  /\ (forall link,
         signsThenTells me (logionLoc.addLink locId link)
           (Put ("/api/loc-request/" +:+ locId +:+ "/links/" +:+ link +:+ "/confirm"))
           (publishLink currentAddress locId link))
  /\ (forall legalOfficer,
         signsThenTells me (logionLoc.createPolkadotTransactionLoc locId legalOfficer)
           (Post ("/api/loc-request/" +:+ locId +:+ "/open") [])
           (openTransactionLoc currentAddress locId legalOfficer))
  /\ (forall legalOfficer,
         signsThenTells me (logionLoc.createPolkadotIdentityLoc locId legalOfficer)
           (Post ("/api/loc-request/" +:+ locId +:+ "/open") [])
           (openIdentityLoc currentAddress locId legalOfficer))
  /\ (forall legalOfficer lastBlock maxSize canUpload,
         signsThenTells me
           (logionLoc.createCollectionLoc locId legalOfficer (orNull lastBlock)
              (orNull maxSize) canUpload)
           (Post ("/api/loc-request/" +:+ locId +:+ "/open") [])
           (openCollectionLoc currentAddress locId legalOfficer lastBlock maxSize canUpload))
  /\ (forall seal,
         exists submittable,
           signsThenTells me submittable
             (Post ("/api/loc-request/" +:+ locId +:+ "/close") [])
             (close currentAddress locId seal))
  /\ (forall replacer reason,
         exists submittable,
           signsThenTells me submittable
             (Post ("/api/loc-request/" +:+ locId +:+ "/void") [ ("reason", reason) ])
             (voidLoc currentAddress locId replacer reason)).
Proof.
  repeat split; intros;
    try (unfold publishFile, acknowledgeFile, publishMetadata, acknowledgeMetadata,
           publishLink, openTransactionLoc, openIdentityLoc, openCollectionLoc;
         run_workflow).
  - unfold close. destruct seal as [seal|]; [destruct (truthyString seal) |];
      [exists (logionLoc.closeAndSeal locId seal) | exists (logionLoc.close locId) ..];
      run_workflow.
  - unfold voidLoc. destruct replacer as [replacer|];
      [exists (logionLoc.makeVoidAndReplace locId replacer)
      | exists (logionLoc.makeVoid locId)];
      run_workflow.
Qed.

Local Abbreviation accept locId := (Post ("/api/loc-request/" +:+ locId +:+ "/accept") []).

(** X17. Accepting for an account leaves the ledger alone.  Accepting a
    collection LOC, a transaction LOC whose requester account is given
    (whatever requester LOC or signer comes with it), or an identity LOC
    whose requester is a Polkadot account, sends the backend one accept
    request and signs nothing.  Accepting a transaction LOC with neither
    requester, or an identity LOC for another kind of account without a
    sponsorship, is refused before anything is sent. *)
Theorem accepting_for_an_account_leaves_the_ledger_alone (locId : string) (w : Workflow.t) :
  let outcome :=
    (match rejects w (accept locId) with
     | Some e => Throw (BackendError e)
     | None => Ok tt
     end,
     logged (accept locId) w) in
  acceptCollectionLoc locId w = outcome
  /\ (forall requesterAccount requesterLoc signer,
         acceptTransactionLoc currentAddress requireDefined locId
           (Some requesterAccount) requesterLoc signer w = outcome)
  /\ (forall requesterAccount sponsorshipId signer,
         SupportedAccountId.type requesterAccount = "Polkadot" ->
         acceptIdentityLoc currentAddress requireDefined toOtherAccountId locId
           (Some requesterAccount) sponsorshipId signer w = outcome)
  /\ (forall signer,
         acceptTransactionLoc currentAddress requireDefined locId None None signer w
         = (Throw (Error "No requester provided"), w))
  /\ (forall requesterAccount signer,
         SupportedAccountId.type requesterAccount <> "Polkadot" ->
         acceptIdentityLoc currentAddress requireDefined toOtherAccountId locId
           (Some requesterAccount) None signer w
         = (Throw (Error "Other Identity LOCs can only be created with a sponsorship"), w)).
Proof.
  cbv zeta.
  assert (H : acceptLoc locId w
              = (match rejects w (accept locId) with
                 | Some e => Throw (BackendError e)
                 | None => Ok tt
                 end, logged (accept locId) w)).
  { unfold acceptLoc, tryCatch, perform, throw. destruct (rejects w _); reflexivity. }
  repeat split.
  - exact H.
  - intros. exact H.
  - intros requesterAccount sponsorshipId s Htype. unfold acceptIdentityLoc.
    rewrite Htype. exact H.
  - intros requesterAccount s Htype. unfold acceptIdentityLoc.
    destruct (String.eqb_spec (SupportedAccountId.type requesterAccount) "Polkadot");
      [contradiction | reflexivity].
Qed.

(** X18. Accepting with an extrinsic.  When the signer is there, accepting
    a transaction LOC requested through a LOC, or an identity LOC without
    a requester account, signs the extrinsic that creates the LOC first and
    sends the accept request only once the ledger has accepted it. *)
Theorem accepting_with_an_extrinsic (locId : string) (given : option Signer) (s : Signer) :
  requireDefined given = Ok s ->
  (forall requesterLoc,
      signsThenTells me (logionLoc.createLogionTransactionLoc locId requesterLoc)
        (accept locId)
        (acceptTransactionLoc currentAddress requireDefined locId None
           (Some requesterLoc) given))
  /\ (forall sponsorshipId,
         signsThenTells me (logionLoc.createLogionIdentityLoc locId) (accept locId)
           (acceptIdentityLoc currentAddress requireDefined toOtherAccountId locId None
              sponsorshipId given)).
Proof.
  intros Hs. split; intros;
    unfold acceptTransactionLoc, acceptIdentityLoc; intros w;
    unfold mbind at 1; unfold lift; rewrite Hs; revert w; run_workflow.
Qed.

(** X19. Falsy parameters are dropped.  A last block of submission or a
    maximum size of 0 given to [openCollectionLoc] is submitted as no limit
    at all, and an empty seal given to [close] as no seal: the calls are
    the calls made without the parameter. *)
Theorem falsy_parameters_are_dropped (locId : string) :
  (forall legalOfficer maxSize canUpload,
      openCollectionLoc currentAddress locId legalOfficer (Some 0%Z) maxSize canUpload
      = openCollectionLoc currentAddress locId legalOfficer None maxSize canUpload)
  /\ (forall legalOfficer lastBlock canUpload,
         openCollectionLoc currentAddress locId legalOfficer lastBlock (Some 0%Z) canUpload
         = openCollectionLoc currentAddress locId legalOfficer lastBlock None canUpload)
  /\ close currentAddress locId (Some "") = close currentAddress locId None.
Proof. repeat split. Qed.

End WorkflowFacts.

(** An identity LOC is accepted for an Ethereum account without a
    sponsorship: refused, nothing sent. *)
Lemma accepting_for_an_account_leaves_the_ledger_alone_witness :
  Workflow.acceptIdentityLoc Examples.owner WorkflowScenarios.requireDefined
    WorkflowScenarios.toOtherAccountId "loc"
    (Some WorkflowScenarios.ethereumRequester) None (Some Workflow.signer)
    WorkflowScenarios.quiet
  = (Js.Throw (Js.Error "Other Identity LOCs can only be created with a sponsorship"),
     WorkflowScenarios.quiet).
Proof.
  refine (proj2 (proj2 (proj2 (proj2
            (accepting_for_an_account_leaves_the_ledger_alone Examples.owner
               WorkflowScenarios.requireDefined WorkflowScenarios.toOtherAccountId
               "loc" WorkflowScenarios.quiet))))
            WorkflowScenarios.ethereumRequester (Some Workflow.signer) _).
  discriminate.
Defined.

(** A transaction LOC requested through a LOC is accepted with a signer:
    the extrinsic, then the accept request. *)
Lemma accepting_with_an_extrinsic_witness :
  Workflow.acceptTransactionLoc Examples.owner WorkflowScenarios.requireDefined "loc"
    None (Some "requester-loc") (Some Workflow.signer) WorkflowScenarios.quiet
  = (Js.Ok tt,
     {| Workflow.rejects := fun _ => None;
        Workflow.calls :=
          [ Workflow.SignAndSend "owner"
              (Workflow.logionLoc.createLogionTransactionLoc "loc" "requester-loc");
            Workflow.Post "/api/loc-request/loc/accept" [] ] |}).
Proof.
  exact (proj1 (accepting_with_an_extrinsic Examples.owner
                  WorkflowScenarios.requireDefined WorkflowScenarios.toOtherAccountId
                  "loc" (Some Workflow.signer) Workflow.signer eq_refl)
               "requester-loc" WorkflowScenarios.quiet).
Defined.

(** ** Legal officer cases by id *)

Section QueriesFacts.
Variable LegalOfficerCase : Type.
Variable toHexString : string -> string.
Variable toDecimalString : string -> string.
Variable locMap : string -> option LegalOfficerCase.

Local Abbreviation getLegalOfficerCase :=
  (Queries.getLegalOfficerCase LegalOfficerCase toHexString locMap).
Local Abbreviation getLegalOfficerCasesMap :=
  (Queries.getLegalOfficerCasesMap LegalOfficerCase toHexString toDecimalString locMap).

(** X20. The map of cases agrees with the single query.  For ids whose
    decimal forms tell their hexadecimal forms apart, the record that
    [getLegalOfficerCasesMap] builds holds, under the decimal form of each
    id asked for, the case that [getLegalOfficerCase] returns for that id,
    and no entry for a LOC the ledger does not know or that was not asked
    for. *)
Theorem cases_map_agrees_with_single_query (locIds : list string) :
  (forall a b, In a locIds -> In b locIds ->
               toDecimalString a = toDecimalString b -> toHexString a = toHexString b) ->
  forall key loc,
    getLegalOfficerCasesMap locIds !! key = Some loc
    <-> exists locId,
          In locId locIds /\ toDecimalString locId = key
          /\ getLegalOfficerCase locId = Some loc.
Proof.
  intros Hinj. unfold Queries.getLegalOfficerCasesMap, Queries.getLegalOfficerCases.
  rewrite length_fmap.
  set (step := fun (map : gmap string LegalOfficerCase) (i : nat) => _).
  assert (H : forall n, (n <= length locIds)%nat ->
              forall key loc,
                foldl step ∅ (seq 0 n) !! key = Some loc
                <-> exists i locId,
                      (i < n)%nat /\ locIds !! i = Some locId
                      /\ toDecimalString locId = key
                      /\ getLegalOfficerCase locId = Some loc).
  { induction n as [|n IH]; intros Hn key loc.
    - simpl. rewrite lookup_empty. split; [discriminate | intros (i & ? & ? & _); lia].
    - rewrite seq_S, foldl_app. cbn [foldl Nat.add].
      specialize (IH ltac:(lia)).
      destruct (lookup_lt_is_Some_2 locIds n ltac:(lia)) as (id & Hid).
      unfold step at 1. rewrite list_lookup_fmap, Hid. cbn [fmap option_fmap option_map].
      destruct (locMap (toHexString id)) as [loc'|] eqn:Hloc.
      + destruct (decide (toDecimalString id = key)) as [<-|Hk].
        * rewrite lookup_insert_eq. split.
          -- intros [= <-]. exists n, id. repeat split; auto.
          -- intros (i & id' & Hi & Hid' & Hdec & Hcase). f_equal.
             unfold Queries.getLegalOfficerCase in Hcase.
             rewrite (Hinj id' id) in Hcase; auto; try congruence;
               apply list_elem_of_In; eapply list_elem_of_lookup_2; eauto.
        * rewrite lookup_insert_ne by exact Hk. rewrite IH. split.
          -- intros (i & id' & Hi & Hrest). exists i, id'. split; [lia | exact Hrest].
          -- intros (i & id' & Hi & Hid' & Hdec & Hcase).
             destruct (decide (i = n)) as [->|Hne]; [congruence |].
             exists i, id'. repeat split; auto. lia.
      + rewrite IH. split.
        * intros (i & id' & Hi & Hrest). exists i, id'. split; [lia | exact Hrest].
        * intros (i & id' & Hi & Hid' & Hdec & Hcase).
          destruct (decide (i = n)) as [->|Hne].
          -- unfold Queries.getLegalOfficerCase in Hcase. congruence.
          -- exists i, id'. repeat split; auto. lia. }
  intros key loc. rewrite (H _ (Nat.le_refl _)). split.
  - intros (i & id & _ & Hid & Hrest). exists id. split; [| exact Hrest].
    apply list_elem_of_In. eapply list_elem_of_lookup_2; eauto.
  - intros (id & Hin & Hrest). apply list_elem_of_In, list_elem_of_lookup_1 in Hin.
    destruct Hin as (i & Hi). exists i, id. split; [| split; [exact Hi | exact Hrest]].
    eapply lookup_lt_Some; eauto.
Qed.

End QueriesFacts.

(** Two LOCs are asked for, the ledger knows the first: the map holds it. *)
Lemma cases_map_agrees_with_single_query_witness :
  Queries.getLegalOfficerCasesMap string QueriesScenarios.toHexString
    QueriesScenarios.toDecimalString QueriesScenarios.locMap [ "a"; "b" ] !! "a"
  = Some "case of a".
Proof.
  apply (cases_map_agrees_with_single_query string QueriesScenarios.toHexString
           QueriesScenarios.toDecimalString QueriesScenarios.locMap [ "a"; "b" ]).
  - intros a b _ _ H. unfold QueriesScenarios.toDecimalString in H. now subst.
  - exists "a". repeat split. simpl. auto.
Defined.

(** ** Files without content *)

Section EmptyFileFacts.
Import Js Hash NodeApi Types AuthenticatedLocClient.
Variable hashOf : string -> Hash.
Variable JSON_parse : string -> option Token.Json.
Variable isHex : string -> Z -> bool.
Variable isValidBech32Address : string -> string -> bool.
Variable createType_AccountId : string -> bool.
Variable currentAddress : option ValidAccountId.t.

Local Abbreviation addCollectionItem :=
  (AuthenticatedLocClient.addCollectionItem hashOf JSON_parse isHex isValidBech32Address
     createType_AccountId currentAddress).
Local Abbreviation addTokensRecord :=
  (AuthenticatedLocClient.addTokensRecord hashOf currentAddress).

Lemma finalizeAll_In files files' file :
  finalizeAll hashOf files = Ok files' ->
  In file files ->
  fst (ItemFileWithContent.finalize hashOf file) = Ok tt
  /\ In (snd (ItemFileWithContent.finalize hashOf file)) files'.
Proof.
  revert files'. induction files as [|f files IH]; intros files' H Hin; [destruct Hin |].
  cbn [finalizeAll] in H.
  destruct (ItemFileWithContent.finalize hashOf f) as [[[]|e] f'] eqn:Hf; [| discriminate].
  destruct (finalizeAll hashOf files) as [rest|] eqn:Hrest; [| discriminate].
  cbn [bind] in H. injection H as <-.
  destruct Hin as [->|Hin].
  - rewrite Hf. split; [reflexivity | now left].
  - destruct (IH _ eq_refl Hin) as [H1 H2]. split; [exact H1 | now right].
Qed.

Lemma empty_content_has_no_size file :
  ItemFileWithContent.hashOrContent file = fromContent "" ->
  fst (ItemFileWithContent.finalize hashOf file) = Ok tt ->
  ItemFileWithContent.size (snd (ItemFileWithContent.finalize hashOf file))
  = Throw (Error "Call finalize() first").
Proof.
  destruct file as [name contentType size h]. cbn. intros ->.
  unfold ItemFileWithContent.finalize, ItemFileWithContent.size. cbn.
  destruct size as [given|]; cbn; [| reflexivity].
  unfold truthyBigint. destruct (Z.eqb_spec given 0) as [->|Hg]; cbn; [reflexivity |].
  change (Z.of_nat 0) with 0%Z.
  destruct (Z.eqb_spec given 0); [contradiction | discriminate].
Qed.

Lemma empty_file_stops_preparation {B} (describe : ItemFileWithContent.t -> result B)
      files file :
  (forall file', ItemFileWithContent.size file' = Throw (Error "Call finalize() first") ->
                 exists e, describe file' = Throw e) ->
  In file files ->
  ItemFileWithContent.hashOrContent file = fromContent "" ->
  exists e, (let* files' := finalizeAll hashOf files in mapM describe files') = Throw e.
Proof.
  intros Hdescribe Hin Hempty.
  destruct (finalizeAll hashOf files) as [files'|e] eqn:Hfin; cbn [bind]; [| eauto].
  destruct (finalizeAll_In _ _ _ Hfin Hin) as [Hok Hin'].
  destruct (Hdescribe _ (empty_content_has_no_size _ Hempty Hok)) as (e & He).
  destruct (mapM_Throw describe files' _ e Hin' He) as (e' & ->). eauto.
Qed.

(** X7. A file without content cannot be added.  When one of the files
    given to [addCollectionItem] or [addTokensRecord] has an empty content,
    the call throws before it sends anything: either the declared size
    does not match, or the file's size, which is zero, reads as missing. *)
Theorem empty_file_cannot_be_added (w : World.t) (file : ItemFileWithContent.t) :
  ItemFileWithContent.hashOrContent file = fromContent "" ->
  (forall parameters files,
      AddCollectionItemParams.itemFiles parameters = Some files ->
      In file files ->
      exists e, addCollectionItem parameters w = (Throw e, w))
  /\ (forall parameters,
         In file (AddTokensRecordParams.files parameters) ->
         exists e, addTokensRecord parameters w = (Throw e, w)).
Proof.
  intros Hempty. split.
  - intros parameters files Hfiles Hin.
    rewrite addCollectionItem_prepared.
    unfold AuthenticatedLocClient.preparedCollectionItem,
      AuthenticatedLocClient.checkedBeforeTerms.
    rewrite Hfiles.
    destruct (empty_file_stops_preparation (chainItemFile hashOf) files file) as (e & He);
      auto.
    { intros file' Hsize. unfold chainItemFile. rewrite Hsize.
      destruct (contentHash _); cbn [bind]; eauto. }
    destruct (finalizeAll hashOf files) as [files'|]; cbn [bind] in *.
    + rewrite He. cbn [bind]. eauto.
    + eauto.
  - intros parameters Hin.
    rewrite addTokensRecord_prepared.
    unfold AuthenticatedLocClient.preparedTokensRecord.
    destruct (empty_file_stops_preparation (chainRecordFile hashOf)
                (AddTokensRecordParams.files parameters) file) as (e & He); auto.
    { intros file' Hsize. unfold chainRecordFile. rewrite Hsize.
      destruct (contentHash _); cbn [bind]; eauto. }
    destruct (finalizeAll hashOf (AddTokensRecordParams.files parameters)) as [files'|];
      cbn [bind] in *.
    + rewrite He. cbn [bind]. eauto.
    + eauto.
Qed.

End EmptyFileFacts.

(** A record with two files, the second one empty: refused, nothing sent. *)
Lemma empty_file_cannot_be_added_witness :
  exists e,
    AuthenticatedLocClient.addTokensRecord Examples.hashOf (Some Examples.alice)
      FileScenarios.recordWithEmptyFile (Examples.emptyWorld Examples.acceptAll)
    = (Js.Throw e, Examples.emptyWorld Examples.acceptAll).
Proof.
  refine (proj2 (empty_file_cannot_be_added Examples.hashOf Examples.JSON_parse
                   Examples.isHex Examples.isValidBech32Address
                   Examples.createType_AccountId (Some Examples.alice)
                   (Examples.emptyWorld Examples.acceptAll) FileScenarios.emptyFile
                   eq_refl)
                FileScenarios.recordWithEmptyFile _).
  simpl. auto.
Defined.

(** ** The verified issuer flag *)

Section VerifiedIssuerFacts.
Import Js Hash NodeApi Types AuthenticatedLocClient.
Variable toDecimalString : string -> string.

(** X22. What the [verifiedIssuer] flag tells.  In a result that
    [getLocIssuers] returns, the flag is set exactly when the LOC is a
    closed identity LOC whose requester is a Polkadot account found among
    the verified issuers available to the owner of the LOC.  It tells about
    the requester, whoever the caller is. *)
Theorem verifiedIssuer_flag (current : option ValidAccountId.t) (request : LocRequest.t)
        (locBatch : LocBatch.t) (res : LocVerifiedIssuers.t) :
  getLocIssuers toDecimalString current request locBatch = Ok res ->
  LocVerifiedIssuers.verifiedIssuer res = true
  <-> is_Some current
      /\ LocRequest.locType request = Identity
      /\ LocRequest.status request = CLOSED
      /\ exists available requester,
           LocBatch.getAvailableVerifiedIssuers locBatch !! LocRequest.ownerAddress request
             = Some available
           /\ LocRequest.requesterAddress request = Some requester
           /\ SupportedAccountId.type requester = "Polkadot"
           /\ In (SupportedAccountId.address requester)
                 (VerifiedIssuerType.address <$> available).
Proof.
  unfold getLocIssuers. intros H.
  destruct current as [current|].
  2:{ injection H as <-. simpl. split; [discriminate | intros ([? [=]] & _)]. }
  destruct (isOpenOrClosed (LocRequest.status request)) eqn:Hs; cbn [negb] in H.
  2:{ injection H as <-. simpl. split; [discriminate |].
      intros (_ & _ & Hc & _). rewrite Hc in Hs. discriminate. }
  destruct (LocRequest.locType request) eqn:Ht;
    try (cbn [bind] in H;
         destruct (defined (LocBatch.getLocsVerifiedIssuers locBatch !! _) "forEach");
         [| discriminate]; cbn [bind] in H; injection H as <-; simpl;
         split; [discriminate | intros (_ & [=] & _)]).
  destruct (LocRequest.status request) eqn:Hst;
    try (cbn [bind] in H;
         destruct (defined (LocBatch.getLocsVerifiedIssuers locBatch !! _) "forEach");
         [| discriminate]; cbn [bind] in H; injection H as <-; simpl;
         split; [discriminate | intros (_ & _ & [=] & _)]).
  destruct (LocBatch.getAvailableVerifiedIssuers locBatch !! LocRequest.ownerAddress request)
    as [available|] eqn:Ha; [| discriminate].
  cbn [defined bind] in H.
  destruct (defined (LocBatch.getLocsVerifiedIssuers locBatch !! _) "forEach");
    [| discriminate].
  cbn [bind] in H. injection H as <-. cbn [LocVerifiedIssuers.verifiedIssuer].
  rewrite bool_decide_eq_true. split.
  - intros [issuer Hfind]. apply List.find_some in Hfind. destruct Hfind as [Hin Hp].
    destruct (LocRequest.requesterAddress request) as [requester|]; [| discriminate].
    apply andb_true_iff in Hp. rewrite !String.eqb_eq in Hp. destruct Hp as [Haddr Htype].
    repeat split; eauto. exists available, requester. repeat split; auto.
    rewrite <- Haddr. now apply in_map.
  - intros (_ & _ & _ & available' & requester & [= <-] & -> & Htype & Hin).
    apply in_map_iff in Hin. destruct Hin as (issuer & Haddr & Hin).
    destruct (find_In_is_Some
                (fun issuer =>
                   String.eqb (VerifiedIssuerType.address issuer)
                              (SupportedAccountId.address requester)
                   && String.eqb (SupportedAccountId.type requester) "Polkadot")
                available issuer Hin) as (y & Hy).
    { rewrite Haddr, Htype, !String.eqb_refl. reflexivity. }
    rewrite Hy. eauto.
Qed.

End VerifiedIssuerFacts.

(** Eve asks about the closed identity LOC of alice: the flag is set. *)
Lemma verifiedIssuer_flag_witness :
  exists res,
    AuthenticatedLocClient.getLocIssuers Examples.toDecimalString (Some Examples.eve)
      IssuerScenarios.closedIdentity IssuerScenarios.identityBatch = Js.Ok res
    /\ Types.LocVerifiedIssuers.verifiedIssuer res = true.
Proof.
  eexists. split; [reflexivity |].
  apply (verifiedIssuer_flag Examples.toDecimalString (Some Examples.eve)
           IssuerScenarios.closedIdentity IssuerScenarios.identityBatch _ eq_refl).
  split; [eexists; reflexivity |]. split; [reflexivity |]. split; [reflexivity |].
  eexists _, _. split; [reflexivity |]. split; [reflexivity |].
  split; [reflexivity |]. simpl. auto.
Defined.

(** Bob, whom the ledger has selected for the open LOC, may add a record;
    the backend does not list him. *)
Lemma canAddRecord_true_iff_witness :
  RecordRights.canAddRecord Examples.toDecimalString IssuerScenarios.bobAccount
    IssuerScenarios.locs Examples.openRequest = Js.Ok true.
Proof.
  apply (proj2 (canAddRecord_true_iff Examples.toDecimalString IssuerScenarios.bobAccount
                  IssuerScenarios.locs Examples.openRequest)).
  right. right. split; [reflexivity |]. split; [reflexivity |].
  split; [eexists; reflexivity |].
  exists [ Examples.bob ]. split; [reflexivity |]. left. reflexivity.
Defined.
